(** * Image-processing benchmark: partitioning, workers and aggregation

    A shallow embedding of the three scripts of the repository
    ([sequential_process.py], [parallel_process.py],
    [distributed_process.py]) and the properties of their
    discovery / partition / worker / coordinator core. *)

From Stdlib Require Import ZArith Floats.SpecFloat.
From stdpp Require Import gmap strings list sorting.

(** ** Python results and exceptions *)

(** The exception classes the scripts can meet.  All of them derive from
    [Exception], so a handler [except Exception] catches each one. *)
Inductive exn :=
  | FileNotFoundError
  | NotADirectoryError
  | FileExistsError
  | ValueError
  | ZeroDivisionError
  | IndexError
  | cv2_error.

Inductive result (A : Type) :=
  | Ok (a : A)
  | Raise (e : exn).
Arguments Ok {A} a.
Arguments Raise {A} e.

Global Instance exn_eq_dec : EqDecision exn.
Proof. solve_decision. Defined.
Global Instance result_eq_dec `{EqDecision A} : EqDecision (result A).
Proof. solve_decision. Defined.

Definition is_Ok {A} (r : result A) : bool :=
  match r with Ok _ => true | Raise _ => false end.

(** A path is the list of its components; [os.path.join p name] appends one
    component (the names returned by [os.listdir] contain no separator). *)
Definition path := list string.
Definition path_join (p : path) (name : string) : path := p ++ [name].

(** A work item is the pair [(input_path, output_path)]. *)
Definition item := (path * path)%type.

(** ** [numpy.array_split] along the first axis *)

Module Numpy.
Section split.
Context {A : Type}.

  (** [ary[st:en]] for non-negative bounds. *)
Definition py_slice (ary : list A) (st en : nat) : list A :=
    take (en - st) (drop st ary).

Fixpoint cumsum_from (acc : nat) (l : list nat) : list nat :=
    match l with
    | [] => []
    | x :: r => (acc + x) :: cumsum_from (acc + x) r
    end.
Definition cumsum (l : list nat) : list nat := cumsum_from 0 l.

  (** [[0] + extras * [Neach_section+1] + (Nsections-extras) * [Neach_section]] *)
Definition section_sizes (Ntotal Nsections : nat) : list nat :=
    let Neach_section := Ntotal / Nsections in
    let extras := Ntotal mod Nsections in
    [0] ++ replicate extras (Neach_section + 1)
        ++ replicate (Nsections - extras) Neach_section.

Definition array_split (ary : list A) (Nsections : nat)
    : result (list (list A)) :=
    if decide (Nsections ≤ 0) then Raise ValueError
    else
      let Ntotal := length ary in
      let div_points := cumsum (section_sizes Ntotal Nsections) in
      Ok ((λ i, py_slice ary (div_points !!! i) (div_points !!! (i + 1)))
            <$> seq 0 Nsections).
End split.
End Numpy.


(** ** Python floats

    A Python [float] is an IEEE-754 binary64 value; [spec_float] with
    precision 53 and maximal exponent 1024 is its exact model. *)

Definition float := spec_float.
Definition prec : Z := 53.
Definition emax : Z := 1024.

Definition float_sub (x y : float) : float := SFsub prec emax x y.
Definition float_div (x y : float) : float := SFdiv prec emax x y.

(** [y == 0.0] holds for both signed zeros. *)
Definition float_is_zero (y : float) : bool :=
  match y with S754_zero _ => true | _ => false end.

(** [x / y] on Python floats: a zero divisor raises instead of producing an
    infinity or a NaN. *)
Definition float_truediv (x y : float) : result float :=
  if float_is_zero y then Raise ZeroDivisionError else Ok (float_div x y).

(** The float [1.0]. *)
Definition float_one : float := S754_finite false 4503599627370496 (-52).

(** ** The world the scripts run in *)

(** A file-system entry: a regular file, or a directory together with the
    names [os.listdir] returns for it, in the order it returns them. *)
Inductive ftype :=
  | File
  | Dir (names : list string).

Global Instance ftype_eq_dec : EqDecision ftype.
Proof. solve_decision. Defined.

(** The dictionary a node stores under its id: [{'count': .., 'time': ..}]. *)
Record node_result := { count : nat; time : float }.

(** One [print] call; formatting of the numbers is left out. *)
Inductive line :=
  | PError (input_path : path) (e : exn)
  | PWarning (input_path : path)
  | PNodeStart (node_id : nat)
  | PNodeFinished (node_id : nat) (total_time : float)
  | PTotalFound (n : nat)
  | PBanner (s : string)
  | PSequentialTime (t : float)
  | PNodeSummary (node_id count : nat) (t : float)
  | PTotalDistributed (t : float)
  | PEfficiency (e : float)
  | PTimeTaken (t : float)
  | PTableRow (workers : nat) (time_taken speedup : float).

Record world := {
  fs : gmap path ftype;                     (* the file tree the [os] calls see *)
  ticks : nat;                              (* number of clock readings so far *)
  calls : list item;                        (* history of Transform invocations *)
  written : list path;                      (* files written by [cv2.imwrite] *)
  stdout : list line;                       (* what was printed *)
  results_dict : list (nat * node_result);  (* the manager's shared dict,
                                               in insertion order *)
}.

Definition set_fs (f : gmap path ftype) (w : world) : world :=
  {| fs := f; ticks := ticks w; calls := calls w; written := written w;
     stdout := stdout w; results_dict := results_dict w |}.
Definition set_ticks (n : nat) (w : world) : world :=
  {| fs := fs w; ticks := n; calls := calls w; written := written w;
     stdout := stdout w; results_dict := results_dict w |}.
Definition set_calls (c : list item) (w : world) : world :=
  {| fs := fs w; ticks := ticks w; calls := c; written := written w;
     stdout := stdout w; results_dict := results_dict w |}.
Definition set_written (l : list path) (w : world) : world :=
  {| fs := fs w; ticks := ticks w; calls := calls w; written := l;
     stdout := stdout w; results_dict := results_dict w |}.
Definition set_stdout (l : list line) (w : world) : world :=
  {| fs := fs w; ticks := ticks w; calls := calls w; written := written w;
     stdout := l; results_dict := results_dict w |}.
Definition set_results_dict (d : list (nat * node_result)) (w : world) : world :=
  {| fs := fs w; ticks := ticks w; calls := calls w; written := written w;
     stdout := stdout w; results_dict := d |}.

(** The external collaborators: OpenCV and the system clock.  Each OpenCV
    call may return normally or raise; what it does may depend on the whole
    state of the world. *)
Class Env := {
  image : Type;
  cv2_imread_outcome : world → path → result (option image);
  cv2_resize_outcome : world → image → nat * nat → result image;
  cv2_getTextSize_outcome : world → string → result (nat * nat);
  cv2_putText_outcome : world → image → string → nat * nat → result unit;
  cv2_imwrite_outcome : world → path → image → result bool;
  clock : nat → float;
}.

(** ** State-and-exception monad *)

Definition M (S A : Type) : Type := S → S * result A.

Definition ret {S A} (a : A) : M S A := λ w, (w, Ok a).
Definition raise {S A} (e : exn) : M S A := λ w, (w, Raise e).
Definition bind {S A B} (m : M S A) (k : A → M S B) : M S B :=
  λ w, match m w with
       | (w', Ok a) => k a w'
       | (w', Raise e) => (w', Raise e)
       end.
Definition lift {S A} (r : result A) : M S A := λ w, (w, r).

Notation "'let!' x ':=' m 'in' k" := (bind m (λ x, k))
  (at level 10, x name, m at level 100, k at level 200).
Notation "m '>>' k" := (bind m (λ _, k))
  (at level 90, right associativity).

(** Computations on the file system alone, and on the whole world. *)
Abbreviation FS := (M (gmap path ftype)).
Abbreviation IO := (M world).

(** A file-system computation run in the world. *)
Definition lift_fs {A} (m : FS A) : IO A :=
  λ w, let '(f, r) := m (fs w) in (set_fs f w, r).

(** [try: body  except Exception as e: handler e] *)
Definition try_except {S A} (body : M S A) (handler : exn → M S A) : M S A :=
  λ w, match body w with
       | (w', Raise e) => handler e w'
       | (w', Ok a) => (w', Ok a)
       end.

(** [for x in l: body x] *)
Fixpoint for_each {S A} (l : list A) (body : A → M S unit) : M S unit :=
  match l with
  | [] => ret tt
  | x :: r => body x >> for_each r body
  end.

Definition print (l : line) : IO unit :=
  λ w, (set_stdout (stdout w ++ [l]) w, Ok tt).

(** History variable: notes that Transform was invoked on an item. *)
Definition note_call (it : item) : IO unit :=
  λ w, (set_calls (calls w ++ [it]) w, Ok tt).

(** [l[i]] *)
Definition py_index {S A} (l : list A) (i : nat) : M S A :=
  match l !! i with
  | Some x => ret x
  | None => raise IndexError
  end.

Section collaborators.
Context `{env : Env}.

  (** [time.time()] *)
Definition time_time : IO float :=
    λ w, (set_ticks (S (ticks w)) w, Ok (clock (ticks w))).

Definition cv2_imread (p : path) : IO (option image) :=
    λ w, (w, cv2_imread_outcome w p).
Definition cv2_resize (img : image) (size : nat * nat) : IO image :=
    λ w, (w, cv2_resize_outcome w img size).
Definition cv2_getTextSize (text : string) : IO (nat * nat) :=
    λ w, (w, cv2_getTextSize_outcome w text).
Definition cv2_putText (img : image) (text : string) (org : nat * nat) : IO unit :=
    λ w, (w, cv2_putText_outcome w img text org).
  (** A successful [imwrite] leaves a file at [p]: it is recorded in
      [written].  The [fs] component is the directory tree the [os] calls
      read and extend; the image files written are not entered in it, so
      what a property says of [fs] is said of that tree, and what is said
      of the written files is said of [written]. *)
Definition cv2_imwrite (p : path) (img : image) : IO bool :=
    λ w, match cv2_imwrite_outcome w p img with
         | Ok true => (set_written (written w ++ [p]) w, Ok true)
         | r => (w, r)
         end.
End collaborators.

(** ** The [os] module over the file system

    Paths are absolute component lists; the root is [[]].  Only the state of
    the file system decides what the calls return. *)

Definition os_path_exists (p : path) : FS bool :=
  λ f, (f, Ok (bool_decide (is_Some (f !! p)))).

Definition os_path_isdir (p : path) : FS bool :=
  λ f, (f, Ok (match f !! p with Some (Dir _) => true | _ => false end)).

Definition os_listdir (p : path) : FS (list string) :=
  λ f, (f, match f !! p with
           | Some (Dir names) => Ok names
           | Some File => Raise NotADirectoryError
           | None => Raise FileNotFoundError
           end).

(** [os.mkdir head/tail], given as the parent path and the new name: the
    new directory is empty and its name enters the parent's listing.  Where
    a new name shows up in a listing is the file system's choice; the model
    puts it last.  The properties below do not rest on that choice: they
    speak of a listing that a [mkdir] has touched only through the names it
    holds (see [fs_kept]), never through their order. *)
Definition os_mkdir (head : path) (tail : string) : FS unit :=
  λ f, match f !! path_join head tail with
       | Some _ => (f, Raise FileExistsError)
       | None =>
           match f !! head with
           | Some (Dir names) =>
               (<[path_join head tail := Dir []]>
                  (<[head := Dir (names ++ [tail])]> f),
                Ok tt)
           | Some File => (f, Raise NotADirectoryError)
           | None => (f, Raise FileNotFoundError)
           end
       end.

(** [os.makedirs(name)] with [exist_ok=False], by recursion on the reversed
    path (last component first): missing ancestors are created first, a
    [FileExistsError] from that recursive call is swallowed, then the leaf is
    made. *)
Fixpoint makedirs_rev (rname : list string) : FS unit :=
  match rname with
  | [] => raise FileExistsError
  | tail :: rhead =>
      let head := reverse rhead in
      let! head_exists := os_path_exists head in
      (if negb head_exists
       then try_except (makedirs_rev rhead)
              (λ e, match e with FileExistsError => ret tt | _ => raise e end)
       else ret tt) >>
      os_mkdir head tail
  end.

Definition os_makedirs (name : path) : FS unit := makedirs_rev (reverse name).

(** ** Discovery *)

(** The inner loop (parallel_process.py l.43-48, distributed_process.py
    l.64-67): one appended pair per listed name, in listing order. *)
Definition image_loop (class_folder_path output_class_folder : path)
    (names : list string) (image_paths_list : list item) : list item :=
  foldl (λ acc image_name,
           acc ++ [(path_join class_folder_path image_name,
                    path_join output_class_folder image_name)])
        image_paths_list names.

(** The outer loop over the entries of the input root (parallel_process.py
    l.33-48; distributed_process.py l.58-67 repeats it word for word). *)
Fixpoint class_folder_loop (input_dir output_dir : path)
    (folders : list string) (image_paths_list : list item) : FS (list item) :=
  match folders with
  | [] => ret image_paths_list
  | class_folder :: rest =>
      let class_folder_path := path_join input_dir class_folder in
      let! is_dir := os_path_isdir class_folder_path in
      if is_dir then
        let output_class_folder := path_join output_dir class_folder in
        let! present := os_path_exists output_class_folder in
        (if negb present then os_makedirs output_class_folder else ret tt) >>
        let! names := os_listdir class_folder_path in
        class_folder_loop input_dir output_dir rest
          (image_loop class_folder_path output_class_folder names
             image_paths_list)
      else class_folder_loop input_dir output_dir rest image_paths_list
  end.

Definition IMG_SIZE : nat * nat := (128, 128).
Definition WATERMARK_TEXT : string := "Processed".

Module Parallel.

Definition WORKER_COUNTS : list nat := [1; 2; 4; 8].

Definition get_all_image_paths (input_dir output_dir : path) : FS (list item) :=
    let! present := os_path_exists output_dir in
    (if negb present then os_makedirs output_dir else ret tt) >>
    let! folders := os_listdir input_dir in
    class_folder_loop input_dir output_dir folders [].

Section with_env.
Context `{env : Env}.

Definition process_image (paths : item) : IO unit :=
      let '(input_path, output_path) := paths in
      note_call paths >>
      try_except
        (let! image := cv2_imread input_path in
         match image with
         | None => print (PWarning input_path)
         | Some image =>
             let! resized_image := cv2_resize image IMG_SIZE in
             cv2_getTextSize WATERMARK_TEXT >>
             cv2_putText resized_image WATERMARK_TEXT (10, snd IMG_SIZE - 10) >>
             cv2_imwrite output_path resized_image >>
             ret tt
         end)
        (λ e, print (PError input_path e)).

    (** [with ThreadPoolExecutor(max_workers=n) as executor:
         list(executor.map(process_image, all_image_paths))].
        The constructor rejects a non-positive pool size; the calls are laid
        out in submission order (the threads' interleaving only permutes the
        history, which no result of [main] depends on). *)
Definition executor_map (num_workers : nat) (all_image_paths : list item)
      : IO unit :=
      if decide (num_workers ≤ 0) then raise ValueError
      else for_each all_image_paths process_image.

    (** The sweep (l.92-107): one timed pool run per worker count. *)
Fixpoint sweep (worker_counts : list nat) (all_image_paths : list item)
        (results : list (nat * float)) : IO (list (nat * float)) :=
      match worker_counts with
      | [] => ret results
      | num_workers :: rest =>
          print (PBanner "Testing") >>
          let! start_time := time_time in
          executor_map num_workers all_image_paths >>
          let! end_time := time_time in
          let total_time := float_sub end_time start_time in
          print (PTimeTaken total_time) >>
          sweep rest all_image_paths (results ++ [(num_workers, total_time)])
      end.

    (** The speedup table (l.109-123). *)
Definition speedup_table (results : list (nat * float)) : IO unit :=
      print (PBanner "Speedup Table") >>
      print (PBanner "Workers | Time (s) | Speedup") >>
      print (PBanner "-------- | -------- | -------") >>
      let! first := py_index results 0 in
      let baseline_time := snd first in
      for_each results (λ res,
        let workers := fst res in
        let time_taken := snd res in
        let! speedup := lift (float_truediv baseline_time time_taken) in
        print (PTableRow workers time_taken speedup)).

Definition main (INPUT_DIR OUTPUT_DIR : path) (worker_counts : list nat)
      : IO unit :=
      print (PBanner "Discovering") >>
      let! all_image_paths := lift_fs (get_all_image_paths INPUT_DIR OUTPUT_DIR) in
      print (PTotalFound (length all_image_paths)) >>
      let! results := sweep worker_counts all_image_paths [] in
      speedup_table results.
End with_env.
End Parallel.

(** ** The shared result store *)

(** [d[k] = v] on a Python dict kept in insertion order: an existing key keeps
    its place, a new key goes last. *)
Fixpoint dict_set {V} (k : nat) (v : V) (d : list (nat * V)) : list (nat * V) :=
  match d with
  | [] => [(k, v)]
  | (k', v') :: r => if decide (k' = k) then (k, v) :: r else (k', v') :: dict_set k v r
  end.

Fixpoint dict_get {V} (k : nat) (d : list (nat * V)) : option V :=
  match d with
  | [] => None
  | (k', v') :: r => if decide (k' = k) then Some v' else dict_get k r
  end.

(** Order of [(node_id, result)] tuples with distinct ids. *)
Definition item_le (a b : nat * node_result) : Prop := a.1 ≤ b.1.
Global Instance item_le_dec : RelDecision item_le.
Proof. intros a b. unfold item_le. apply _. Defined.

(** [sorted(results_dict.items())] *)
Definition py_sorted (d : list (nat * node_result)) : list (nat * node_result) :=
  merge_sort item_le d.

Module Distributed.

Definition NUM_NODES : nat := 2.

  (** Where a node process stands in [node_task]. *)
Inductive pc :=
    | Spawned                                   (* not yet at l.37 *)
    | Looping (todo : list item) (start_time : float)   (* in the loop, l.40 *)
    | Finished                                  (* returned *)
    | Crashed (e : exn).                        (* died on an exception *)

Record process := {
    node_id : nat;
    image_subset : list item;
    at_pc : pc;
  }.

Definition is_alive (p : process) : bool :=
    match at_pc p with
    | Spawned | Looping _ _ => true
    | Finished | Crashed _ => false
    end.

Definition has_finished (p : process) : bool :=
    match at_pc p with Finished => true | _ => false end.

Section with_env.
Context `{env : Env}.

Definition process_single_image (input_path output_path : path) : IO unit :=
      note_call (input_path, output_path) >>
      try_except
        (let! image := cv2_imread input_path in
         match image with
         | Some image =>
             let! resized_image := cv2_resize image IMG_SIZE in
             cv2_putText resized_image WATERMARK_TEXT (10, snd IMG_SIZE - 10) >>
             cv2_imwrite output_path resized_image >>
             ret tt
         | None => ret tt
         end)
        (λ e, print (PError input_path e)).

    (** l.46-48: publish the result and report. *)
Definition publish (node_id : nat) (image_subset : list item)
        (start_time : float) : IO unit :=
      let! end_time := time_time in
      let total_time := float_sub end_time start_time in
      (λ w, (set_results_dict
               (dict_set node_id {| count := length image_subset;
                                    time := total_time |} (results_dict w)) w,
             Ok tt)) >>
      print (PNodeFinished node_id total_time).

    (** [node_task] run on its own, start to end. *)
Definition node_task (node_id : nat) (image_subset : list item) : IO unit :=
      print (PNodeStart node_id) >>
      let! start_time := time_time in
      for_each image_subset (λ it, process_single_image it.1 it.2) >>
      publish node_id image_subset start_time.

    (** One scheduling quantum of a node process: the prologue, one loop
        iteration, or the epilogue of [node_task]. *)
Definition node_step (p : process) : IO pc :=
      match at_pc p with
      | Spawned =>
          print (PNodeStart (node_id p)) >>
          let! start_time := time_time in
          ret (Looping (image_subset p) start_time)
      | Looping (it :: todo) start_time =>
          process_single_image it.1 it.2 >>
          ret (Looping todo start_time)
      | Looping [] start_time =>
          publish (node_id p) (image_subset p) start_time >>
          ret Finished
      | Finished => ret Finished
      | Crashed e => ret (Crashed e)
      end.

    (** The operating system lets process number [i] run for one quantum.
        An exception escaping [node_task] ends that process only. *)
Definition schedule_one (i : nat) (processes : list process)
      : world → world * list process :=
      λ w, match processes !! i with
           | Some p =>
               if is_alive p then
                 match node_step p w with
                 | (w', Ok pc') =>
                     (w', <[i := {| node_id := node_id p;
                                    image_subset := image_subset p;
                                    at_pc := pc' |}]> processes)
                 | (w', Raise e) =>
                     (w', <[i := {| node_id := node_id p;
                                    image_subset := image_subset p;
                                    at_pc := Crashed e |}]> processes)
                 end
               else (w, processes)
           | None => (w, processes)
           end.

Fixpoint run_schedule (schedule : list nat) (processes : list process)
      : world → world * list process :=
      λ w, match schedule with
           | [] => (w, processes)
           | i :: rest =>
               let '(w', processes') := schedule_one i processes w in
               run_schedule rest processes' w'
           end.

    (** [process.join()] for every process returns once none is alive. *)
Definition all_joined (processes : list process) : bool :=
      forallb (λ p, negb (is_alive p)) processes.

    (** l.96-101: create and start one process per node. *)
Fixpoint spawn_loop (indices : list nat) (image_subsets : list (list item))
        (processes : list process) : IO (list process) :=
      match indices with
      | [] => ret processes
      | i :: rest =>
          let node_id := i + 1 in
          let! subset := py_index image_subsets i in
          spawn_loop rest image_subsets
            (processes ++ [{| node_id := node_id; image_subset := subset;
                              at_pc := Spawned |}])
      end.

    (** l.111-119: the summary, then the efficiency. *)
Definition report (sequential_time total_distributed_time : float) : IO unit :=
      print (PBanner "Distributed Processing Summary") >>
      let! results := (λ w, (w, Ok (results_dict w))) in
      for_each (py_sorted results)
        (λ '(node_id, result),
           print (PNodeSummary node_id (count result) (time result))) >>
      print (PTotalDistributed total_distributed_time) >>
      let! efficiency := lift (float_truediv sequential_time total_distributed_time) in
      print (PEfficiency efficiency).

    (** l.84-109: partition, dispatch, join.  [schedule] is the interleaving
        the operating system picks; the result is [None] while some process
        is still alive at its end, i.e. [main] is still blocked in [join]. *)
Definition dispatch_and_join (all_image_paths : list item) (num_nodes : nat)
        (schedule : list nat) : IO (option float) :=
      let! image_subsets := lift (Numpy.array_split all_image_paths num_nodes) in
      (λ w, (set_results_dict [] w, Ok tt)) >>
      let! master_start_time := time_time in
      let! processes := spawn_loop (seq 0 num_nodes) image_subsets [] in
      let! processes := (λ w, let '(w', ps) := run_schedule schedule processes w in
                              (w', Ok ps)) in
      if all_joined processes then
        let! master_end_time := time_time in
        ret (Some (float_sub master_end_time master_start_time))
      else ret None.

Definition main (INPUT_DIR OUTPUT_DIR : path) (num_nodes : nat)
        (schedule : list nat) : IO (option unit) :=
      (* 1. discovery, l.54-69 *)
      let! all_image_paths :=
        lift_fs (let! present := os_path_exists OUTPUT_DIR in
                 (if negb present then os_makedirs OUTPUT_DIR else ret tt) >>
                 let! folders := os_listdir INPUT_DIR in
                 class_folder_loop INPUT_DIR OUTPUT_DIR folders []) in
      print (PTotalFound (length all_image_paths)) >>
      (* baseline, l.71-78 *)
      print (PBanner "Running sequential processing for baseline...") >>
      let! seq_start_time := time_time in
      for_each all_image_paths (λ it, process_single_image it.1 it.2) >>
      let! seq_end_time := time_time in
      let sequential_time := float_sub seq_end_time seq_start_time in
      print (PSequentialTime sequential_time) >>
      (* simulation, l.80-119 *)
      print (PBanner "Starting distributed simulation") >>
      let! joined := dispatch_and_join all_image_paths num_nodes schedule in
      match joined with
      | Some total_distributed_time =>
          report sequential_time total_distributed_time >> ret (Some tt)
      | None => ret None
      end.
End with_env.
End Distributed.

(** ** [sequential_process.py] *)

Module Sequential.
Section with_env.
Context `{env : Env}.

(** The body of the inner loop (l.35-53): no handler surrounds the OpenCV
    calls, and the output path is only built for a decoded image.  The
    history notes the pair the iteration works on. *)
Definition process_entry (class_folder_path output_class_folder : path)
    (image_name : string) : IO unit :=
  let image_path := path_join class_folder_path image_name in
  note_call (image_path, path_join output_class_folder image_name) >>
  let! image := cv2_imread image_path in
  match image with
  | Some image =>
      let! resized_image := cv2_resize image IMG_SIZE in
      cv2_getTextSize WATERMARK_TEXT >>
      cv2_putText resized_image WATERMARK_TEXT (10, snd IMG_SIZE - 10) >>
      let output_image_path := path_join output_class_folder image_name in
      cv2_imwrite output_image_path resized_image >>
      ret tt
  | None => ret tt
  end.

(** The outer loop (l.25-53): the output folder is created for every entry
    of the root, whatever its kind, before the entry is listed. *)
Fixpoint class_folder_loop (INPUT_DIR OUTPUT_DIR : path)
    (folders : list string) : IO unit :=
  match folders with
  | [] => ret tt
  | class_folder :: rest =>
      let class_folder_path := path_join INPUT_DIR class_folder in
      let output_class_folder := path_join OUTPUT_DIR class_folder in
      lift_fs (let! present := os_path_exists output_class_folder in
               if negb present then os_makedirs output_class_folder
               else ret tt) >>
      let! names := lift_fs (os_listdir class_folder_path) in
      for_each names (process_entry class_folder_path output_class_folder) >>
      class_folder_loop INPUT_DIR OUTPUT_DIR rest
  end.

(** The script (l.17-60).  Its last statement prints the total time; the
    value printed is also what [main] returns. *)
Definition main (INPUT_DIR OUTPUT_DIR : path) : IO float :=
  let! start_time := time_time in
  lift_fs (let! present := os_path_exists OUTPUT_DIR in
           if negb present then os_makedirs OUTPUT_DIR else ret tt) >>
  let! folders := lift_fs (os_listdir INPUT_DIR) in
  class_folder_loop INPUT_DIR OUTPUT_DIR folders >>
  let! end_time := time_time in
  let total_time := float_sub end_time start_time in
  print (PBanner "Total execution time") >>
  ret total_time.
End with_env.
End Sequential.

(** ** Reading the console output *)

(** The node ids of the summary rows among some printed lines, in print
    order. *)
Definition summary_ids (ls : list line) : list nat :=
  omap (λ l, match l with PNodeSummary node_id _ _ => Some node_id | _ => None end) ls.

(** The efficiencies printed. *)
Definition efficiencies (ls : list line) : list float :=
  omap (λ l, match l with PEfficiency e => Some e | _ => None end) ls.

(** The rows of the speedup table printed. *)
Definition table_rows (ls : list line) : list (nat * float * float) :=
  omap (λ l, match l with PTableRow n t s => Some (n, t, s) | _ => None end) ls.

(** The results the table loop gets through: it stops at the first zero
    time, where the division raises. *)
Fixpoint until_zero_time (results : list (nat * float)) : list (nat * float) :=
  match results with
  | [] => []
  | res :: rest =>
      if float_is_zero res.2 then [] else res :: until_zero_time rest
  end.

(** The elapsed time measured around the [i]-th timed run of a sweep whose
    first clock reading is reading number [n]. *)
Definition run_time `{env : Env} (n i : nat) : float :=
  float_sub (clock (n + 2 * i + 1)) (clock (n + 2 * i)).

(** The part of the file system at and below the input root. *)
Definition input_tree (input_dir : path) (f : gmap path ftype) : gmap path ftype :=
  filter (λ kv, input_dir `prefix_of` kv.1) f.

(** What a computation printed: the lines added to [stdout]. *)
Definition printed (w w' : world) : list line :=
  drop (length (stdout w)) (stdout w').

(** ** Vocabulary of the properties *)

(** What a computation leaves alone. *)
Definition same_outside_stdout (w w' : world) : Prop :=
  fs w' = fs w ∧ ticks w' = ticks w ∧ calls w' = calls w
  ∧ written w' = written w ∧ results_dict w' = results_dict w.

(** What one Transform invocation can do to the world: it is noted in the
    history, writes at most its own output file, may print, and touches
    neither the clock, the file tree nor the result store.  It never lets an
    exception out. *)
Record transform_effect (it : item) (w w' : world) : Prop := {
  te_calls : calls w' = calls w ++ [it];
  te_written : written w' = written w ∨ written w' = written w ++ [it.2];
  te_stdout : stdout w' = stdout w ∨ ∃ e, stdout w' = stdout w ++ [PError it.1 e];
  te_fs : fs w' = fs w;
  te_ticks : ticks w' = ticks w;
  te_results : results_dict w' = results_dict w;
}.

(** The loop of [node_task] (and the baseline loop of [main]). *)
Record loop_effect (subset : list item) (w w' : world) : Prop := {
  le_calls : calls w' = calls w ++ subset;
  le_written : ∃ outs, written w' = written w ++ outs
                       ∧ outs `sublist_of` subset.*2;
  le_fs : fs w' = fs w;
  le_ticks : ticks w' = ticks w;
  le_results : results_dict w' = results_dict w;
  le_stdout : ∃ ls, stdout w' = stdout w ++ ls
                    ∧ Forall (λ l, ∃ p e, l = PError p e) ls;
}.

(** The invariant tying the store to the processes: ids and chunks are as
    dispatched, nobody has crashed, and the store holds exactly the results
    of the finished processes, each with its chunk length. *)
Record store_inv (chunks : list (list item)) (w : world) (ps : list Distributed.process)
  : Prop := {
  si_length : length ps = length chunks;
  si_static : ∀ i p, ps !! i = Some p →
      Distributed.node_id p = i + 1
      ∧ chunks !! i = Some (Distributed.image_subset p)
      ∧ ∀ e, Distributed.at_pc p ≠ Distributed.Crashed e;
  si_nodup : NoDup (results_dict w).*1;
  si_published : ∀ i p, ps !! i = Some p → Distributed.has_finished p = true →
      is_Some (dict_get (Distributed.node_id p) (results_dict w));
  si_origin : ∀ k r, dict_get k (results_dict w) = Some r →
      ∃ i p, ps !! i = Some p ∧ Distributed.has_finished p = true ∧ Distributed.node_id p = k
             ∧ count r = length (Distributed.image_subset p);
}.

(** A computation that prints no row of the speedup table. *)
Definition prints_no_row (w w' : world) : Prop :=
  ∃ ls, stdout w' = stdout w ++ ls ∧ table_rows ls = [].

(** The file system only grows: an entry that exists stays, a regular file
    stays what it is, a directory listing is only extended at its end. *)
Definition fs_le (f f' : gmap path ftype) : Prop :=
  ∀ p, match f !! p with
       | None => True
       | Some File => f' !! p = Some File
       | Some (Dir names) => ∃ more, f' !! p = Some (Dir (names ++ more))
       end.

(** What is left of an iteration once the output folder is there. *)
Definition list_class_folder (input_dir output_dir : path) (class_folder : string)
    (rest : list string) (acc : list item) : FS (list item) :=
  let! names := os_listdir (path_join input_dir class_folder) in
  class_folder_loop input_dir output_dir rest
    (image_loop (path_join input_dir class_folder)
       (path_join output_dir class_folder) names acc).

(** Quanta a process still needs before it has returned. *)
Definition quanta_left (p : Distributed.process) : nat :=
  match Distributed.at_pc p with
  | Distributed.Spawned => length (Distributed.image_subset p) + 2
  | Distributed.Looping todo _ => length todo + 1
  | Distributed.Finished | Distributed.Crashed _ => 0
  end.

(** ** Vocabulary of the further properties *)

(** The invariant tying the history of Transform invocations to the node
    processes: [ds] holds, per process, the part of its chunk it has been
    through; the history is the one at dispatch, [base], followed by those
    parts in some interleaving. *)
Record history_inv (base : list item) (w : world)
    (ps : list Distributed.process) (ds : list (list item)) : Prop := {
  hi_length : length ds = length ps;
  hi_calls : ∃ tail, calls w = base ++ tail ∧ tail ≡ₚ concat ds;
  hi_done : ∀ i p d, ps !! i = Some p → ds !! i = Some d →
      match Distributed.at_pc p with
      | Distributed.Spawned => d = []
      | Distributed.Looping todo _ => Distributed.image_subset p = d ++ todo
      | Distributed.Finished => d = Distributed.image_subset p
      | Distributed.Crashed _ => True
      end;
}.

(** The lines of the final report: the summary rows, the total distributed
    time and the efficiency. *)
Definition is_report_line (l : line) : bool :=
  match l with
  | PNodeSummary _ _ _ | PTotalDistributed _ | PEfficiency _ => true
  | _ => false
  end.

(** What a computation has kept, whatever the order of the listings: a
    regular file is still that file, a directory is still a directory and
    lists at least the names it listed. *)
Definition fs_kept (f f' : gmap path ftype) : Prop :=
  ∀ p, match f !! p with
       | None => True
       | Some File => f' !! p = Some File
       | Some (Dir names) =>
           ∃ names', f' !! p = Some (Dir names') ∧ names ⊆ names'
       end.

(** A computation that creates no regular file: a regular file found
    afterwards was there before. *)
Definition no_file_added (f f' : gmap path ftype) : Prop :=
  ∀ q, f' !! q = Some File → f !! q = Some File.

(** The pairs of one class folder, in listing order. *)
Definition pairs_of (input_dir output_dir : path) (class_folder : string)
    (names : list string) : list item :=
  (λ n, (path_join (path_join input_dir class_folder) n,
         path_join (path_join output_dir class_folder) n)) <$> names.

(** The pairs a file tree holds: for each entry of the root that is a
    directory, in listing order, the pairs of its entries. *)
Definition pairs_in_tree (input_dir output_dir : path) (f : gmap path ftype)
    (folders : list string) : list item :=
  folders ≫= λ c,
    match f !! path_join input_dir c with
    | Some (Dir names) => pairs_of input_dir output_dir c names
    | _ => []
    end.

(** ** Concrete worlds used by the examples *)

Module Fixtures.

(** The float nearest to an integer. *)
Definition float_of_Z (z : Z) : float := binary_normalize prec emax z 0 false.

Definition decode (p : path) : result (option unit) :=
  match last p with
  | Some "corrupt.png" => Ok None
  | Some "crash.png" => Raise cv2_error
  | _ => Ok (Some tt)
  end.

(** OpenCV that cannot decode [corrupt.png], raises on [crash.png] and
    handles everything else; the clock advances one second per reading. *)
Definition ticking_env : Env := {|
  image := unit;
  cv2_imread_outcome := λ _ p, decode p;
  cv2_resize_outcome := λ _ img _, Ok img;
  cv2_getTextSize_outcome := λ _ _, Ok (0, 0);
  cv2_putText_outcome := λ _ _ _ _, Ok tt;
  cv2_imwrite_outcome := λ _ _ _, Ok true;
  clock := λ n, float_of_Z (Z.of_nat n);
|}.

(** The same collaborators with a clock too coarse to see time pass. *)
Definition frozen_env : Env := {|
  image := unit;
  cv2_imread_outcome := λ _ p, decode p;
  cv2_resize_outcome := λ _ img _, Ok img;
  cv2_getTextSize_outcome := λ _ _, Ok (0, 0);
  cv2_putText_outcome := λ _ _ _ _, Ok tt;
  cv2_imwrite_outcome := λ _ _ _, Ok true;
  clock := λ _, float_of_Z 1700000000;
|}.

Definition INPUT_DIR : path := ["content"; "data_set"].
Definition OUTPUT_DIR : path := ["work"; "output"].

Definition world_of (f : gmap path ftype) : world :=
  {| fs := f; ticks := 0; calls := []; written := []; stdout := [];
     results_dict := [] |}.

(** No data set at all: only [/content] and [/work] exist. *)
Definition fs_no_root : gmap path ftype :=
  list_to_map [ ([], Dir ["content"; "work"]);
                (["content"], Dir []);
                (["work"], Dir []) ].

(** A data set with two class folders and a stray file next to them. *)
Definition fs_data_set : gmap path ftype :=
  list_to_map [ ([], Dir ["content"; "work"]);
                (["content"], Dir ["data_set"]);
                (["work"], Dir []);
                (INPUT_DIR, Dir ["cats"; "README.txt"; "dogs"]);
                (INPUT_DIR ++ ["cats"], Dir ["a.png"; "corrupt.png"; "b.png"]);
                (INPUT_DIR ++ ["cats"; "a.png"], File);
                (INPUT_DIR ++ ["cats"; "corrupt.png"], File);
                (INPUT_DIR ++ ["cats"; "b.png"], File);
                (INPUT_DIR ++ ["README.txt"], File);
                (INPUT_DIR ++ ["dogs"], Dir ["crash.png"; "c.png"]);
                (INPUT_DIR ++ ["dogs"; "crash.png"], File);
                (INPUT_DIR ++ ["dogs"; "c.png"], File) ].

Definition chunk : list item :=
  [ (["in"; "a.png"], ["out"; "a.png"]);
    (["in"; "corrupt.png"], ["out"; "corrupt.png"]);
    (["in"; "crash.png"], ["out"; "crash.png"]);
    (["in"; "b.png"], ["out"; "b.png"]) ].

(** Discovery on that data set, and the pairs it finds. *)
Definition discovered : gmap path ftype * result (list item) :=
  Parallel.get_all_image_paths INPUT_DIR OUTPUT_DIR fs_data_set.
Definition found : list item :=
  (λ rel, (INPUT_DIR ++ rel, OUTPUT_DIR ++ rel))
    <$> [ ["cats"; "a.png"]; ["cats"; "corrupt.png"]; ["cats"; "b.png"];
          ["dogs"; "crash.png"]; ["dogs"; "c.png"] ].

(** Three items dispatched to two nodes that take turns. *)
Definition items3 : list item := take 3 chunk.
Definition turns : list nat := [0; 1; 0; 1; 0; 1; 0; 1].
Definition joined : world * result (option float) :=
  Distributed.dispatch_and_join (env := ticking_env) items3 2 turns (world_of ∅).

(** The same dispatch when node 2 runs to its end before node 1 starts. *)
Definition node2_first : list nat := [1; 1; 1; 0; 0; 0; 0].
Definition joined' : world * result (option float) :=
  Distributed.dispatch_and_join (env := ticking_env) items3 2 node2_first
    (world_of ∅).

(** The report printed after that join. *)
Definition reported : world * result unit :=
  Distributed.report (float_of_Z 1) (float_of_Z 5) joined'.1.

(** The sweep of the parallel script over two pool sizes, and over a list
    with a zero in it. *)
Definition swept : world * result unit :=
  Parallel.main (env := ticking_env) INPUT_DIR OUTPUT_DIR [1; 2]
    (world_of fs_data_set).
Definition swept_zero : world * result unit :=
  Parallel.main (env := ticking_env) INPUT_DIR OUTPUT_DIR [1; 0; 2]
    (world_of fs_data_set).

(** A whole run of the distributed script: node 2 starts and works first. *)
Definition node2_starts : list nat := [1; 1; 1; 1; 0; 0; 0; 0; 0; 1].
Definition ran : world * result (option unit) :=
  Distributed.main (env := ticking_env) INPUT_DIR OUTPUT_DIR 2 node2_starts
    (world_of fs_data_set).

(** Three items dispatched to five nodes, each node run to its end in
    turn. *)
Definition one_by_one : list nat := [0; 0; 0; 1; 1; 1; 2; 2; 2; 3; 3; 4; 4].
Definition joined5 : world * result (option float) :=
  Distributed.dispatch_and_join (env := ticking_env) items3 5 one_by_one
    (world_of ∅).

(** The same dispatch to two nodes, cut off after node 1 has started. *)
Definition cut_short : list nat := [0].
Definition run_on : list nat := seq 0 2 ≫= replicate (length items3 + 2).

(** A data set with class folders only, and nothing OpenCV raises on. *)
Definition fs_class_folders : gmap path ftype :=
  list_to_map [ ([], Dir ["content"; "work"]);
                (["content"], Dir ["data_set"]);
                (["work"], Dir []);
                (INPUT_DIR, Dir ["cats"; "dogs"]);
                (INPUT_DIR ++ ["cats"], Dir ["a.png"; "corrupt.png"]);
                (INPUT_DIR ++ ["cats"; "a.png"], File);
                (INPUT_DIR ++ ["cats"; "corrupt.png"], File);
                (INPUT_DIR ++ ["dogs"], Dir ["c.png"]);
                (INPUT_DIR ++ ["dogs"; "c.png"], File) ].

(** The sequential script on that data set, and on the one with the stray
    file. *)
Definition sequential_run : world * result float :=
  Sequential.main (env := ticking_env) INPUT_DIR OUTPUT_DIR
    (world_of fs_class_folders).
Definition sequential_stopped : world * result float :=
  Sequential.main (env := ticking_env) INPUT_DIR OUTPUT_DIR
    (world_of fs_data_set).

End Fixtures.

(** * Properties *)

(** ** Properties of the partition step *)

Section split_facts.
Context {A : Type}.
Implicit Types (ary : list A) (sizes : list nat).
Import Numpy.

Lemma cumsum_from_length sizes acc :
    length (cumsum_from acc sizes) = length sizes.
Proof. revert acc; induction sizes as [|x r IH]; intros acc; simpl; auto. Qed.

Lemma cumsum_from_lookup sizes acc i :
    i < length sizes →
    cumsum_from acc sizes !! i = Some (acc + sum_list (take (S i) sizes)).
Proof.
    revert acc i; induction sizes as [|x r IH]; intros acc i Hi; simpl in *.
    - lia.
    - destruct i as [|i]; simpl.
      + f_equal; lia.
      + rewrite IH by lia. simpl. f_equal; lia.
Qed.

  (** The division points are the partial sums of the chunk sizes. *)
Lemma div_points_lookup sizes i :
    i ≤ length sizes →
    cumsum (0 :: sizes) !!! i = sum_list (take i sizes).
Proof.
    intros Hi. unfold cumsum. simpl.
    destruct i as [|i]; simpl; [done|].
    apply list_lookup_total_correct.
    rewrite cumsum_from_lookup by lia. done.
Qed.

Lemma take_plus_drop ary a b :
    take (a + b) ary = take a ary ++ take b (drop a ary).
Proof.
    revert ary; induction a as [|a IH]; intros [|x ary]; simpl; auto.
    - by rewrite take_nil.
    - by rewrite IH.
Qed.

Lemma sum_take_le sizes i : sum_list (take i sizes) ≤ sum_list (take (S i) sizes).
Proof.
    revert i; induction sizes as [|x r IH]; intros [|i]; simpl; try lia.
    specialize (IH i). simpl in IH. lia.
Qed.

Lemma sum_take_S sizes i n :
    sizes !! i = Some n →
    sum_list (take (S i) sizes) = sum_list (take i sizes) + n.
Proof.
    revert i; induction sizes as [|x r IH]; intros [|i] Hn; simplify_eq/=.
    - lia.
    - rewrite (IH i Hn). lia.
Qed.

  (** Slicing at consecutive partial sums lays the pieces end to end. *)
Lemma concat_slices ary sizes k :
    k ≤ length sizes →
    concat ((λ i, py_slice ary (sum_list (take i sizes))
                               (sum_list (take (S i) sizes))) <$> seq 0 k)
    = take (sum_list (take k sizes)) ary.
Proof.
    induction k as [|k IH]; intros Hk.
    - by rewrite take_0.
    - rewrite seq_S, fmap_app, concat_app, IH by lia. simpl.
      rewrite app_nil_r. unfold py_slice.
      rewrite <- take_plus_drop. f_equal.
      pose proof (sum_take_le sizes k). lia.
Qed.

Lemma section_sizes_tail_length Ntotal N :
    0 < N →
    length (replicate (Ntotal mod N) (Ntotal / N + 1)
            ++ replicate (N - Ntotal mod N) (Ntotal / N)) = N.
Proof.
    intros HN. rewrite length_app, !length_replicate.
    pose proof (Nat.mod_upper_bound Ntotal N). lia.
Qed.

Lemma section_sizes_tail_sum Ntotal N :
    0 < N →
    sum_list (replicate (Ntotal mod N) (Ntotal / N + 1)
              ++ replicate (N - Ntotal mod N) (Ntotal / N)) = Ntotal.
Proof.
    intros HN. rewrite sum_list_with_app, !sum_list_replicate.
    pose proof (Nat.mod_upper_bound Ntotal N ltac:(lia)) as Hlt.
    pose proof (Nat.div_mod Ntotal N ltac:(lia)) as Hdm.
    nia.
Qed.

Lemma section_sizes_tail_lookup Ntotal N i :
    i < N →
    (replicate (Ntotal mod N) (Ntotal / N + 1)
       ++ replicate (N - Ntotal mod N) (Ntotal / N)) !! i
    = Some (Ntotal / N + (if decide (i < Ntotal mod N) then 1 else 0)).
Proof.
    intros Hi. case_decide as Hlt.
    - rewrite lookup_app_l by (rewrite length_replicate; lia).
      by rewrite lookup_replicate_2.
    - rewrite lookup_app_r by (rewrite length_replicate; lia).
      rewrite length_replicate.
      pose proof (Nat.mod_upper_bound Ntotal N ltac:(lia)).
      rewrite lookup_replicate_2 by lia. f_equal; lia.
Qed.
End split_facts.

Section partition.
Context {A : Type}.
Import Numpy.

Lemma array_split_unfold (ary : list A) N :
  0 < N →
  array_split ary N =
  Ok ((λ i, py_slice ary
              (sum_list (take i (tl (section_sizes (length ary) N))))
              (sum_list (take (S i) (tl (section_sizes (length ary) N)))))
        <$> seq 0 N).
Proof.
  intros HN. unfold array_split. case_decide; [lia|]. f_equal.
  apply list_fmap_ext. intros k i Hi.
  apply lookup_seq in Hi as [-> Hi]. simpl.
  pose proof (section_sizes_tail_length (length ary) N HN) as Hlen.
  unfold section_sizes. simpl.
  rewrite !div_points_lookup by (rewrite Hlen; lia).
  by replace (k + 1) with (S k) by lia.
Qed.

Lemma sum_length_concat (ls : list (list A)) :
  sum_list (length <$> ls) = length (concat ls).
Proof.
  induction ls as [|l ls IH]; simpl; [done|]. rewrite length_app, <- IH. done.
Qed.

Lemma py_slice_length (ary : list A) sizes i n :
  sizes !! i = Some n →
  sum_list sizes ≤ length ary →
  length (py_slice ary (sum_list (take i sizes)) (sum_list (take (S i) sizes))) = n.
Proof.
  intros Hn Hsum. unfold py_slice.
  rewrite (sum_take_S _ _ _ Hn), length_take, length_drop.
  assert (sum_list (take (S i) sizes) ≤ sum_list sizes) as Hle.
  { rewrite <- (take_drop (S i) sizes) at 2. rewrite sum_list_with_app. lia. }
  rewrite (sum_take_S _ _ _ Hn) in Hle. lia.
Qed.

Lemma array_split_spec (items : list A) (N : nat) :
  0 < N →
  ∃ chunks,
    array_split items N = Ok chunks
    ∧ length chunks = N
    ∧ (∀ i, i < N →
         length <$> chunks !! i
         = Some (length items / N
                 + (if decide (i < length items mod N) then 1 else 0)))
    ∧ sum_list (length <$> chunks) = length items
    ∧ concat chunks = items.
Proof.
  intros HN. eexists. split; [by apply array_split_unfold|].
  set (L := length items).
  pose proof (section_sizes_tail_length L N HN) as Hlen.
  pose proof (section_sizes_tail_sum L N HN) as Hsum.
  assert (tl (section_sizes L N)
          = replicate (L mod N) (L / N + 1) ++ replicate (N - L mod N) (L / N))
    as -> by done.
  set (sizes := replicate (L mod N) (L / N + 1) ++ replicate (N - L mod N) (L / N))
    in *.
  assert (Hconcat :
    concat ((λ i, py_slice items (sum_list (take i sizes))
                                 (sum_list (take (S i) sizes))) <$> seq 0 N)
    = items).
  { rewrite concat_slices by lia.
    rewrite <- Hlen, firstn_all, Hsum. apply firstn_all. }
  split_and!.
  - by rewrite length_fmap, length_seq.
  - intros i Hi. rewrite list_lookup_fmap, lookup_seq_lt by done. simpl.
    f_equal. apply py_slice_length; [|unfold L in *; lia].
    by apply section_sizes_tail_lookup.
  - by rewrite sum_length_concat, Hconcat.
  - done.
Qed.

(** C1: for every item list of length L and every worker count N > 0,
    [array_split] returns exactly N chunks; chunk [i] has L/N + 1 items when
    [i < L mod N] and L/N items otherwise; the lengths sum to L; and the
    chunks, concatenated in worker-index order, are the original list. *)
Theorem array_split_balanced_partition (items : list A) (N : nat) :
  0 < N →
  ∃ chunks,
    array_split items N = Ok chunks
    ∧ length chunks = N
    ∧ (∀ i, i < N →
         length <$> chunks !! i
         = Some (length items / N
                 + (if decide (i < length items mod N) then 1 else 0)))
    ∧ sum_list (length <$> chunks) = length items
    ∧ concat chunks = items.
Proof. apply array_split_spec. Qed.

End partition.

(** Ten items over three workers. *)
Lemma array_split_balanced_partition_witness :
  0 < 3 ∧
  ∃ chunks,
    Numpy.array_split (seq 0 10) 3 = Ok chunks
    ∧ length chunks = 3
    ∧ (∀ i, i < 3 →
         length <$> chunks !! i
         = Some (length (seq 0 10) / 3
                 + (if decide (i < length (seq 0 10) mod 3) then 1 else 0)))
    ∧ sum_list (length <$> chunks) = length (seq 0 10)
    ∧ concat chunks = seq 0 10.
Proof.
  split; [lia|]. apply (array_split_balanced_partition (seq 0 10) 3). lia.
Defined.

(** The scenario of the specification: ten items over three workers. *)
Example array_split_10_3 :
  Numpy.array_split (seq 0 10) 3 = Ok [[0; 1; 2; 3]; [4; 5; 6]; [7; 8; 9]].
Proof. reflexivity. Qed.

(** ** The monad *)

Lemma bind_Ok {S A B} (m : M S A) (k : A → M S B) w w' a :
  m w = (w', Ok a) → bind m k w = k a w'.
Proof. intros H. unfold bind. by rewrite H. Qed.

Lemma bind_Raise {S A B} (m : M S A) (k : A → M S B) w w' e :
  m w = (w', Raise e) → bind m k w = (w', Raise e).
Proof. intros H. unfold bind. by rewrite H. Qed.

Lemma bind_Ok_inv {S A B} (m : M S A) (k : A → M S B) w w' b :
  bind m k w = (w', Ok b) → ∃ w1 a, m w = (w1, Ok a) ∧ k a w1 = (w', Ok b).
Proof.
  unfold bind. destruct (m w) as [w1 [a|e]]; intros H; [eauto|done].
Qed.

Lemma bind_inv {S A B} (m : M S A) (k : A → M S B) (w w' : S) (r : result B) :
  bind m k w = (w', r) →
  (∃ e, m w = (w', Raise e) ∧ r = Raise e)
  ∨ (∃ w1 a, m w = (w1, Ok a) ∧ k a w1 = (w', r)).
Proof.
  unfold bind. destruct (m w) as [w1 [a|e]]; intros H.
  - right. eauto.
  - left. injection H as <- <-. eauto.
Qed.

Lemma print_spec l w :
  print l w = (set_stdout (stdout w ++ [l]) w, Ok tt).
Proof. done. Qed.

(** ** The worker *)

Section worker.
Context `{env : Env}.
Import Distributed.

Lemma process_single_image_total input_path output_path w :
  ∃ w', process_single_image input_path output_path w = (w', Ok tt)
        ∧ transform_effect (input_path, output_path) w w'.
Proof.
  unfold process_single_image, bind, try_except, note_call, cv2_imread,
    cv2_resize, cv2_putText, cv2_imwrite, print, ret.
  set (w0 := set_calls _ w).
  destruct (cv2_imread_outcome w0 input_path) as [[img|]|e]; simpl.
  2,3: eexists; split; [done|]; constructor; simpl; eauto.
  destruct (cv2_resize_outcome w0 img IMG_SIZE) as [img'|e]; simpl.
  2: eexists; split; [done|]; constructor; simpl; eauto.
  destruct (cv2_putText_outcome w0 img' _ _) as [[]|e]; simpl.
  2: eexists; split; [done|]; constructor; simpl; eauto.
  destruct (cv2_imwrite_outcome w0 output_path img') as [[|]|e]; simpl.
  all: eexists; split; [done|]; constructor; simpl; eauto.
Qed.

Lemma transform_loop_total (subset : list item) w :
  ∃ w', for_each subset (λ it, process_single_image it.1 it.2) w = (w', Ok tt)
        ∧ loop_effect subset w w'.
Proof.
  revert w; induction subset as [|[i o] subset IH]; intros w; simpl.
  - exists w. split; [done|].
    constructor; rewrite ?app_nil_r; try done; exists []; by rewrite app_nil_r.
  - destruct (process_single_image_total i o w) as (w1 & Hrun & H1).
    destruct (IH w1) as (w2 & Hloop & H2).
    exists w2. split; [by rewrite (bind_Ok _ _ _ _ _ Hrun)|].
    destruct H1 as [Hc1 Hw1 Hs1 Hf1 Ht1 Hr1].
    destruct H2 as [Hc2 (outs & Hout & Hsub) Hf2 Ht2 Hr2 (ls & Hls & Herr)].
    simpl in *.
    constructor; try congruence.
    + rewrite Hc2, Hc1, <- app_assoc. done.
    + destruct Hw1 as [Hw|Hw]; rewrite Hout, Hw.
      * exists outs. split; [done|]. by apply sublist_cons.
      * exists (o :: outs). split; [by rewrite <- app_assoc|].
        by apply sublist_skip.
    + destruct Hs1 as [Hs|[e Hs]]; rewrite Hls, Hs.
      * by exists ls.
      * exists (PError i e :: ls). split; [by rewrite <- app_assoc|].
        constructor; eauto.
Qed.
End worker.

Section node_task.
Context `{env : Env}.
Import Distributed.

Lemma publish_spec node_id subset start_time w :
  ∃ w' t, publish node_id subset start_time w = (w', Ok tt)
    ∧ results_dict w'
      = dict_set node_id {| count := length subset; time := t |} (results_dict w)
    ∧ calls w' = calls w ∧ written w' = written w ∧ fs w' = fs w.
Proof.
  unfold publish, bind, time_time, print. simpl.
  eexists _, _. split_and!; reflexivity.
Qed.

(** C3: whatever Transform does on the items of a chunk (a decode failure,
    a raised error, or success), [node_task] returns normally, has invoked
    Transform on every item of the chunk in chunk order, and publishes a
    count equal to the chunk length; only the set of written output files can
    be smaller than the chunk. *)
Theorem node_task_survives_transform_failures (node_id : nat) (subset : list item) w :
  ∃ w' t,
    node_task node_id subset w = (w', Ok tt)
    ∧ calls w' = calls w ++ subset
    ∧ results_dict w'
      = dict_set node_id {| count := length subset; time := t |} (results_dict w)
    ∧ ∃ outs, written w' = written w ++ outs ∧ outs `sublist_of` subset.*2.
Proof.
  unfold node_task.
  set (w1 := set_stdout (stdout w ++ [PNodeStart node_id]) w).
  set (w2 := set_ticks (S (ticks w1)) w1).
  destruct (transform_loop_total subset w2) as (w3 & Hloop & [Hc Hw _ _ Hr _]).
  destruct (publish_spec node_id subset (clock (ticks w1)) w3)
    as (w4 & t & Hpub & Hr4 & Hc4 & Hw4 & _).
  exists w4, t. split; [|split_and!].
  - rewrite (bind_Ok _ _ w w1 tt) by done.
    rewrite (bind_Ok _ _ w1 w2 (clock (ticks w1))) by done.
    rewrite (bind_Ok _ _ _ _ _ Hloop). done.
  - by rewrite Hc4, Hc.
  - by rewrite Hr4, Hr.
  - by rewrite Hw4.
Qed.
End node_task.

(** A chunk whose second item cannot be decoded and whose third makes OpenCV
    raise: all four items are visited, the count is 4, two files are
    written. *)
Example node_task_on_faulty_chunk :
  let w := (Distributed.node_task (env := Fixtures.ticking_env) 1 Fixtures.chunk
              (Fixtures.world_of ∅)).1 in
  calls w = Fixtures.chunk
  ∧ count <$> dict_get 1 (results_dict w) = Some 4
  ∧ written w = [["out"; "a.png"]; ["out"; "b.png"]].
Proof. vm_compute. done. Qed.

(** ** The result store *)

Section dict.
Context {V : Type}.
Implicit Types (d : list (nat * V)) (k : nat) (v : V).

Lemma dict_get_set d k k' v :
  dict_get k' (dict_set k v d) = if decide (k = k') then Some v else dict_get k' d.
Proof.
  induction d as [|[k0 v0] d IH]; simpl.
  - repeat case_decide; congruence.
  - destruct (decide (k0 = k)) as [->|Hne]; simpl;
      repeat case_decide; simplify_eq; try done.
Qed.

Lemma dict_get_is_Some d k : is_Some (dict_get k d) ↔ k ∈ d.*1.
Proof.
  induction d as [|[k0 v0] d IH]; simpl.
  - split; [by intros [? ?]|by intros ?%elem_of_nil].
  - rewrite elem_of_cons. case_decide; subst.
    + split; eauto.
    + rewrite IH. split; [by right|]. intros [?|?]; [congruence|done].
Qed.

Lemma dict_set_keys d k v k' :
  k' ∈ (dict_set k v d).*1 ↔ k' = k ∨ k' ∈ d.*1.
Proof.
  rewrite <- !dict_get_is_Some, dict_get_set.
  case_decide; subst; [split; eauto|].
  split; [eauto|]. intros [?|?]; [congruence|done].
Qed.

Lemma dict_set_NoDup d k v : NoDup d.*1 → NoDup (dict_set k v d).*1.
Proof.
  induction d as [|[k0 v0] d IH]; simpl; intros Hnd.
  - apply NoDup_singleton.
  - apply NoDup_cons in Hnd as [Hnotin Hnd].
    case_decide; subst; simpl; apply NoDup_cons; split; auto.
    rewrite dict_set_keys. intros [?|?]; [congruence|done].
Qed.

(** With distinct keys, the values of the store are the values found under
    its keys. *)
Lemma dict_values_by_key d (f : V → nat) :
  NoDup d.*1 →
  sum_list_with (λ kv, f kv.2) d
  = sum_list_with (λ k, from_option f 0 (dict_get k d)) d.*1.
Proof.
  induction d as [|[k0 v0] d IH]; simpl; intros Hnd; [done|].
  apply NoDup_cons in Hnd as [Hnotin Hnd].
  rewrite decide_True by done. simpl. f_equal.
  rewrite IH by done. clear IH.
  assert (∀ l, (∀ k, k ∈ l → k ≠ k0) →
    sum_list_with (λ k, from_option f 0 (dict_get k d)) l
    = sum_list_with (λ k, from_option f 0
                            (if decide (k0 = k) then Some v0 else dict_get k d)) l)
    as Haux.
  { induction l as [|k l IHl]; simpl; intros Hl; [done|].
    rewrite decide_False by (intros ->; by eapply Hl; [left|]).
    f_equal. apply IHl. intros k' Hk'. apply Hl. by right. }
  apply Haux. intros k Hk ->. done.
Qed.
End dict.

(** ** Node processes under an arbitrary interleaving *)

Section scheduling.
Context `{env : Env}.
Import Distributed.

(** A quantum of a live process never raises; it publishes exactly when it
    moves to [Finished], and leaves the store alone otherwise. *)
Lemma node_step_spec p w :
  is_alive p = true →
  ∃ w' pc',
    node_step p w = (w', Ok pc')
    ∧ ((pc' = Finished
        ∧ ∃ t, results_dict w'
               = dict_set (node_id p)
                   {| count := length (image_subset p); time := t |}
                   (results_dict w))
       ∨ ((∃ todo t0, pc' = Looping todo t0)
          ∧ results_dict w' = results_dict w)).
Proof.
  unfold is_alive, node_step. destruct (at_pc p) as [|[|it todo] t0| |e]; try done;
    intros _.
  - eexists _, _. split; [reflexivity|]. right. split; [eauto|done].
  - destruct (publish_spec (node_id p) (image_subset p) t0 w)
      as (w' & t & Hpub & Hr & _).
    exists w', Finished. split; [by rewrite (bind_Ok _ _ _ _ _ Hpub)|].
    left. eauto.
  - destruct (process_single_image_total it.1 it.2 w) as (w' & Hrun & Heff).
    exists w', (Looping todo t0). split; [by rewrite (bind_Ok _ _ _ _ _ Hrun)|].
    right. split; [eauto|]. by destruct Heff.
Qed.

Lemma schedule_one_inv chunks i ps w w' ps' :
  store_inv chunks w ps →
  schedule_one i ps w = (w', ps') →
  store_inv chunks w' ps'.
Proof.
  intros Hinv. unfold schedule_one.
  destruct (ps !! i) as [p|] eqn:Hp; [|by intros [= <- <-]].
  destruct (is_alive p) eqn:Halive; [|by intros [= <- <-]].
  destruct (node_step_spec p w Halive) as (w1 & pc' & -> & Hcase).
  intros [= <- <-].
  destruct Hinv as [Hlen Hstatic Hnd Hpub Horig].
  pose proof (lookup_lt_Some _ _ _ Hp) as Hi.
  destruct (Hstatic i p Hp) as (Hid & Hchunk & Hnocrash).
  assert (Hnotfin : has_finished p = false).
  { unfold is_alive, has_finished in *. by destruct (at_pc p). }
  destruct Hcase as [[-> (t & Hr)]|[(todo & t0 & ->) Hr]].
  - constructor; rewrite ?Hr.
    + by rewrite length_insert.
    + intros j q Hq. destruct (decide (i = j)) as [<-|Hne].
      * rewrite list_lookup_insert_eq in Hq by done. by simplify_eq/=.
      * rewrite list_lookup_insert_ne in Hq by done. eauto.
    + by apply dict_set_NoDup.
    + intros j q Hq Hfin. rewrite dict_get_set. case_decide; [eauto|].
      destruct (decide (i = j)) as [<-|Hne].
      * rewrite list_lookup_insert_eq in Hq by done. by simplify_eq/=.
      * rewrite list_lookup_insert_ne in Hq by done. eauto.
    + intros k r. rewrite dict_get_set. case_decide as Hk.
      * intros [= <-]. exists i. eexists. rewrite list_lookup_insert_eq by done.
        split; [done|]. simpl. by rewrite <- Hk.
      * intros Hget. destruct (Horig k r Hget) as (j & q & Hq & Hfin & ? & ?).
        exists j, q. split_and!; try done.
        rewrite list_lookup_insert_ne; [done|]. intros ->. congruence.
  - constructor; rewrite ?Hr.
    + by rewrite length_insert.
    + intros j q Hq. destruct (decide (i = j)) as [<-|Hne].
      * rewrite list_lookup_insert_eq in Hq by done. by simplify_eq/=.
      * rewrite list_lookup_insert_ne in Hq by done. eauto.
    + done.
    + intros j q Hq Hfin. destruct (decide (i = j)) as [<-|Hne].
      * rewrite list_lookup_insert_eq in Hq by done. by simplify_eq/=.
      * rewrite list_lookup_insert_ne in Hq by done. eauto.
    + intros k r Hget. destruct (Horig k r Hget) as (j & q & Hq & Hfin & ? & ?).
      exists j, q. split_and!; try done.
      rewrite list_lookup_insert_ne; [done|]. intros ->. congruence.
Qed.

Lemma run_schedule_inv chunks schedule ps w w' ps' :
  store_inv chunks w ps →
  run_schedule schedule ps w = (w', ps') →
  store_inv chunks w' ps'.
Proof.
  revert ps w; induction schedule as [|i rest IH]; intros ps w Hinv; simpl.
  - by intros [= <- <-].
  - destruct (schedule_one i ps w) as [w1 ps1] eqn:Hone.
    apply IH. by eapply schedule_one_inv.
Qed.

(** The processes created by the dispatch loop. *)
Lemma spawn_loop_spec chunks n a acc w :
  a + n ≤ length chunks →
  ∃ ps, spawn_loop (seq a n) chunks acc w = (w, Ok (acc ++ ps))
        ∧ length ps = n
        ∧ ∀ j p, ps !! j = Some p →
            node_id p = a + j + 1 ∧ chunks !! (a + j) = Some (image_subset p)
            ∧ at_pc p = Spawned.
Proof.
  revert a acc; induction n as [|n IH]; intros a acc Hle; simpl.
  - exists []. rewrite app_nil_r. split_and!; [done..|]. intros j p Hp. by rewrite lookup_nil in Hp.
  - destruct (lookup_lt_is_Some_2 chunks a ltac:(lia)) as [c Hc].
    unfold py_index. rewrite Hc.
    destruct (IH (S a) (acc ++ [{| node_id := a + 1; image_subset := c;
                                   at_pc := Spawned |}]) ltac:(lia))
      as (ps & Hrun & Hlen & Hps).
    eexists (_ :: ps). split_and!.
    + rewrite (bind_Ok _ _ w w c) by done. rewrite Hrun, <- app_assoc. done.
    + simpl. by rewrite Hlen.
    + intros [|j] p; simpl.
      * intros [= <-]. simpl. rewrite Nat.add_0_r. done.
      * intros Hp. destruct (Hps j p Hp) as (? & ? & ?).
        replace (a + S j) with (S a + j) by lia. done.
Qed.
End scheduling.

(** ** Dispatch, join and report *)

Section coordinator.
Context `{env : Env}.
Import Distributed.

Lemma for_each_print {A} (f : A → line) (l : list A) w :
  for_each l (λ x, print (f x)) w = (set_stdout (stdout w ++ (f <$> l)) w, Ok tt).
Proof.
  revert w; induction l as [|x l IH]; intros w; simpl.
  - rewrite app_nil_r. by destruct w.
  - rewrite (bind_Ok _ _ _ _ _ (print_spec (f x) w)), IH. simpl.
    by rewrite <- app_assoc.
Qed.

Lemma all_joined_finished chunks w ps i p :
  store_inv chunks w ps → all_joined ps = true → ps !! i = Some p →
  has_finished p = true.
Proof.
  intros Hinv Hall Hp. destruct (si_static _ _ _ Hinv i p Hp) as (_ & _ & Hnc).
  unfold all_joined in Hall. rewrite forallb_forall in Hall.
  specialize (Hall p). rewrite <- list_elem_of_In in Hall.
  specialize (Hall (list_elem_of_lookup_2 _ _ _ Hp)).
  unfold is_alive, has_finished in *. destruct (at_pc p); try done.
  by destruct (Hnc e).
Qed.

(** After the join: the store is as the invariant says, with every process
    finished. *)
Lemma dispatch_and_join_inv items N schedule w w' t :
  dispatch_and_join items N schedule w = (w', Ok (Some t)) →
  ∃ chunks ps,
    Numpy.array_split items N = Ok chunks
    ∧ store_inv chunks w' ps ∧ all_joined ps = true.
Proof.
  unfold dispatch_and_join. intros H.
  apply bind_Ok_inv in H as (w0 & chunks & Hsplit & H).
  unfold lift in Hsplit. injection Hsplit as <- Hsplit.
  apply bind_Ok_inv in H as (w1 & [] & Hw1 & H). injection Hw1 as <-.
  apply bind_Ok_inv in H as (w2 & t0 & Hw2 & H).
  unfold time_time in Hw2. injection Hw2 as <- <-.
  assert (N = length chunks) as HN.
  { destruct (decide (0 < N)) as [HN|HN].
    - rewrite (array_split_unfold _ _ HN) in Hsplit. injection Hsplit as <-.
      by rewrite length_fmap, length_seq.
    - unfold Numpy.array_split in Hsplit. by rewrite decide_True in Hsplit by lia. }
  apply bind_Ok_inv in H as (w3 & ps0 & Hspawn & H).
  match type of Hspawn with
  | spawn_loop _ _ _ ?w0 = _ =>
      destruct (spawn_loop_spec chunks N 0 [] w0 ltac:(lia))
        as (ps0' & Hspawn' & Hlen0 & Hps0)
  end.
  rewrite Hspawn' in Hspawn. injection Hspawn as <- <-.
  apply bind_Ok_inv in H as (w4 & ps & Hrun & H).
  destruct (run_schedule schedule _ _) as [w4' ps'] eqn:Hsched.
  injection Hrun as <- <-.
  destruct (all_joined ps') eqn:Hall; [|done].
  apply bind_Ok_inv in H as (w5 & t1 & Hw5 & H).
  unfold time_time in Hw5. injection Hw5 as <- <-.
  injection H as <- _.
  assert (store_inv chunks w4' ps') as Hinv.
  { eapply run_schedule_inv; [|exact Hsched]. constructor; simpl.
    - lia.
    - intros i p Hp. destruct (Hps0 i p Hp) as (? & ? & Hpc).
      split_and!; [done..|]. intros e. by rewrite Hpc.
    - apply NoDup_nil_2.
    - intros i p Hp Hfin. destruct (Hps0 i p Hp) as (_ & _ & Hpc).
      unfold has_finished in Hfin. by rewrite Hpc in Hfin.
    - done. }
  exists chunks, ps'. split_and!; [done| |done].
  destruct Hinv. by constructor.
Qed.

(** The store after the join, spelled out. *)
Lemma results_after_join items N schedule w w' t :
  dispatch_and_join items N schedule w = (w', Ok (Some t)) →
  ∃ chunks,
    Numpy.array_split items N = Ok chunks
    ∧ (results_dict w').*1 ≡ₚ seq 1 N
    ∧ (∀ i c, chunks !! i = Some c →
         ∃ r, dict_get (i + 1) (results_dict w') = Some r ∧ count r = length c)
    ∧ sum_list_with (λ kv, count kv.2) (results_dict w') = length items.
Proof.
  intros H. destruct (dispatch_and_join_inv _ _ _ _ _ _ H)
    as (chunks & ps & Hsplit & Hinv & Hall).
  assert (0 < N) as HN.
  { destruct (decide (0 < N)); [done|]. unfold Numpy.array_split in Hsplit.
    by rewrite decide_True in Hsplit by lia. }
  destruct (array_split_spec items N HN) as (chunks' & Hsplit' & Hlen & _ & Hsum & _).
  rewrite Hsplit in Hsplit'. injection Hsplit' as <-.
  pose proof Hinv as [Hlenps Hstatic Hnd Hpub Horig].
  assert (Hget : ∀ i c, chunks !! i = Some c →
            ∃ r, dict_get (i + 1) (results_dict w') = Some r ∧ count r = length c).
  { intros i c Hc.
    destruct (lookup_lt_is_Some_2 ps i) as [p Hp].
    { rewrite Hlenps. by eapply lookup_lt_Some. }
    destruct (Hstatic i p Hp) as (Hid & Hchunk & _).
    pose proof (all_joined_finished _ _ _ _ _ Hinv Hall Hp) as Hfin.
    destruct (Hpub i p Hp Hfin) as [r Hr]. rewrite Hid in Hr.
    exists r. split; [done|].
    destruct (Horig _ _ Hr) as (j & q & Hq & _ & Hidq & Hcount).
    destruct (Hstatic j q Hq) as (Hidj & Hchunkj & _).
    assert (j = i) as -> by lia. congruence. }
  assert (Hperm : (results_dict w').*1 ≡ₚ seq 1 N).
  { apply NoDup_Permutation; [done|apply NoDup_seq|].
    intros k. rewrite <- dict_get_is_Some, elem_of_seq. split.
    - intros [r Hr]. destruct (Horig _ _ Hr) as (j & q & Hq & _ & Hidq & _).
      destruct (Hstatic j q Hq) as (Hidj & _ & _).
      apply lookup_lt_Some in Hq. lia.
    - intros Hk. destruct (lookup_lt_is_Some_2 chunks (k - 1)) as [c Hc]; [lia|].
      destruct (Hget _ _ Hc) as (r & Hr & _).
      replace (k - 1 + 1) with k in Hr by lia. eauto. }
  exists chunks. split_and!; [done..|].
  rewrite dict_values_by_key by done.
  rewrite Hperm, <- Hsum, <- Hlen. clear -Hget.
  assert (∀ n, n ≤ length chunks →
    sum_list_with (λ k, from_option count 0 (dict_get k (results_dict w')))
      (seq 1 n)
    = sum_list (length <$> take n chunks)) as Haux.
  { induction n as [|n IH]; intros Hn; [by rewrite take_0|].
    destruct (lookup_lt_is_Some_2 chunks n Hn) as [c Hc].
    rewrite seq_S, sum_list_with_app, IH by lia. simpl.
    rewrite (take_S_r _ _ _ Hc), fmap_app, sum_list_with_app. simpl.
    destruct (Hget _ _ Hc) as (r & Hr & Hcount).
    rewrite Nat.add_1_r in Hr. rewrite Hr. simpl. lia. }
  rewrite Haux by done. by rewrite firstn_all.
Qed.
End coordinator.

Section report.
Context `{env : Env}.
Import Distributed.

(** The lines of the per-node summary, in print order. *)
Lemma report_spec (sequential_time total_distributed_time : float) w :
  let rows := (λ kv : nat * node_result,
                 PNodeSummary kv.1 (count kv.2) (time kv.2))
                <$> py_sorted (results_dict w) in
  let head := [PBanner "Distributed Processing Summary"] ++ rows
              ++ [PTotalDistributed total_distributed_time] in
  ∃ w',
    same_outside_stdout w w'
    ∧ if float_is_zero total_distributed_time
      then report sequential_time total_distributed_time w
             = (w', Raise ZeroDivisionError)
           ∧ stdout w' = stdout w ++ head
      else report sequential_time total_distributed_time w = (w', Ok tt)
           ∧ stdout w' = stdout w ++ head
               ++ [PEfficiency (float_div sequential_time total_distributed_time)].
Proof.
  intros rows head. unfold report.
  rewrite (bind_Ok _ _ _ _ _ (print_spec _ w)).
  set (w1 := set_stdout _ w).
  rewrite (bind_Ok _ _ w1 w1 (results_dict w1)) by done.
  assert (∀ l, for_each l (λ '(node_id, result),
                  print (PNodeSummary node_id (count result) (time result)))
               = for_each l (λ kv : nat * node_result,
                  print (PNodeSummary kv.1 (count kv.2) (time kv.2)))) as ->.
  { induction l as [|[k r] l IH]; simpl; [done|]. by rewrite IH. }
  rewrite (bind_Ok _ _ _ _ _ (for_each_print _ _ w1)).
  set (w2 := set_stdout _ w1).
  rewrite (bind_Ok _ _ _ _ _ (print_spec _ w2)).
  set (w3 := set_stdout _ w2).
  unfold float_truediv, lift.
  destruct (float_is_zero total_distributed_time).
  - exists w3. split; [done|]. split; [done|]. simpl.
    by rewrite <- !app_assoc.
  - eexists. split; [|split; [reflexivity|]]; [done|]. simpl.
    by rewrite <- !app_assoc.
Qed.

Lemma sorted_keys_unique (d : list (nat * node_result)) N :
  d.*1 ≡ₚ seq 1 N → (py_sorted d).*1 = seq 1 N.
Proof.
  intros Hperm. unfold py_sorted.
  assert (Total item_le) by (intros a b; unfold item_le; lia).
  apply (Sorted_unique le).
  - eapply Sorted_fmap; [|by apply (Sorted_merge_sort item_le)]. done.
  - clear. generalize 1. induction N as [|N IH]; intros a; simpl; constructor.
    + apply IH.
    + destruct N; constructor; simpl. lia.
  - by rewrite merge_sort_Permutation.
Qed.

Lemma summary_ids_app l1 l2 :
  summary_ids (l1 ++ l2) = summary_ids l1 ++ summary_ids l2.
Proof. apply omap_app. Qed.

Lemma efficiencies_app l1 l2 :
  efficiencies (l1 ++ l2) = efficiencies l1 ++ efficiencies l2.
Proof. apply omap_app. Qed.

Lemma summary_ids_rows (l : list (nat * node_result)) :
  summary_ids ((λ kv : nat * node_result,
                  PNodeSummary kv.1 (count kv.2) (time kv.2)) <$> l) = l.*1.
Proof. induction l as [|[k r] l IH]; [done|]. cbn. f_equal. apply IH. Qed.
End report.

Section coordinator_results.
Context `{env : Env}.
Import Distributed.

(** C2 (amended): once every node process has been joined, the result store
    holds exactly one entry per node id 1..N (the node of chunk [i] has id
    [i + 1]); the entry under id [i + 1] has the length of chunk [i] as its
    count; and the counts sum to the number of discovered items. *)
Theorem result_store_after_join (items : list item) (N : nat) schedule w w' t :
  dispatch_and_join items N schedule w = (w', Ok (Some t)) →
  ∃ chunks,
    Numpy.array_split items N = Ok chunks
    ∧ (results_dict w').*1 ≡ₚ seq 1 N
    ∧ (∀ i, i < N →
         ∃ r c, dict_get (i + 1) (results_dict w') = Some r
                ∧ chunks !! i = Some c ∧ count r = length c)
    ∧ sum_list_with (λ kv, count kv.2) (results_dict w') = length items.
Proof.
  intros H. destruct (results_after_join _ _ _ _ _ _ H)
    as (chunks & Hsplit & Hperm & Hget & Hsum).
  exists chunks. split_and!; try done.
  intros i Hi.
  assert (length chunks = N) as Hlen.
  { destruct (decide (0 < N)) as [HN|HN].
    - rewrite (array_split_unfold _ _ HN) in Hsplit. injection Hsplit as <-.
      by rewrite length_fmap, length_seq.
    - lia. }
  destruct (lookup_lt_is_Some_2 chunks i) as [c Hc]; [lia|].
  destruct (Hget i c Hc) as (r & Hr & Hcount). eauto.
Qed.

(** The report on its own divides [sequential_time] by
    [total_distributed_time] once, as its last step.  When the divisor is
    zero the division raises [ZeroDivisionError] and no efficiency is
    printed; otherwise exactly one efficiency, the quotient, is printed. *)
Lemma report_divides_last (sequential_time total_distributed_time : float) w :
  ∃ w',
    if float_is_zero total_distributed_time
    then report sequential_time total_distributed_time w
           = (w', Raise ZeroDivisionError)
         ∧ efficiencies (printed w w') = []
    else report sequential_time total_distributed_time w = (w', Ok tt)
         ∧ efficiencies (printed w w')
           = [float_div sequential_time total_distributed_time].
Proof.
  destruct (report_spec sequential_time total_distributed_time w) as (w' & _ & H).
  exists w'. unfold printed.
  assert (∀ l : list (nat * node_result),
    efficiencies ((λ kv, PNodeSummary kv.1 (count kv.2) (time kv.2)) <$> l) = [])
    as Hrows.
  { induction l as [|[k r] l IH]; [done|]. cbn. apply IH. }
  destruct (float_is_zero total_distributed_time);
    destruct H as [-> ->]; (split; [done|]);
    rewrite drop_app_length, !efficiencies_app; by rewrite Hrows.
Qed.

(** C7: whatever interleaving of the node processes led to the join, the
    summary rows that [report] prints carry the node ids 1, 2, ..., N in
    increasing order. *)
Theorem summary_is_sorted_by_node_id (items : list item) (N : nat) schedule
    (sequential_time : float) w w' t w'' r :
  dispatch_and_join items N schedule w = (w', Ok (Some t)) →
  report sequential_time t w' = (w'', r) →
  summary_ids (printed w' w'') = seq 1 N.
Proof.
  intros Hjoin Hreport.
  destruct (results_after_join _ _ _ _ _ _ Hjoin) as (_ & _ & Hperm & _).
  destruct (report_spec sequential_time t w') as (w3 & _ & H).
  assert (∃ tail, stdout w'' = stdout w'
            ++ [PBanner "Distributed Processing Summary"]
            ++ ((λ kv : nat * node_result,
                   PNodeSummary kv.1 (count kv.2) (time kv.2))
                  <$> py_sorted (results_dict w'))
            ++ [PTotalDistributed t] ++ tail
          ∧ summary_ids tail = []) as (tail & Hout & Htail).
  { destruct (float_is_zero t); destruct H as [H Hstd];
      rewrite H in Hreport; injection Hreport as <- _; rewrite Hstd.
    - exists []. by rewrite app_nil_r.
    - eexists [_]. by rewrite <- !app_assoc. }
  unfold printed. rewrite Hout, drop_app_length, !summary_ids_app.
  rewrite summary_ids_rows, Htail. simpl. rewrite app_nil_r.
  by apply sorted_keys_unique.
Qed.
End coordinator_results.

(** ** Concrete runs of the coordinator *)

(** The store after a concrete join: three items, two nodes taking turns. *)
Lemma result_store_after_join_witness :
  Distributed.dispatch_and_join (env := Fixtures.ticking_env)
    Fixtures.items3 2 Fixtures.turns (Fixtures.world_of ∅)
  = (Fixtures.joined.1, Ok (Some (Fixtures.float_of_Z 5)))
  ∧ ∃ chunks,
      Numpy.array_split Fixtures.items3 2 = Ok chunks
      ∧ (results_dict Fixtures.joined.1).*1 ≡ₚ seq 1 2
      ∧ (∀ i, i < 2 →
           ∃ r c, dict_get (i + 1) (results_dict Fixtures.joined.1) = Some r
                  ∧ chunks !! i = Some c ∧ count r = length c)
      ∧ sum_list_with (λ kv, count kv.2) (results_dict Fixtures.joined.1)
        = length Fixtures.items3.
Proof.
  assert (Distributed.dispatch_and_join (env := Fixtures.ticking_env)
            Fixtures.items3 2 Fixtures.turns (Fixtures.world_of ∅)
          = (Fixtures.joined.1, Ok (Some (Fixtures.float_of_Z 5)))) as Hrun
    by (vm_compute; reflexivity).
  split; [exact Hrun|].
  exact (result_store_after_join (env := Fixtures.ticking_env)
           _ _ _ _ _ _ Hrun).
Defined.

(** C2 as stated fails: it numbers the workers 0..N-1, but no result
    is ever stored under id 0 (the ids are 1..N). *)
Lemma worker_ids_do_not_start_at_zero :
  ¬ (∀ (env : Env) (items : list item) N schedule w w' t,
       0 < N →
       Distributed.dispatch_and_join items N schedule w = (w', Ok (Some t)) →
       ∀ i, i < N → is_Some (dict_get i (results_dict w'))).
Proof.
  intros H.
  assert (Distributed.dispatch_and_join (env := Fixtures.ticking_env)
            Fixtures.items3 2 Fixtures.turns (Fixtures.world_of ∅)
          = (Fixtures.joined.1, Ok (Some (Fixtures.float_of_Z 5)))) as Hrun
    by (vm_compute; reflexivity).
  destruct (H Fixtures.ticking_env Fixtures.items3 2 Fixtures.turns
              (Fixtures.world_of ∅) Fixtures.joined.1 (Fixtures.float_of_Z 5)
              ltac:(lia) Hrun 0 ltac:(lia)) as [r Hr].
  vm_compute in Hr. discriminate.
Qed.

(** A concrete report: node 2 published first,
    the summary still lists node 1 first. *)
Lemma summary_is_sorted_by_node_id_witness :
  Distributed.dispatch_and_join (env := Fixtures.ticking_env)
    Fixtures.items3 2 Fixtures.node2_first (Fixtures.world_of ∅)
  = (Fixtures.joined'.1, Ok (Some (Fixtures.float_of_Z 5)))
  ∧ Distributed.report (Fixtures.float_of_Z 1) (Fixtures.float_of_Z 5)
      Fixtures.joined'.1
    = (Fixtures.reported.1, Fixtures.reported.2)
  ∧ (results_dict Fixtures.joined'.1).*1 = [2; 1]
  ∧ summary_ids (printed Fixtures.joined'.1 Fixtures.reported.1) = seq 1 2.
Proof.
  assert (Distributed.dispatch_and_join (env := Fixtures.ticking_env)
            Fixtures.items3 2 Fixtures.node2_first (Fixtures.world_of ∅)
          = (Fixtures.joined'.1, Ok (Some (Fixtures.float_of_Z 5)))) as Hrun
    by (vm_compute; reflexivity).
  assert (Distributed.report (Fixtures.float_of_Z 1) (Fixtures.float_of_Z 5)
            Fixtures.joined'.1
          = (Fixtures.reported.1, Fixtures.reported.2)) as Hout
    by (vm_compute; reflexivity).
  split; [exact Hrun|]. split; [exact Hout|].
  split; [vm_compute; reflexivity|].
  exact (summary_is_sorted_by_node_id (env := Fixtures.ticking_env)
           Fixtures.items3 2 Fixtures.node2_first (Fixtures.float_of_Z 1)
           (Fixtures.world_of ∅) Fixtures.joined'.1 (Fixtures.float_of_Z 5)
           Fixtures.reported.1 Fixtures.reported.2 Hrun Hout).
Defined.

(** ** Float division *)

(** A finite non-zero float divided by itself is exactly [1.0]. *)
Lemma float_div_self s m e :
  float_div (S754_finite s m e) (S754_finite s m e) = float_one.
Proof.
  unfold float_div, SFdiv, SFdiv_core_binary.
  rewrite !Z.sub_diag, xorb_nilpotent.
  change (fexp prec emax 0) with (-53)%Z.
  change (Z.min (-53) 0) with (-53)%Z.
  change (0 - -53)%Z with 53%Z. cbv iota beta.
  assert (Z.div_eucl (Z.shiftl (Z.pos m) 53) (Z.pos m)
          = (9007199254740992, 0)%Z) as ->.
  { rewrite Z.shiftl_mul_pow2 by done.
    transitivity ((Z.pos m * 2 ^ 53) `div` Z.pos m,
                  (Z.pos m * 2 ^ 53) `mod` Z.pos m)%Z.
    - unfold Z.div, Z.modulo. by destruct (Z.div_eucl _ _).
    - rewrite (Z.mul_comm (Z.pos m)), Z.div_mul, Z.mod_mul by done. done. }
  assert (new_location (Z.pos m) 0 = loc_Exact) as ->.
  { unfold new_location, new_location_even, new_location_odd.
    by destruct (Z.even _). }
  vm_compute. reflexivity.
Qed.

(** ** The thread-pool sweep *)

Lemma table_rows_app l1 l2 :
  table_rows (l1 ++ l2) = table_rows l1 ++ table_rows l2.
Proof. apply omap_app. Qed.

Lemma prints_no_row_refl w : prints_no_row w w.
Proof. exists []. by rewrite app_nil_r. Qed.

Lemma prints_no_row_trans w1 w2 w3 :
  prints_no_row w1 w2 → prints_no_row w2 w3 → prints_no_row w1 w3.
Proof.
  intros (l1 & H1 & Hr1) (l2 & H2 & Hr2). exists (l1 ++ l2).
  rewrite H2, H1, <- app_assoc, table_rows_app, Hr1, Hr2. done.
Qed.

Section sweep.
Context `{env : Env}.
Import Parallel.

Lemma process_image_total (paths : item) w :
  ∃ w', process_image paths w = (w', Ok tt)
        ∧ ticks w' = ticks w ∧ prints_no_row w w'.
Proof.
  destruct paths as [input_path output_path].
  unfold process_image, bind, try_except, note_call, cv2_imread,
    cv2_resize, cv2_getTextSize, cv2_putText, cv2_imwrite, print, ret.
  set (w0 := set_calls _ w).
  assert (prints_no_row w w0) as H0 by (exists []; simpl; by rewrite app_nil_r).
  assert (∀ l, table_rows [l] = [] →
            prints_no_row w (set_stdout (stdout w0 ++ [l]) w0)) as H1.
  { intros l Hl. by exists [l]. }
  destruct (cv2_imread_outcome w0 input_path) as [[img|]|e]; simpl.
  2,3: eexists; split; [done|]; split; [done|]; by apply H1.
  destruct (cv2_resize_outcome w0 img IMG_SIZE) as [img'|e]; simpl.
  2: eexists; split; [done|]; split; [done|]; by apply H1.
  destruct (cv2_getTextSize_outcome w0 _) as [sz|e]; simpl.
  2: eexists; split; [done|]; split; [done|]; by apply H1.
  destruct (cv2_putText_outcome w0 img' _ _) as [[]|e]; simpl.
  2: eexists; split; [done|]; split; [done|]; by apply H1.
  destruct (cv2_imwrite_outcome w0 output_path img') as [[|]|e]; simpl.
  all: eexists; split; [done|]; split; [done|]; first [by apply H1|done].
Qed.

Lemma executor_map_total num_workers (all_image_paths : list item) w :
  0 < num_workers →
  ∃ w', executor_map num_workers all_image_paths w = (w', Ok tt)
        ∧ ticks w' = ticks w ∧ prints_no_row w w'.
Proof.
  intros Hn. unfold executor_map. case_decide; [lia|]. clear.
  revert w; induction all_image_paths as [|it l IH]; intros w; simpl.
  - exists w. split_and!; [done..|apply prints_no_row_refl].
  - destruct (process_image_total it w) as (w1 & Hrun & Ht1 & Hp1).
    destruct (IH w1) as (w2 & Hloop & Ht2 & Hp2).
    exists w2. rewrite (bind_Ok _ _ _ _ _ Hrun).
    split_and!; [done|congruence|by eapply prints_no_row_trans].
Qed.

(** The sweep returns one [(workers, elapsed time)] pair per worker count,
    in sweep order. *)
Lemma sweep_spec worker_counts (all_image_paths : list item) results w :
  Forall (λ n, 0 < n) worker_counts →
  ∃ w', sweep worker_counts all_image_paths results w
        = (w', Ok (results
                   ++ imap (λ i n, (n, run_time (ticks w) i)) worker_counts))
        ∧ prints_no_row w w'.
Proof.
  intros Hpos. revert results w.
  induction Hpos as [|n rest Hn Hpos IH]; intros results w; simpl.
  - exists w. rewrite app_nil_r. split; [done|apply prints_no_row_refl].
  - rewrite (bind_Ok _ _ _ _ _ (print_spec _ w)).
    set (w1 := set_stdout _ w).
    rewrite (bind_Ok _ _ w1 (set_ticks (S (ticks w1)) w1) (clock (ticks w1)))
      by done.
    set (w2 := set_ticks _ w1).
    destruct (executor_map_total n all_image_paths w2 Hn)
      as (w3 & Hmap & Ht3 & Hp3).
    rewrite (bind_Ok _ _ _ _ _ Hmap).
    rewrite (bind_Ok _ _ w3 (set_ticks (S (ticks w3)) w3) (clock (ticks w3)))
      by done.
    set (w4 := set_ticks _ w3).
    rewrite (bind_Ok _ _ _ _ _ (print_spec _ w4)).
    set (w5 := set_stdout _ w4).
    destruct (IH (results ++ [(n, float_sub (clock (ticks w3)) (clock (ticks w1)))])
                w5) as (w6 & Hsweep & Hp6).
    exists w6. split.
    + rewrite Hsweep, <- app_assoc. do 3 f_equal. simpl. f_equal.
      * unfold run_time. rewrite Ht3. simpl. do 2 f_equal; f_equal; lia.
      * apply imap_ext. intros i k _. simpl. unfold run_time. rewrite Ht3. simpl.
        do 2 f_equal; f_equal; lia.
    + eapply prints_no_row_trans; [|exact Hp6].
      destruct Hp3 as (l3 & Hl3 & Hr3).
      exists ([PBanner "Testing"] ++ l3 ++ [PTimeTaken
               (float_sub (clock (ticks w3)) (clock (ticks w1)))]).
      simpl. rewrite Hl3. simpl. split; [by rewrite <- !app_assoc|].
      cbn. by rewrite table_rows_app, Hr3.
Qed.
End sweep.

Section speedup.
Context `{env : Env}.
Import Parallel.

Lemma table_rows_of_rows (baseline_time : float) (l : list (nat * float)) :
  table_rows ((λ res, PTableRow res.1 res.2 (float_div baseline_time res.2)) <$> l)
  = (λ res, (res.1, res.2, float_div baseline_time res.2)) <$> l.
Proof. induction l as [|res l IH]; [done|]. cbn. f_equal. apply IH. Qed.

(** The loop of the table prints one row per result until a time is zero. *)
Lemma table_loop_spec (baseline_time : float) (results : list (nat * float)) w :
  ∃ w' r,
    for_each results (λ res,
      let workers := res.1 in
      let time_taken := res.2 in
      let! speedup := lift (float_truediv baseline_time time_taken) in
      print (PTableRow workers time_taken speedup)) w = (w', r)
    ∧ stdout w'
      = stdout w
        ++ ((λ res, PTableRow res.1 res.2 (float_div baseline_time res.2))
              <$> until_zero_time results).
Proof.
  revert w; induction results as [|[n t] rest IH]; intros w; simpl.
  - eexists _, _. split; [done|]. by rewrite app_nil_r.
  - unfold bind at 1. unfold bind at 1. unfold lift, float_truediv.
    destruct (float_is_zero t); simpl.
    + eexists _, _. split; [done|]. by rewrite app_nil_r.
    + destruct (IH (set_stdout (stdout w ++ [PTableRow n t (float_div baseline_time t)]) w))
        as (w' & r & Hrun & Hout).
      exists w', r. split; [done|]. rewrite Hout. simpl. by rewrite <- app_assoc.
Qed.

Lemma speedup_table_spec (first : nat * float) (rest : list (nat * float)) w :
  ∃ w' r ls,
    speedup_table (first :: rest) w = (w', r)
    ∧ stdout w' = stdout w ++ ls
    ∧ table_rows ls
      = (λ res, (res.1, res.2, float_div first.2 res.2))
          <$> until_zero_time (first :: rest).
Proof.
  unfold speedup_table.
  rewrite (bind_Ok _ _ _ _ _ (print_spec _ w)). set (w1 := set_stdout _ w).
  rewrite (bind_Ok _ _ _ _ _ (print_spec _ w1)). set (w2 := set_stdout _ w1).
  rewrite (bind_Ok _ _ _ _ _ (print_spec _ w2)). set (w3 := set_stdout _ w2).
  rewrite (bind_Ok _ _ w3 w3 first) by done.
  destruct (table_loop_spec first.2 (first :: rest) w3) as (w' & r & Hrun & Hout).
  exists w', r. eexists. split; [exact Hrun|].
  rewrite Hout. simpl stdout. rewrite <- !app_assoc. split; [reflexivity|].
  rewrite !table_rows_app, table_rows_of_rows. done.
Qed.

(** C10: in the thread-pool variant the baseline of the speedup table is the
    elapsed time of the first swept configuration, the 1-worker pool run
    (no separate sequential pass is timed): every printed row carries that
    time divided by the row's own time, and the first row's speedup is
    exactly 1.0 whenever the first time is a non-zero finite float. *)
Theorem speedup_is_relative_to_first_pool_run (INPUT_DIR OUTPUT_DIR : path)
    w f1 (all_image_paths : list item) :
  get_all_image_paths INPUT_DIR OUTPUT_DIR (fs w) = (f1, Ok all_image_paths) →
  ∃ w' r,
    main INPUT_DIR OUTPUT_DIR WORKER_COUNTS w = (w', r)
    ∧ table_rows (printed w w')
      = (λ res, (res.1, res.2, float_div (run_time (ticks w) 0) res.2))
          <$> until_zero_time
                (imap (λ i n, (n, run_time (ticks w) i)) WORKER_COUNTS)
    ∧ ∀ s m e, run_time (ticks w) 0 = S754_finite s m e →
        head (table_rows (printed w w'))
        = Some (1, run_time (ticks w) 0, float_one).
Proof.
  intros Hdisc. unfold main.
  rewrite (bind_Ok _ _ _ _ _ (print_spec _ w)). set (w1 := set_stdout _ w).
  rewrite (bind_Ok _ _ w1 (set_fs f1 w1) all_image_paths)
    by (unfold lift_fs; simpl; by rewrite Hdisc).
  set (w2 := set_fs f1 w1).
  rewrite (bind_Ok _ _ _ _ _ (print_spec _ w2)). set (w3 := set_stdout _ w2).
  destruct (sweep_spec WORKER_COUNTS all_image_paths [] w3)
    as (w4 & Hsweep & (ls & Hls & Hrows)).
  { unfold WORKER_COUNTS. repeat constructor. }
  rewrite (bind_Ok _ _ _ _ _ Hsweep). simpl app.
  change (ticks w3) with (ticks w) in *.
  set (results := imap _ WORKER_COUNTS) in *.
  destruct (speedup_table_spec (1, run_time (ticks w) 0)
              (tl results) w4) as (w' & r & l5 & Hrun & Hl5 & Hout).
  change ((1, run_time (ticks w) 0) :: tl results) with results in *.
  exists w', r. split; [exact Hrun|].
  assert (table_rows (printed w w')
          = (λ res, (res.1, res.2, float_div (run_time (ticks w) 0) res.2))
              <$> until_zero_time results) as Htable.
  { unfold printed. rewrite Hl5, Hls. simpl stdout.
    rewrite <- !app_assoc, drop_app_length.
    rewrite !table_rows_app, Hrows, Hout. done. }
  split; [exact Htable|].
  intros s m e Hfin. rewrite Htable.
  change results with ((1, run_time (ticks w) 0) :: tl results).
  simpl. rewrite Hfin. simpl. by rewrite <- (float_div_self s m e).
Qed.
End speedup.

(** ** The file system under [os.mkdir] and [os.makedirs] *)

Lemma fs_le_refl f : fs_le f f.
Proof.
  intros p. destruct (f !! p) as [[|names]|]; try done.
  exists []. by rewrite app_nil_r.
Qed.

Lemma fs_le_trans f1 f2 f3 : fs_le f1 f2 → fs_le f2 f3 → fs_le f1 f3.
Proof.
  intros H12 H23 p. specialize (H12 p). specialize (H23 p).
  destruct (f1 !! p) as [[|names]|]; try done.
  - by rewrite H12 in H23.
  - destruct H12 as [m1 H12]. rewrite H12 in H23. destruct H23 as [m2 H23].
    exists (m1 ++ m2). by rewrite app_assoc.
Qed.

Lemma fs_le_is_Some f f' p : fs_le f f' → is_Some (f !! p) → is_Some (f' !! p).
Proof.
  intros Hle [x Hx]. specialize (Hle p). rewrite Hx in Hle.
  destruct x; [by rewrite Hle|]. destruct Hle as [? ->]. done.
Qed.

Lemma fs_le_File f f' p : fs_le f f' → f !! p = Some File → f' !! p = Some File.
Proof. intros Hle Hp. specialize (Hle p). by rewrite Hp in Hle. Qed.

Lemma fs_le_Dir f f' p names :
  fs_le f f' → f !! p = Some (Dir names) → ∃ more, f' !! p = Some (Dir (names ++ more)).
Proof. intros Hle Hp. specialize (Hle p). by rewrite Hp in Hle. Qed.

(** An entry that is the same at both ends of a growth was the same all
    along. *)
Lemma fs_le_sandwich f1 f2 f3 p :
  fs_le f1 f2 → fs_le f2 f3 → f3 !! p = f1 !! p → f2 !! p = f3 !! p.
Proof.
  intros H12 H23 H13. specialize (H12 p). specialize (H23 p).
  destruct (f1 !! p) as [[|names]|] eqn:H1.
  - by rewrite H12, H13.
  - destruct H12 as [m1 H12]. rewrite H12 in H23. destruct H23 as [m2 H23].
    rewrite H13 in H23. injection H23 as H23.
    rewrite <- app_assoc in H23.
    rewrite <- (app_nil_r names) in H23 at 1. apply app_inv_head in H23.
    symmetry in H23. apply app_eq_nil in H23 as [-> _].
    by rewrite H12, H13, app_nil_r.
  - destruct (f2 !! p) as [[|names]|]; [| |done].
    + rewrite H23 in H13. done.
    + destruct H23 as [? H23]. rewrite H23 in H13. done.
Qed.

Lemma path_join_ne head tail : head ≠ path_join head tail.
Proof.
  unfold path_join. intros H. apply (f_equal length) in H.
  rewrite length_app in H. simpl in H. lia.
Qed.

Lemma os_mkdir_spec head tail f f' r :
  os_mkdir head tail f = (f', r) →
  fs_le f f'
  ∧ (∀ q, q ≠ head → q ≠ path_join head tail → f' !! q = f !! q)
  ∧ (r = Ok tt → f' !! path_join head tail = Some (Dir []))
  ∧ (∀ e, r = Raise e → f' = f).
Proof.
  unfold os_mkdir.
  destruct (f !! path_join head tail) as [x|] eqn:Hleaf.
  { intros [= <- <-]. split_and!; [apply fs_le_refl|done..]. }
  destruct (f !! head) as [[|names]|] eqn:Hhead.
  1,3: intros [= <- <-]; split_and!; [apply fs_le_refl|done..].
  intros [= <- <-]. pose proof (path_join_ne head tail) as Hne.
  split_and!; [|intros q ? ?; by rewrite !lookup_insert_ne by done
               |intros _; by rewrite lookup_insert_eq|done].
  intros p. destruct (decide (p = path_join head tail)) as [->|Hp1].
  { by rewrite Hleaf. }
  destruct (decide (p = head)) as [->|Hp2].
  { rewrite Hhead. exists [tail].
    by rewrite lookup_insert_ne, lookup_insert_eq by done. }
  rewrite !lookup_insert_ne by done. apply fs_le_refl.
Qed.

Lemma makedirs_rev_cons tail rhead f :
  makedirs_rev (tail :: rhead) f
  = if bool_decide (is_Some (f !! reverse rhead))
    then os_mkdir (reverse rhead) tail f
    else match makedirs_rev rhead f with
         | (f1, Ok _) => os_mkdir (reverse rhead) tail f1
         | (f1, Raise FileExistsError) => os_mkdir (reverse rhead) tail f1
         | (f1, Raise e) => (f1, Raise e)
         end.
Proof.
  simpl. unfold bind at 1. unfold os_path_exists at 1.
  destruct (bool_decide _); simpl; [done|].
  unfold bind, try_except. destruct (makedirs_rev rhead f) as [f1 [[]|[]]]; done.
Qed.

Lemma makedirs_rev_spec rname f f' r :
  makedirs_rev rname f = (f', r) →
  fs_le f f'
  ∧ (∀ q, ¬ q `prefix_of` reverse rname → f' !! q = f !! q)
  ∧ (r = Ok tt → is_Some (f' !! reverse rname))
  ∧ (∀ e, r = Raise e → f' !! reverse rname = f !! reverse rname).
Proof.
  revert f f' r; induction rname as [|tail rhead IH]; intros f f' r.
  { intros [= <- <-]. split_and!; [apply fs_le_refl|done..]. }
  rewrite makedirs_rev_cons, reverse_cons.
  assert (Hmk : ∀ f0, os_mkdir (reverse rhead) tail f0 = (f', r) →
            fs_le f0 f'
            ∧ (∀ q, ¬ q `prefix_of` reverse rhead ++ [tail] → f' !! q = f0 !! q)
            ∧ (r = Ok tt → is_Some (f' !! (reverse rhead ++ [tail])))
            ∧ (∀ e, r = Raise e →
                 f' !! (reverse rhead ++ [tail]) = f0 !! (reverse rhead ++ [tail]))).
  { intros f0 H. apply os_mkdir_spec in H as (Hle & Hframe & Hok & Herr).
    unfold path_join in *. split_and!; [done| | |].
    - intros q Hq. apply Hframe.
      + intros ->. apply Hq. by apply prefix_app_r.
      + by intros ->.
    - intros ->. exists (Dir []). by apply Hok.
    - intros e ->. by rewrite (Herr e). }
  assert (Hnp : ¬ (reverse rhead ++ [tail]) `prefix_of` reverse rhead).
  { intros H%prefix_length. rewrite length_app in H. simpl in H. lia. }
  destruct (bool_decide _); [apply Hmk|].
  destruct (makedirs_rev rhead f) as [f1 r1] eqn:Hinner.
  destruct (IH _ _ _ Hinner) as (Hle1 & Hframe1 & _ & _).
  assert (Hthen : os_mkdir (reverse rhead) tail f1 = (f', r) →
            fs_le f f'
            ∧ (∀ q, ¬ q `prefix_of` reverse rhead ++ [tail] → f' !! q = f !! q)
            ∧ (r = Ok tt → is_Some (f' !! (reverse rhead ++ [tail])))
            ∧ (∀ e, r = Raise e →
                 f' !! (reverse rhead ++ [tail]) = f !! (reverse rhead ++ [tail]))).
  { intros H. destruct (Hmk _ H) as (Hle & Hframe & Hok & Herr).
    split_and!; [by eapply fs_le_trans| |done|].
    - intros q Hq. rewrite Hframe by done. apply Hframe1.
      intros Hq'. apply Hq. by apply prefix_app_r.
    - intros e He. rewrite (Herr e He). by apply Hframe1. }
  destruct r1 as [[]|e1]; [exact Hthen|].
  assert (Hstop : (f1, Raise e1) = (f', r) →
            fs_le f f'
            ∧ (∀ q, ¬ q `prefix_of` reverse rhead ++ [tail] → f' !! q = f !! q)
            ∧ (r = Ok tt → is_Some (f' !! (reverse rhead ++ [tail])))
            ∧ (∀ e, r = Raise e →
                 f' !! (reverse rhead ++ [tail]) = f !! (reverse rhead ++ [tail]))).
  { intros [= <- <-]. split_and!.
    - done.
    - intros q Hq. apply Hframe1. intros Hq'. apply Hq. by apply prefix_app_r.
    - done.
    - intros e _. by apply Hframe1. }
  destruct e1; first [exact Hthen|exact Hstop].
Qed.

Lemma os_makedirs_spec name f f' r :
  os_makedirs name f = (f', r) →
  fs_le f f'
  ∧ (∀ q, ¬ q `prefix_of` name → f' !! q = f !! q)
  ∧ (r = Ok tt → is_Some (f' !! name))
  ∧ (∀ e, r = Raise e → f' !! name = f !! name).
Proof.
  unfold os_makedirs. intros H%makedirs_rev_spec.
  by rewrite reverse_involutive in H.
Qed.

(** ** Discovery *)

Lemma image_loop_spec (cfp ocf : path) names (acc : list item) :
  image_loop cfp ocf names acc
  = acc ++ ((λ n, (path_join cfp n, path_join ocf n)) <$> names).
Proof.
  unfold image_loop. revert acc; induction names as [|n names IH]; intros acc; simpl.
  - by rewrite app_nil_r.
  - by rewrite IH, <- app_assoc.
Qed.

(** "Create the directory unless it exists", then go on. *)
Lemma ensure_dir_then {A} (p : path) (k : FS A) (f : gmap path ftype) :
  (let! present := os_path_exists p in
   (if negb present then os_makedirs p else ret tt) >> k) f
  = if bool_decide (is_Some (f !! p)) then k f
    else match os_makedirs p f with
         | (f1, Ok _) => k f1
         | (f1, Raise e) => (f1, Raise e)
         end.
Proof.
  unfold bind at 1. unfold os_path_exists.
  destruct (bool_decide _); simpl; [done|].
  unfold bind. by destruct (os_makedirs p f) as [f1 [[]|e]].
Qed.

Lemma class_folder_loop_cons (input_dir output_dir : path) (c : string)
    (rest : list string) (acc : list item) (f : gmap path ftype) :
  class_folder_loop input_dir output_dir (c :: rest) acc f
  = match f !! path_join input_dir c with
    | Some (Dir _) =>
        if bool_decide (is_Some (f !! path_join output_dir c))
        then list_class_folder input_dir output_dir c rest acc f
        else match os_makedirs (path_join output_dir c) f with
             | (f1, Ok _) => list_class_folder input_dir output_dir c rest acc f1
             | (f1, Raise e) => (f1, Raise e)
             end
    | _ => class_folder_loop input_dir output_dir rest acc f
    end.
Proof.
  simpl. unfold bind at 1. unfold os_path_isdir at 1.
  destruct (f !! path_join input_dir c) as [[|names]|]; try done.
  apply ensure_dir_then.
Qed.

Lemma list_class_folder_unfold (input_dir output_dir : path) (c : string)
    (rest : list string) (acc : list item) (f : gmap path ftype) :
  list_class_folder input_dir output_dir c rest acc f
  = match f !! path_join input_dir c with
    | Some (Dir names) =>
        class_folder_loop input_dir output_dir rest
          (acc ++ ((λ n, (path_join (path_join input_dir c) n,
                          path_join (path_join output_dir c) n)) <$> names)) f
    | Some File => (f, Raise NotADirectoryError)
    | None => (f, Raise FileNotFoundError)
    end.
Proof.
  unfold list_class_folder, bind, os_listdir.
  destruct (f !! path_join input_dir c) as [[|names]|]; try done.
  by rewrite image_loop_spec.
Qed.

Section discovery.
Context (input_dir output_dir : path).

(** Discovery only lets the file system grow. *)
Lemma class_folder_loop_mono (folders : list string) (acc : list item)
    (f f' : gmap path ftype) r :
  class_folder_loop input_dir output_dir folders acc f = (f', r) → fs_le f f'.
Proof.
  revert acc f; induction folders as [|c rest IH]; intros acc f.
  { intros [= <- _]. apply fs_le_refl. }
  rewrite class_folder_loop_cons.
  assert (Hlist : ∀ f0, list_class_folder input_dir output_dir c rest acc f0 = (f', r)
                        → fs_le f0 f').
  { intros f0. rewrite list_class_folder_unfold.
    destruct (f0 !! path_join input_dir c) as [[|names]|].
    - intros [= <- _]. apply fs_le_refl.
    - apply IH.
    - intros [= <- _]. apply fs_le_refl. }
  destruct (f !! path_join input_dir c) as [[|names]|]; try apply IH.
  destruct (bool_decide _); [apply Hlist|].
  destruct (os_makedirs _ f) as [f1 r1] eqn:Hmk.
  apply os_makedirs_spec in Hmk as (Hle & _).
  destruct r1 as [[]|e].
  - intros H. eapply fs_le_trans; [done|by apply Hlist].
  - by intros [= <- _].
Qed.

(** Every discovered pair comes from an entry of the root that is a
    directory, and only the output folders of such entries are touched. *)
Lemma class_folder_loop_sound (folders : list string) (acc : list item)
    (f f' : gmap path ftype) r :
  class_folder_loop input_dir output_dir folders acc f = (f', r) →
  (∀ q, (∀ c names, f' !! path_join input_dir c = Some (Dir names) →
                    ¬ q `prefix_of` path_join output_dir c) →
        f' !! q = f !! q)
  ∧ ∀ items, r = Ok items →
      ∃ new, items = acc ++ new
        ∧ Forall (λ it : item, ∃ c n names,
                    f' !! path_join input_dir c = Some (Dir names)
                    ∧ it = (path_join (path_join input_dir c) n,
                            path_join (path_join output_dir c) n)) new.
Proof.
  revert acc f; induction folders as [|c rest IH]; intros acc f.
  { intros [= <- <-]. split; [done|]. intros items [= <-].
    exists []. by rewrite app_nil_r. }
  rewrite class_folder_loop_cons.
  set (P := λ (acc0 : list item) (f0 : gmap path ftype),
    (∀ q, (∀ c names, f' !! path_join input_dir c = Some (Dir names) →
                      ¬ q `prefix_of` path_join output_dir c) →
          f' !! q = f0 !! q)
    ∧ ∀ items, r = Ok items →
        ∃ new, items = acc0 ++ new
          ∧ Forall (λ it : item, ∃ c n names,
                      f' !! path_join input_dir c = Some (Dir names)
                      ∧ it = (path_join (path_join input_dir c) n,
                              path_join (path_join output_dir c) n)) new).
  assert (Hlist : ∀ f0, list_class_folder input_dir output_dir c rest acc f0 = (f', r)
                        → P acc f0).
  { intros f0. rewrite list_class_folder_unfold.
    destruct (f0 !! path_join input_dir c) as [[|names]|] eqn:Hc.
    1,3: intros [= <- <-]; split; [done|]; by intros items [=].
    intros Hrest. pose proof (class_folder_loop_mono _ _ _ _ _ Hrest) as Hle.
    destruct (IH _ _ Hrest) as (Hframe & Hitems). split; [exact Hframe|].
    intros items Hr. destruct (Hitems items Hr) as (new & -> & Hnew).
    eexists. rewrite <- app_assoc. split; [done|].
    apply Forall_app. split; [|done].
    destruct (fs_le_Dir _ _ _ _ Hle Hc) as [more Hc'].
    apply Forall_fmap, Forall_forall. intros n _. simpl. eauto. }
  destruct (f !! path_join input_dir c) as [[|names]|] eqn:Hc; try apply IH.
  destruct (bool_decide _); [apply Hlist|].
  destruct (os_makedirs _ f) as [f1 r1] eqn:Hmk.
  apply os_makedirs_spec in Hmk as (Hle1 & Hframe1 & _).
  destruct r1 as [[]|e].
  - intros Hrest. destruct (Hlist _ Hrest) as (Hframe & Hitems).
    split; [|exact Hitems].
    intros q Hq. rewrite (Hframe q Hq). apply Hframe1.
    assert (fs_le f1 f') as Hle.
    { revert Hrest. rewrite list_class_folder_unfold.
      destruct (f1 !! path_join input_dir c) as [[|?]|];
        [intros [= <- _]; apply fs_le_refl
        |apply class_folder_loop_mono
        |intros [= <- _]; apply fs_le_refl]. }
    destruct (fs_le_Dir _ _ _ _ (fs_le_trans _ _ _ Hle1 Hle) Hc) as [more Hc'].
    by eapply Hq.
  - intros [= <- <-]. split; [|by intros items [=]].
    intros q Hq. apply Hframe1.
    destruct (fs_le_Dir _ _ _ _ Hle1 Hc) as [more Hc'].
    by eapply Hq.
Qed.
End discovery.

Lemma input_tree_lookup (input_dir q : path) (f : gmap path ftype) :
  input_dir `prefix_of` q → input_tree input_dir f !! q = f !! q.
Proof.
  intros Hq. unfold input_tree. apply option_eq. intros x.
  rewrite map_lookup_filter_Some. simpl. tauto.
Qed.

Lemma path_join_prefix_inv (a : path) (c c' : string) (rest : list string) :
  path_join a c `prefix_of` a ++ c' :: rest → c = c'.
Proof.
  unfold path_join. intros H%prefix_app_inv. by apply prefix_cons_inv_1 in H.
Qed.

Lemma path_join_prefix_inv2 (a : path) (c c' n : string) :
  path_join a c `prefix_of` path_join (path_join a c') n → c = c'.
Proof.
  unfold path_join at 2 3. rewrite <- app_assoc. apply path_join_prefix_inv.
Qed.

Lemma get_all_image_paths_unfold (input_dir output_dir : path)
    (f : gmap path ftype) :
  Parallel.get_all_image_paths input_dir output_dir f
  = let k := λ f0 : gmap path ftype,
        match f0 !! input_dir with
        | Some (Dir folders) => class_folder_loop input_dir output_dir folders [] f0
        | Some File => (f0, Raise NotADirectoryError)
        | None => (f0, Raise FileNotFoundError)
        end in
    if bool_decide (is_Some (f !! output_dir)) then k f
    else match os_makedirs output_dir f with
         | (f1, Ok _) => k f1
         | (f1, Raise e) => (f1, Raise e)
         end.
Proof.
  unfold Parallel.get_all_image_paths. rewrite ensure_dir_then.
  assert (∀ f0 : gmap path ftype,
    (let! folders := os_listdir input_dir in
     class_folder_loop input_dir output_dir folders []) f0
    = match f0 !! input_dir with
      | Some (Dir folders) => class_folder_loop input_dir output_dir folders [] f0
      | Some File => (f0, Raise NotADirectoryError)
      | None => (f0, Raise FileNotFoundError)
      end) as Hk.
  { intros f0. unfold bind, os_listdir.
    by destruct (f0 !! input_dir) as [[|?]|]. }
  simpl. destruct (bool_decide _); [apply Hk|].
  destruct (os_makedirs output_dir f) as [f1 [[]|e]]; [apply Hk|done].
Qed.

(** The state in which the root is listed: the output root exists there, and
    the file system has only grown on the way. *)
Lemma get_all_image_paths_inv (input_dir output_dir : path)
    (f f' : gmap path ftype) (items : list item) :
  Parallel.get_all_image_paths input_dir output_dir f = (f', Ok items) →
  ∃ f0 folders,
    fs_le f f0
    ∧ (∀ q, ¬ q `prefix_of` output_dir → f0 !! q = f !! q)
    ∧ is_Some (f0 !! output_dir)
    ∧ f0 !! input_dir = Some (Dir folders)
    ∧ class_folder_loop input_dir output_dir folders [] f0 = (f', Ok items).
Proof.
  rewrite get_all_image_paths_unfold. simpl.
  assert (∀ f0, fs_le f f0 →
            (∀ q, ¬ q `prefix_of` output_dir → f0 !! q = f !! q) →
            is_Some (f0 !! output_dir) →
            match f0 !! input_dir with
            | Some (Dir folders) =>
                class_folder_loop input_dir output_dir folders [] f0
            | Some File => (f0, Raise NotADirectoryError)
            | None => (f0, Raise FileNotFoundError)
            end = (f', Ok items) →
            ∃ f0 folders,
              fs_le f f0
              ∧ (∀ q, ¬ q `prefix_of` output_dir → f0 !! q = f !! q)
              ∧ is_Some (f0 !! output_dir)
              ∧ f0 !! input_dir = Some (Dir folders)
              ∧ class_folder_loop input_dir output_dir folders [] f0
                = (f', Ok items)) as Hk.
  { intros f0 Hle Hframe Hout H.
    destruct (f0 !! input_dir) as [[|folders]|] eqn:Hin; try done.
    exists f0, folders. done. }
  case_bool_decide as Hout.
  - apply Hk; [apply fs_le_refl|done|done].
  - destruct (os_makedirs output_dir f) as [f1 [[]|e]] eqn:Hmk; [|done].
    apply os_makedirs_spec in Hmk as (Hle & Hframe & Hok & _).
    apply Hk; auto.
Qed.

(** A run of Discovery, whatever its outcome: the state [f0] in which the
    root is listed, and what follows. *)
Lemma get_all_image_paths_run (input_dir output_dir : path)
    (f f' : gmap path ftype) (r : result (list item)) :
  Parallel.get_all_image_paths input_dir output_dir f = (f', r) →
  ∃ f0, fs_le f f0
    ∧ (∀ q, ¬ q `prefix_of` output_dir → f0 !! q = f !! q)
    ∧ ((f' = f0 ∧ f' !! output_dir = None ∧ ∃ e, r = Raise e)
       ∨ (is_Some (f0 !! output_dir)
          ∧ match f0 !! input_dir with
            | Some (Dir folders) =>
                class_folder_loop input_dir output_dir folders [] f0 = (f', r)
            | _ => f' = f0 ∧ ∃ e, r = Raise e
            end)).
Proof.
  rewrite get_all_image_paths_unfold. simpl.
  assert (Hk : ∀ f0, fs_le f f0 →
    (∀ q, ¬ q `prefix_of` output_dir → f0 !! q = f !! q) →
    is_Some (f0 !! output_dir) →
    match f0 !! input_dir with
    | Some (Dir folders) => class_folder_loop input_dir output_dir folders [] f0
    | Some File => (f0, Raise NotADirectoryError)
    | None => (f0, Raise FileNotFoundError)
    end = (f', r) →
    ∃ f0, fs_le f f0
      ∧ (∀ q, ¬ q `prefix_of` output_dir → f0 !! q = f !! q)
      ∧ ((f' = f0 ∧ f' !! output_dir = None ∧ ∃ e, r = Raise e)
         ∨ (is_Some (f0 !! output_dir)
            ∧ match f0 !! input_dir with
              | Some (Dir folders) =>
                  class_folder_loop input_dir output_dir folders [] f0 = (f', r)
              | _ => f' = f0 ∧ ∃ e, r = Raise e
              end))).
  { intros f0 Hle Hframe Hout H. exists f0. split_and!; [done..|]. right.
    split; [done|].
    destruct (f0 !! input_dir) as [[|folders]|]; [|done|];
      injection H as <- <-; eauto. }
  case_bool_decide as Hout.
  - apply Hk; [apply fs_le_refl|done|done].
  - destruct (os_makedirs output_dir f) as [f1 [[]|e]] eqn:Hmk.
    + apply os_makedirs_spec in Hmk as (Hle & Hframe & Hok & _).
      apply Hk; auto.
    + apply os_makedirs_spec in Hmk as (Hle & Hframe & _ & Hfail).
      intros [= <- <-]. exists f1. split_and!; [done..|]. left.
      split_and!; [done| |by eauto].
      rewrite (Hfail e eq_refl).
      destruct (f !! output_dir) eqn:Hf; [|done]. exfalso. apply Hout. eauto.
Qed.

(** When the loop fails, it is in creating the output folder of an entry
    that is a directory. *)
Lemma class_folder_loop_fails (input_dir output_dir : path)
    (folders : list string) (acc : list item) (f f' : gmap path ftype)
    (e : exn) :
  class_folder_loop input_dir output_dir folders acc f = (f', Raise e) →
  ∃ c names, c ∈ folders
    ∧ f' !! path_join input_dir c = Some (Dir names)
    ∧ f' !! path_join output_dir c = None.
Proof.
  revert acc f; induction folders as [|c rest IH]; intros acc f.
  { simpl. unfold ret. by intros [= _]. }
  rewrite class_folder_loop_cons.
  assert (Hrest : ∀ acc0 f0,
    class_folder_loop input_dir output_dir rest acc0 f0 = (f', Raise e) →
    ∃ c0 names, c0 ∈ c :: rest
      ∧ f' !! path_join input_dir c0 = Some (Dir names)
      ∧ f' !! path_join output_dir c0 = None).
  { intros acc0 f0 (c0 & names & Hin & H1 & H2)%IH. exists c0, names.
    split_and!; [|done..]. apply elem_of_cons. by right. }
  assert (Hlist : ∀ f0 names0,
    f0 !! path_join input_dir c = Some (Dir names0) →
    list_class_folder input_dir output_dir c rest acc f0 = (f', Raise e) →
    ∃ c0 names, c0 ∈ c :: rest
      ∧ f' !! path_join input_dir c0 = Some (Dir names)
      ∧ f' !! path_join output_dir c0 = None).
  { intros f0 names0 Hc0. rewrite list_class_folder_unfold.
    unfold path in *. rewrite Hc0. apply Hrest. }
  destruct (f !! path_join input_dir c) as [[|names]|] eqn:Hc;
    [by apply Hrest| |by apply Hrest].
  destruct (bool_decide (is_Some (f !! path_join output_dir c))) eqn:Hout.
  - by apply (Hlist f names).
  - apply bool_decide_eq_false_1 in Hout.
    destruct (os_makedirs _ f) as [f1 [[]|e1]] eqn:Hmk.
    + apply os_makedirs_spec in Hmk as (Hle & _).
      destruct (fs_le_Dir _ _ _ _ Hle Hc) as [more Hc1].
      by apply (Hlist f1 (names ++ more)).
    + apply os_makedirs_spec in Hmk as (Hle & _ & _ & Hfail).
      intros [= <- <-].
      destruct (fs_le_Dir _ _ _ _ Hle Hc) as [more Hc1].
      exists c, (names ++ more). split_and!; [apply elem_of_cons; by left|done|].
      rewrite (Hfail e1 eq_refl).
      destruct (f !! path_join output_dir c) eqn:Hf; [|done].
      exfalso. apply Hout. eauto.
Qed.

(** C9: an entry of the input root that is not a directory is skipped by
    Discovery, whatever the outcome of the run.  For an entry [c] that is
    not a directory when Discovery ends (so it was none when it was visited:
    a regular file stays one), the output folder of that name is neither
    created nor changed, and no returned pair lies under it or under the
    output folder of its name.  Nor does Discovery ever stop at such an
    entry: when Discovery raises, the output root could not be created, or
    the input root could not be listed, or the output folder of an entry
    that is a directory could not be created. *)
Theorem non_directory_entries_are_skipped (input_dir output_dir : path)
    (f f' : gmap path ftype) (r : result (list item)) :
  Parallel.get_all_image_paths input_dir output_dir f = (f', r) →
  (∀ c, (∀ names, f' !! path_join input_dir c ≠ Some (Dir names)) →
     f' !! path_join output_dir c = f !! path_join output_dir c
     ∧ ∀ items, r = Ok items →
         Forall (λ it : item, ¬ path_join input_dir c `prefix_of` it.1
                              ∧ ¬ path_join output_dir c `prefix_of` it.2)
           items)
  ∧ (∀ e, r = Raise e →
       f' !! output_dir = None
       ∨ (∀ folders, f' !! input_dir ≠ Some (Dir folders))
       ∨ ∃ folders c names,
           f' !! input_dir = Some (Dir folders) ∧ c ∈ folders
           ∧ f' !! path_join input_dir c = Some (Dir names)
           ∧ f' !! path_join output_dir c = None).
Proof.
  intros Hrun.
  destruct (get_all_image_paths_run _ _ _ _ _ Hrun)
    as (f0 & Hle0 & Hframe0 & Hcases).
  assert (Hroot : ∀ c, f0 !! path_join output_dir c = f !! path_join output_dir c).
  { intros c. apply Hframe0. intros H%prefix_length.
    unfold path_join in H. rewrite length_app in H. simpl in H. lia. }
  split.
  - intros c Hnodir.
    destruct Hcases as [(-> & _ & e & ->)|[_ Hloop]]; [by split|].
    destruct (f0 !! input_dir) as [[|folders]|];
      [by destruct Hloop as (-> & e & ->)|
      |by destruct Hloop as (-> & e & ->)].
    destruct (class_folder_loop_sound _ _ _ _ _ _ _ Hloop) as (Hframe & Hitems).
    split.
    + rewrite <- Hroot. apply Hframe.
      intros c' names Hdir Hpre. unfold path_join in Hpre at 2.
      apply path_join_prefix_inv in Hpre. subst c'. by eapply Hnodir.
    + intros items ->. destruct (Hitems items eq_refl) as (new & -> & Hnew).
      simpl. eapply Forall_impl; [exact Hnew|].
      intros it (c' & n & names & Hdir & ->). simpl.
      split; intros Hpre%path_join_prefix_inv2; subst c'; by eapply Hnodir.
  - intros e ->.
    destruct Hcases as [(_ & Hout & _)|[_ Hloop]]; [by left|].
    right.
    destruct (f0 !! input_dir) as [[|folders]|] eqn:Hin.
    + left. destruct Hloop as [-> _]. intros folders. unfold path in *. congruence.
    + right. pose proof (class_folder_loop_mono _ _ _ _ _ _ _ Hloop) as Hle.
      destruct (fs_le_Dir _ _ _ _ Hle Hin) as [more Hin'].
      destruct (class_folder_loop_fails _ _ _ _ _ _ _ Hloop)
        as (c & names & Hc & Hdir & Hnone).
      exists (folders ++ more), c, names.
      split_and!; [done| |done|done]. apply elem_of_app. by left.
    + left. destruct Hloop as [-> _]. intros folders. unfold path in *. congruence.
Qed.

(** An instance: [README.txt] next to the class folders. *)
Lemma non_directory_entries_are_skipped_witness :
  Parallel.get_all_image_paths Fixtures.INPUT_DIR Fixtures.OUTPUT_DIR
    Fixtures.fs_data_set
  = (Fixtures.discovered.1, Ok Fixtures.found)
  ∧ Fixtures.discovered.1 !! path_join Fixtures.INPUT_DIR "README.txt"
    = Some File
  ∧ Fixtures.discovered.1 !! path_join Fixtures.OUTPUT_DIR "README.txt"
    = Fixtures.fs_data_set !! path_join Fixtures.OUTPUT_DIR "README.txt"
  ∧ Forall (λ it : item,
              ¬ path_join Fixtures.INPUT_DIR "README.txt" `prefix_of` it.1
              ∧ ¬ path_join Fixtures.OUTPUT_DIR "README.txt" `prefix_of` it.2)
      Fixtures.found.
Proof.
  assert (Parallel.get_all_image_paths Fixtures.INPUT_DIR Fixtures.OUTPUT_DIR
            Fixtures.fs_data_set
          = (Fixtures.discovered.1, Ok Fixtures.found)) as Hrun.
  { assert (Fixtures.discovered.2 = Ok Fixtures.found) as <-
      by (vm_compute; reflexivity).
    exact (surjective_pairing Fixtures.discovered). }
  assert (Fixtures.discovered.1 !! path_join Fixtures.INPUT_DIR "README.txt"
          = Some File) as Hfile by (vm_compute; reflexivity).
  split; [exact Hrun|]. split; [exact Hfile|].
  destruct (non_directory_entries_are_skipped
              Fixtures.INPUT_DIR Fixtures.OUTPUT_DIR Fixtures.fs_data_set
              Fixtures.discovered.1 (Ok Fixtures.found) Hrun) as [Hskip _].
  destruct (Hskip "README.txt") as [Hout Hitems].
  - intros names Hdir. rewrite Hfile in Hdir. discriminate Hdir.
  - split; [exact Hout|]. exact (Hitems Fixtures.found eq_refl).
Defined.

Section rerun.
Context (input_dir output_dir : path) (f f1 : gmap path ftype).
Hypothesis Hunchanged : ∀ q, input_dir `prefix_of` q → f1 !! q = f !! q.

(** Re-running the loop in the state it ended in reads the same input and
    finds every output folder in place. *)
Lemma class_folder_loop_rerun (folders : list string) (acc : list item)
    (f0 : gmap path ftype) (items : list item) :
  fs_le f f0 →
  class_folder_loop input_dir output_dir folders acc f0 = (f1, Ok items) →
  class_folder_loop input_dir output_dir folders acc f1 = (f1, Ok items).
Proof.
  revert acc f0; induction folders as [|c rest IH]; intros acc f0 Hle0 Hrun.
  { by injection Hrun as <- <-. }
  pose proof (class_folder_loop_mono _ _ _ _ _ _ _ Hrun) as Hle1.
  assert (Hsame : f0 !! path_join input_dir c = f1 !! path_join input_dir c).
  { eapply fs_le_sandwich; [exact Hle0|exact Hle1|].
    apply Hunchanged. by apply prefix_app_r. }
  rewrite class_folder_loop_cons in Hrun |- *. rewrite <- Hsame.
  destruct (f0 !! path_join input_dir c) as [[|names]|] eqn:Hc;
    try by eapply IH.
  assert (Hlist : ∀ f2, fs_le f0 f2 → is_Some (f2 !! path_join output_dir c) →
            list_class_folder input_dir output_dir c rest acc f2 = (f1, Ok items) →
            (if bool_decide (is_Some (f1 !! path_join output_dir c))
             then list_class_folder input_dir output_dir c rest acc f1
             else match os_makedirs (path_join output_dir c) f1 with
                  | (f3, Ok _) => list_class_folder input_dir output_dir c rest acc f3
                  | (f3, Raise e) => (f3, Raise e)
                  end) = (f1, Ok items)).
  { intros f2 Hle2 Hout Hrest.
    rewrite list_class_folder_unfold in Hrest.
    destruct (f2 !! path_join input_dir c) as [[|names2]|] eqn:Hc2; try done.
    pose proof (class_folder_loop_mono _ _ _ _ _ _ _ Hrest) as Hle3.
    rewrite bool_decide_true by (by eapply fs_le_is_Some).
    rewrite list_class_folder_unfold.
    assert (f2 !! path_join input_dir c = f1 !! path_join input_dir c) as Hsame2.
    { eapply (fs_le_sandwich f f2 f1);
        [exact (fs_le_trans _ _ _ Hle0 Hle2)|exact Hle3|].
      apply Hunchanged. by apply prefix_app_r. }
    rewrite <- Hsame2, Hc2. eapply IH; [|exact Hrest].
    exact (fs_le_trans _ _ _ Hle0 Hle2). }
  destruct (bool_decide (is_Some (f0 !! path_join output_dir c))) eqn:Hout.
  - apply bool_decide_eq_true_1 in Hout.
    apply (Hlist f0); [apply fs_le_refl|exact Hout|exact Hrun].
  - destruct (os_makedirs _ f0) as [f2 [[]|e]] eqn:Hmk; [|done].
    apply os_makedirs_spec in Hmk as (Hle2 & _ & Hok & _).
    apply (Hlist f2); auto.
Qed.
End rerun.

(** C8: when a run of Discovery has left the input tree as it found it,
    running Discovery again returns the identical ordered list of pairs (and
    changes nothing). *)
Theorem discovery_is_idempotent (input_dir output_dir : path)
    (f f1 : gmap path ftype) (items : list item) :
  Parallel.get_all_image_paths input_dir output_dir f = (f1, Ok items) →
  input_tree input_dir f1 = input_tree input_dir f →
  Parallel.get_all_image_paths input_dir output_dir f1 = (f1, Ok items).
Proof.
  intros Hrun Htree.
  assert (Hunchanged : ∀ q, input_dir `prefix_of` q → f1 !! q = f !! q).
  { intros q Hq. transitivity (input_tree input_dir f1 !! q).
    - symmetry. by apply input_tree_lookup.
    - rewrite Htree. by apply input_tree_lookup. }
  destruct (get_all_image_paths_inv _ _ _ _ _ Hrun)
    as (f0 & folders & Hle0 & _ & Hout & Hin & Hloop).
  pose proof (class_folder_loop_mono _ _ _ _ _ _ _ Hloop) as Hle1.
  rewrite get_all_image_paths_unfold. simpl.
  rewrite bool_decide_true by (by eapply fs_le_is_Some).
  assert (f0 !! input_dir = f1 !! input_dir) as Hsame.
  { eapply fs_le_sandwich; [exact Hle0|exact Hle1|]. by apply Hunchanged. }
  rewrite <- Hsame, Hin.
  by eapply class_folder_loop_rerun.
Qed.

(** An instance: the first run creates the output folders, the second finds
    the same five pairs. *)
Lemma discovery_is_idempotent_witness :
  Parallel.get_all_image_paths Fixtures.INPUT_DIR Fixtures.OUTPUT_DIR
    Fixtures.fs_data_set
  = (Fixtures.discovered.1, Ok Fixtures.found)
  ∧ input_tree Fixtures.INPUT_DIR Fixtures.discovered.1
    = input_tree Fixtures.INPUT_DIR Fixtures.fs_data_set
  ∧ Parallel.get_all_image_paths Fixtures.INPUT_DIR Fixtures.OUTPUT_DIR
      Fixtures.discovered.1
    = (Fixtures.discovered.1, Ok Fixtures.found).
Proof.
  assert (Parallel.get_all_image_paths Fixtures.INPUT_DIR Fixtures.OUTPUT_DIR
            Fixtures.fs_data_set
          = (Fixtures.discovered.1, Ok Fixtures.found)) as Hrun.
  { assert (Fixtures.discovered.2 = Ok Fixtures.found) as <-
      by (vm_compute; reflexivity).
    exact (surjective_pairing Fixtures.discovered). }
  assert (input_tree Fixtures.INPUT_DIR Fixtures.discovered.1
          = input_tree Fixtures.INPUT_DIR Fixtures.fs_data_set) as Htree
    by (apply (bool_decide_unpack _); vm_compute; exact I).
  split; [exact Hrun|]. split; [exact Htree|].
  exact (discovery_is_idempotent _ _ _ _ _ Hrun Htree).
Defined.

(** ** A missing input root, and a worker count of zero *)

Section abort.
Context `{env : Env}.

(** The discovery code inlined in [distributed_process.main] is the body of
    [get_all_image_paths]. *)
Lemma distributed_main_discovers (INPUT_DIR OUTPUT_DIR : path) num_nodes schedule w :
  Distributed.main INPUT_DIR OUTPUT_DIR num_nodes schedule w
  = match Parallel.get_all_image_paths INPUT_DIR OUTPUT_DIR (fs w) with
    | (f1, Raise e) => (set_fs f1 w, Raise e)
    | (f1, Ok all_image_paths) =>
        (print (PTotalFound (length all_image_paths)) >>
         print (PBanner "Running sequential processing for baseline...") >>
         let! seq_start_time := time_time in
         for_each all_image_paths
           (λ it, Distributed.process_single_image it.1 it.2) >>
         let! seq_end_time := time_time in
         let sequential_time := float_sub seq_end_time seq_start_time in
         print (PSequentialTime sequential_time) >>
         print (PBanner "Starting distributed simulation") >>
         let! joined := Distributed.dispatch_and_join all_image_paths num_nodes
                          schedule in
         match joined with
         | Some total_distributed_time =>
             Distributed.report sequential_time total_distributed_time >>
             ret (Some tt)
         | None => ret None
         end) (set_fs f1 w)
    end.
Proof.
  unfold Distributed.main. unfold bind at 1. unfold lift_fs.
  change (let! present := os_path_exists OUTPUT_DIR in
          (if negb present then os_makedirs OUTPUT_DIR else ret tt) >>
          let! folders := os_listdir INPUT_DIR in
          class_folder_loop INPUT_DIR OUTPUT_DIR folders [])
    with (Parallel.get_all_image_paths INPUT_DIR OUTPUT_DIR).
  by destruct (Parallel.get_all_image_paths INPUT_DIR OUTPUT_DIR (fs w))
    as [f1 [items|e]].
Qed.

(** C4 (amended): when the input root does not exist (and the output root is
    not placed beneath it), Discovery returns no work-item set: it raises,
    [FileNotFoundError] from [os.listdir] once the output root is in place,
    and both [main]s stop there, before any Transform call. *)
Theorem missing_input_root_raises (INPUT_DIR OUTPUT_DIR : path)
    (f : gmap path ftype) :
  f !! INPUT_DIR = None →
  ¬ INPUT_DIR `prefix_of` OUTPUT_DIR →
  ∃ f' e,
    Parallel.get_all_image_paths INPUT_DIR OUTPUT_DIR f = (f', Raise e)
    ∧ (is_Some (f' !! OUTPUT_DIR) → e = FileNotFoundError)
    ∧ ∀ w, fs w = f →
        (∀ num_nodes schedule,
           Distributed.main INPUT_DIR OUTPUT_DIR num_nodes schedule w
           = (set_fs f' w, Raise e))
        ∧ (∀ worker_counts,
             Parallel.main INPUT_DIR OUTPUT_DIR worker_counts w
             = (set_fs f' (set_stdout (stdout w ++ [PBanner "Discovering"]) w),
                Raise e)).
Proof.
  intros Hin Hnp.
  assert (∃ f' e,
    Parallel.get_all_image_paths INPUT_DIR OUTPUT_DIR f = (f', Raise e)
    ∧ (is_Some (f' !! OUTPUT_DIR) → e = FileNotFoundError))
    as (f' & e & Hrun & He).
  { rewrite get_all_image_paths_unfold. simpl. case_bool_decide as Hout.
    - rewrite Hin. by eexists _, _.
    - destruct (os_makedirs OUTPUT_DIR f) as [f1 [[]|e]] eqn:Hmk;
        apply os_makedirs_spec in Hmk as (_ & Hframe & _ & Herr).
      + unfold path in *. rewrite (Hframe _ Hnp), Hin. by eexists _, _.
      + eexists _, _. split; [done|]. intros Hsome.
        rewrite (Herr e eq_refl) in Hsome. done. }
  exists f', e. split_and!; [done..|].
  intros w <-. split.
  - intros num_nodes schedule. by rewrite distributed_main_discovers, Hrun.
  - intros worker_counts. unfold Parallel.main.
    rewrite (bind_Ok _ _ _ _ _ (print_spec _ w)).
    unfold bind at 1, lift_fs. simpl. by rewrite Hrun.
Qed.

(** C5 (amended): with a worker count of zero, [main] fails with the
    [ValueError] of [numpy.array_split]: no node process is ever started and
    no result is stored, but the sequential baseline pass has by then invoked
    Transform on every discovered item. *)
Theorem zero_workers_fail_after_the_baseline (INPUT_DIR OUTPUT_DIR : path)
    (schedule : list nat) w f1 (all_image_paths : list item) :
  Parallel.get_all_image_paths INPUT_DIR OUTPUT_DIR (fs w)
  = (f1, Ok all_image_paths) →
  ∃ w',
    Distributed.main INPUT_DIR OUTPUT_DIR 0 schedule w = (w', Raise ValueError)
    ∧ calls w' = calls w ++ all_image_paths
    ∧ results_dict w' = results_dict w
    ∧ ∀ node_id, PNodeStart node_id ∉ printed w w'.
Proof.
  intros Hdisc. rewrite distributed_main_discovers, Hdisc.
  set (w0 := set_fs f1 w).
  rewrite (bind_Ok _ _ _ _ _ (print_spec _ w0)). set (w1 := set_stdout _ w0).
  rewrite (bind_Ok _ _ _ _ _ (print_spec _ w1)). set (w2 := set_stdout _ w1).
  rewrite (bind_Ok _ _ w2 (set_ticks (S (ticks w2)) w2) (clock (ticks w2)))
    by done.
  set (w3 := set_ticks _ w2).
  destruct (transform_loop_total all_image_paths w3)
    as (w4 & Hloop & [Hc _ _ Ht Hr (ls & Hls & Herr)]).
  rewrite (bind_Ok _ _ _ _ _ Hloop).
  rewrite (bind_Ok _ _ w4 (set_ticks (S (ticks w4)) w4) (clock (ticks w4)))
    by done.
  set (w5 := set_ticks _ w4).
  rewrite (bind_Ok _ _ _ _ _ (print_spec _ w5)). set (w6 := set_stdout _ w5).
  rewrite (bind_Ok _ _ _ _ _ (print_spec _ w6)). set (w7 := set_stdout _ w6).
  eexists. split; [reflexivity|]. simpl. split_and!; [done..|].
  intros node_id. unfold printed. simpl. rewrite Hls. simpl.
  rewrite <- !app_assoc, drop_app_length. simpl.
  rewrite !elem_of_cons, !elem_of_app, !elem_of_cons, elem_of_nil.
  intros [?|[?|[Hin|[?|[?|[]]]]]]; try done.
  rewrite Forall_forall in Herr. by destruct (Herr _ Hin) as (? & ? & ?).
Qed.
End abort.

(** ** Concrete runs of Discovery and of the two [main]s *)

(** A file system without the data set: both scripts stop in Discovery. *)
Lemma missing_input_root_raises_witness :
  Fixtures.fs_no_root !! Fixtures.INPUT_DIR = None
  ∧ ¬ Fixtures.INPUT_DIR `prefix_of` Fixtures.OUTPUT_DIR
  ∧ ∃ f' e,
      Parallel.get_all_image_paths Fixtures.INPUT_DIR Fixtures.OUTPUT_DIR
        Fixtures.fs_no_root = (f', Raise e)
      ∧ (is_Some (f' !! Fixtures.OUTPUT_DIR) → e = FileNotFoundError)
      ∧ ∀ w, fs w = Fixtures.fs_no_root →
          (∀ num_nodes schedule,
             Distributed.main (env := Fixtures.ticking_env)
               Fixtures.INPUT_DIR Fixtures.OUTPUT_DIR num_nodes schedule w
             = (set_fs f' w, Raise e))
          ∧ (∀ worker_counts,
               Parallel.main (env := Fixtures.ticking_env)
                 Fixtures.INPUT_DIR Fixtures.OUTPUT_DIR worker_counts w
               = (set_fs f' (set_stdout (stdout w ++ [PBanner "Discovering"]) w),
                  Raise e)).
Proof.
  assert (Fixtures.fs_no_root !! Fixtures.INPUT_DIR = None) as Hin
    by (vm_compute; reflexivity).
  assert (¬ Fixtures.INPUT_DIR `prefix_of` Fixtures.OUTPUT_DIR) as Hnp.
  { intros [k Hk]. vm_compute in Hk. discriminate. }
  split; [exact Hin|]. split; [exact Hnp|].
  exact (missing_input_root_raises (env := Fixtures.ticking_env) _ _ _ Hin Hnp).
Defined.

(** C4 as stated fails: with the input root missing, Discovery does not
    return an empty work-item set. *)
Lemma missing_input_root_is_not_silent :
  ¬ (∀ (INPUT_DIR OUTPUT_DIR : path) (f : gmap path ftype),
       f !! INPUT_DIR = None →
       ∃ f', Parallel.get_all_image_paths INPUT_DIR OUTPUT_DIR f = (f', Ok [])).
Proof.
  intros H.
  destruct (H Fixtures.INPUT_DIR Fixtures.OUTPUT_DIR Fixtures.fs_no_root
              ltac:(vm_compute; reflexivity)) as [f' Hrun].
  apply (f_equal snd) in Hrun. vm_compute in Hrun. discriminate.
Qed.

(** Zero nodes on the sample data set: five Transform calls, then the
    [ValueError]. *)
Lemma zero_workers_fail_after_the_baseline_witness :
  Parallel.get_all_image_paths Fixtures.INPUT_DIR Fixtures.OUTPUT_DIR
    (fs (Fixtures.world_of Fixtures.fs_data_set))
  = (Fixtures.discovered.1, Ok Fixtures.found)
  ∧ ∃ w',
      Distributed.main (env := Fixtures.ticking_env)
        Fixtures.INPUT_DIR Fixtures.OUTPUT_DIR 0 []
        (Fixtures.world_of Fixtures.fs_data_set) = (w', Raise ValueError)
      ∧ calls w' = calls (Fixtures.world_of Fixtures.fs_data_set) ++ Fixtures.found
      ∧ results_dict w' = results_dict (Fixtures.world_of Fixtures.fs_data_set)
      ∧ ∀ node_id,
          PNodeStart node_id
          ∉ printed (Fixtures.world_of Fixtures.fs_data_set) w'.
Proof.
  assert (Parallel.get_all_image_paths Fixtures.INPUT_DIR Fixtures.OUTPUT_DIR
            (fs (Fixtures.world_of Fixtures.fs_data_set))
          = (Fixtures.discovered.1, Ok Fixtures.found)) as Hrun.
  { assert (Fixtures.discovered.2 = Ok Fixtures.found) as <-
      by (vm_compute; reflexivity).
    exact (surjective_pairing Fixtures.discovered). }
  split; [exact Hrun|].
  exact (zero_workers_fail_after_the_baseline (env := Fixtures.ticking_env)
           _ _ [] _ _ _ Hrun).
Defined.

(** C5 as stated fails: with a worker count of zero the failure does not come
    before every Transform call; the baseline pass has run. *)
Lemma zero_workers_do_not_fail_fast :
  ¬ (∀ (env : Env) (INPUT_DIR OUTPUT_DIR : path) schedule w w' r,
       Distributed.main INPUT_DIR OUTPUT_DIR 0 schedule w = (w', r) →
       calls w' = calls w).
Proof.
  intros H.
  pose proof (H Fixtures.ticking_env Fixtures.INPUT_DIR Fixtures.OUTPUT_DIR []
                (Fixtures.world_of Fixtures.fs_data_set) _ _
                (surjective_pairing _)) as Hcalls.
  vm_compute in Hcalls. discriminate.
Qed.

(** The sweep on the sample data set with a ticking clock. *)
Lemma speedup_is_relative_to_first_pool_run_witness :
  Parallel.get_all_image_paths Fixtures.INPUT_DIR Fixtures.OUTPUT_DIR
    (fs (Fixtures.world_of Fixtures.fs_data_set))
  = (Fixtures.discovered.1, Ok Fixtures.found)
  ∧ ∃ w' r,
      Parallel.main (env := Fixtures.ticking_env)
        Fixtures.INPUT_DIR Fixtures.OUTPUT_DIR Parallel.WORKER_COUNTS
        (Fixtures.world_of Fixtures.fs_data_set) = (w', r)
      ∧ table_rows (printed (Fixtures.world_of Fixtures.fs_data_set) w')
        = (λ res, (res.1, res.2,
                   float_div (run_time (env := Fixtures.ticking_env) 0 0) res.2))
            <$> until_zero_time
                  (imap (λ i n, (n, run_time (env := Fixtures.ticking_env) 0 i))
                     Parallel.WORKER_COUNTS)
      ∧ ∀ s m e, run_time (env := Fixtures.ticking_env) 0 0 = S754_finite s m e →
          head (table_rows (printed (Fixtures.world_of Fixtures.fs_data_set) w'))
          = Some (1, run_time (env := Fixtures.ticking_env) 0 0, float_one).
Proof.
  assert (Parallel.get_all_image_paths Fixtures.INPUT_DIR Fixtures.OUTPUT_DIR
            (fs (Fixtures.world_of Fixtures.fs_data_set))
          = (Fixtures.discovered.1, Ok Fixtures.found)) as Hrun.
  { assert (Fixtures.discovered.2 = Ok Fixtures.found) as <-
      by (vm_compute; reflexivity).
    exact (surjective_pairing Fixtures.discovered). }
  split; [exact Hrun|].
  exact (speedup_is_relative_to_first_pool_run (env := Fixtures.ticking_env)
           _ _ _ _ _ Hrun).
Defined.

(** With a clock too coarse to tell the readings apart, the elapsed time of
    the join is zero and [main] ends on [ZeroDivisionError], after the
    summary rows and without an efficiency line. *)
Example main_with_frozen_clock :
  let out := Distributed.main (env := Fixtures.frozen_env)
               Fixtures.INPUT_DIR Fixtures.OUTPUT_DIR 2
               [1; 1; 1; 1; 0; 0; 0; 0; 0; 1]
               (Fixtures.world_of Fixtures.fs_data_set) in
  out.2 = Raise ZeroDivisionError
  ∧ summary_ids (stdout out.1) = [1; 2]
  ∧ efficiencies (stdout out.1) = [].
Proof. vm_compute. done. Qed.

(** The same run with a ticking clock prints one efficiency. *)
Example main_with_ticking_clock :
  let out := Distributed.main (env := Fixtures.ticking_env)
               Fixtures.INPUT_DIR Fixtures.OUTPUT_DIR 2
               [1; 1; 1; 1; 0; 0; 0; 0; 0; 1]
               (Fixtures.world_of Fixtures.fs_data_set) in
  out.2 = Ok (Some tt)
  ∧ summary_ids (stdout out.1) = [1; 2]
  ∧ length (efficiencies (stdout out.1)) = 1
  ∧ count <$> dict_get 1 (results_dict out.1) = Some 3
  ∧ count <$> dict_get 2 (results_dict out.1) = Some 2.
Proof. vm_compute. done. Qed.

(** ** The join is reached *)

Section progress.
Context `{env : Env}.
Import Distributed.

Lemma quanta_left_alive p : is_alive p = false ↔ quanta_left p = 0.
Proof.
  unfold is_alive, quanta_left. destruct (at_pc p); split; try done; lia.
Qed.

Lemma schedule_one_progress i (ps : list process) p w :
  ps !! i = Some p →
  ∃ w' p', schedule_one i ps w = (w', <[i := p']> ps)
           ∧ quanta_left p' = pred (quanta_left p).
Proof.
  intros Hp. unfold schedule_one. rewrite Hp.
  destruct (is_alive p) eqn:Halive.
  - unfold is_alive, node_step, quanta_left in *.
    destruct (at_pc p) as [|[|it todo] t0| |e] eqn:Hpc; try done.
    + eexists _, _. split; [reflexivity|]. simpl. lia.
    + destruct (publish_spec (node_id p) (image_subset p) t0 w)
        as (w' & t & Hpub & _).
      rewrite (bind_Ok _ _ _ _ _ Hpub). simpl. by eexists _, _.
    + destruct (process_single_image_total it.1 it.2 w) as (w' & Hrun & _).
      rewrite (bind_Ok _ _ _ _ _ Hrun). simpl.
      eexists _, _. split; [reflexivity|]. simpl. lia.
  - exists w, p. rewrite list_insert_id by done. split; [done|].
    apply quanta_left_alive in Halive. lia.
Qed.

Lemma run_replicate_progress m i (ps : list process) p w :
  ps !! i = Some p →
  ∃ w' p', run_schedule (replicate m i) ps w = (w', <[i := p']> ps)
           ∧ quanta_left p' = quanta_left p - m.
Proof.
  revert ps p w; induction m as [|m IH]; intros ps p w Hp; simpl.
  - exists w, p. rewrite list_insert_id by done. split; [done|lia].
  - destruct (schedule_one_progress i ps p w Hp) as (w1 & p1 & -> & Hq1).
    pose proof (lookup_lt_Some _ _ _ Hp) as Hi.
    destruct (IH (<[i := p1]> ps) p1 w1) as (w2 & p2 & -> & Hq2).
    { by rewrite list_lookup_insert_eq. }
    exists w2, p2. rewrite list_insert_insert_eq. split; [done|lia].
Qed.

Lemma run_schedule_app s1 s2 (ps : list process) w :
  run_schedule (s1 ++ s2) ps w
  = let '(w1, ps1) := run_schedule s1 ps w in run_schedule s2 ps1 w1.
Proof.
  revert ps w; induction s1 as [|i s1 IH]; intros ps w; simpl; [done|].
  destruct (schedule_one i ps w) as [w1 ps1]. apply IH.
Qed.

(** Giving each process in turn [m] quanta brings every process with at most
    [m] quanta left to its end. *)
Lemma run_in_turn m (indices : list nat) (ps : list process) w :
  ∃ w' ps',
    run_schedule (indices ≫= replicate m) ps w = (w', ps')
    ∧ length ps' = length ps
    ∧ ∀ j p', ps' !! j = Some p' →
        ∃ p, ps !! j = Some p
             ∧ quanta_left p' ≤ quanta_left p
             ∧ (j ∈ indices → quanta_left p' ≤ quanta_left p - m).
Proof.
  revert ps w; induction indices as [|i indices IH]; intros ps w.
  { exists w, ps. split_and!; [done..|]. intros j p' Hp'. exists p'.
    split_and!; [done..|]. by intros ?%elem_of_nil. }
  change ((i :: indices) ≫= replicate m)
    with (replicate m i ++ (indices ≫= replicate m)).
  rewrite run_schedule_app.
  destruct (ps !! i) as [p|] eqn:Hp.
  - destruct (run_replicate_progress m i ps p w Hp) as (w1 & p1 & -> & Hq1).
    destruct (IH (<[i := p1]> ps) w1) as (w2 & ps2 & -> & Hlen & Hall).
    exists w2, ps2. split_and!; [done|by rewrite Hlen, length_insert|].
    intros j p' Hp'. destruct (Hall j p' Hp') as (q & Hq & Hle & Hin).
    destruct (decide (i = j)) as [<-|Hne].
    + rewrite list_lookup_insert_eq in Hq by (by eapply lookup_lt_Some).
      injection Hq as <-. exists p. split_and!; [done|lia|]. intros _. lia.
    + rewrite list_lookup_insert_ne in Hq by done. exists q.
      split_and!; [done..|]. intros [?|?]%elem_of_cons; [done|auto].
  - assert (run_schedule (replicate m i) ps w = (w, ps)) as ->.
    { clear -Hp. induction m as [|m IHm]; simpl; [done|].
      unfold schedule_one. by rewrite Hp. }
    destruct (IH ps w) as (w2 & ps2 & -> & Hlen & Hall).
    exists w2, ps2. split_and!; [done..|].
    intros j p' Hp'. destruct (Hall j p' Hp') as (q & Hq & Hle & Hin).
    exists q. split_and!; [done..|].
    intros [->|?]%elem_of_cons; [congruence|auto].
Qed.

(** Under the schedule that runs the nodes one after the other, [main] gets
    past the join: the barrier is reached for every item list and every
    positive number of nodes. *)
Lemma join_is_reached (items : list item) (N : nat) w :
  0 < N →
  ∃ schedule w' t,
    dispatch_and_join items N schedule w = (w', Ok (Some t)).
Proof.
  intros HN. exists (seq 0 N ≫= replicate (length items + 2)).
  destruct (array_split_spec items N HN) as (chunks & Hsplit & Hlen & _ & Hsum & _).
  unfold dispatch_and_join. rewrite Hsplit.
  rewrite (bind_Ok _ _ w w chunks) by done.
  set (w1 := set_results_dict [] w).
  rewrite (bind_Ok _ _ w w1 tt) by done.
  rewrite (bind_Ok _ _ w1 (set_ticks (S (ticks w1)) w1) (clock (ticks w1)))
    by done.
  set (w2 := set_ticks _ w1).
  destruct (spawn_loop_spec chunks N 0 [] w2 ltac:(lia)) as (ps & Hspawn & Hlps & Hps).
  rewrite (bind_Ok _ _ _ _ _ Hspawn). simpl app.
  destruct (run_in_turn (length items + 2) (seq 0 N) ps w2)
    as (w3 & ps' & Hrun & Hlen' & Hall).
  rewrite (bind_Ok _ _ w2 w3 ps') by (by rewrite Hrun).
  assert (all_joined ps' = true) as ->.
  { unfold all_joined. rewrite forallb_forall. intros p' Hin.
    apply list_elem_of_In, list_elem_of_lookup in Hin as [j Hj].
    destruct (Hall j p' Hj) as (p & Hp & _ & Hdone).
    destruct (Hps j p Hp) as (_ & Hchunk & Hpc).
    apply negb_true_iff, quanta_left_alive.
    assert (quanta_left p ≤ length items + 2).
    { unfold quanta_left. rewrite Hpc. simpl in Hchunk.
      assert (length (image_subset p) ≤ sum_list (length <$> chunks)); [|lia].
      apply (sum_list_with_in _ id).
      apply list_elem_of_fmap. eexists. split; [done|].
      by eapply list_elem_of_lookup_2. }
    assert (j ∈ seq 0 N).
    { apply elem_of_seq. apply lookup_lt_Some in Hp. lia. }
    specialize (Hdone ltac:(done)). lia. }
  by eexists _, _.
Qed.
End progress.

(** ** The efficiency, in a whole run *)

Section efficiency.
Context `{env : Env}.
Import Distributed.

(** Lines that are no part of the final report carry no efficiency, no
    summary row and no total distributed time. *)
Lemma no_report_lines (ls : list line) :
  Forall (λ l, is_report_line l = false) ls →
  efficiencies ls = [] ∧ summary_ids ls = []
  ∧ ∀ t, PTotalDistributed t ∉ ls.
Proof.
  induction 1 as [|l ls Hl _ (IH1 & IH2 & IH3)].
  { split_and!; [done..|]. intros t Ht. by apply elem_of_nil in Ht. }
  destruct l; try discriminate Hl; cbn; (split_and!; [done..|]);
    intros t' [Ht|Ht]%elem_of_cons; try discriminate Ht; by eapply IH3.
Qed.

Lemma node_step_chatter (p : process) (w w' : world) (r : result pc) :
  node_step p w = (w', r) →
  ∃ ls, stdout w' = stdout w ++ ls
        ∧ Forall (λ l, is_report_line l = false) ls.
Proof.
  unfold node_step. destruct (at_pc p) as [|[|it todo] t0| |e].
  - unfold bind, print, time_time, ret. simpl. intros [= <- _].
    exists [PNodeStart (node_id p)]. split; [done|]. by repeat constructor.
  - unfold publish, bind, print, time_time, ret. simpl. intros [= <- _].
    eexists [_]. split; [done|]. by repeat constructor.
  - destruct (process_single_image_total it.1 it.2 w) as (w1 & Hrun & Heff).
    rewrite (bind_Ok _ _ _ _ _ Hrun). unfold ret. intros [= <- _].
    destruct (te_stdout _ _ _ Heff) as [Hs|[e Hs]]; rewrite Hs.
    + exists []. by rewrite app_nil_r.
    + eexists [_]. split; [done|]. by repeat constructor.
  - unfold ret. intros [= <- _]. exists []. by rewrite app_nil_r.
  - unfold ret. intros [= <- _]. exists []. by rewrite app_nil_r.
Qed.

Lemma schedule_one_chatter (i : nat) (ps ps' : list process) (w w' : world) :
  schedule_one i ps w = (w', ps') →
  ∃ ls, stdout w' = stdout w ++ ls
        ∧ Forall (λ l, is_report_line l = false) ls.
Proof.
  unfold schedule_one.
  assert (∃ ls, stdout w = stdout w ++ ls
                ∧ Forall (λ l, is_report_line l = false) ls) as Hsame
    by (exists []; by rewrite app_nil_r).
  destruct (ps !! i) as [p|]; [|by intros [= <- _]].
  destruct (is_alive p); [|by intros [= <- _]].
  destruct (node_step p w) as [w1 [pc'|e]] eqn:Hstep;
    intros [= <- _]; by eapply node_step_chatter.
Qed.

Lemma run_schedule_chatter (schedule : list nat) (ps ps' : list process)
    (w w' : world) :
  run_schedule schedule ps w = (w', ps') →
  ∃ ls, stdout w' = stdout w ++ ls
        ∧ Forall (λ l, is_report_line l = false) ls.
Proof.
  revert ps w; induction schedule as [|i rest IH]; intros ps w; simpl.
  { intros [= <- _]. exists []. by rewrite app_nil_r. }
  destruct (schedule_one i ps w) as [w1 ps1] eqn:Hone.
  apply schedule_one_chatter in Hone as (l1 & Hs1 & Hl1).
  intros (l2 & Hs2 & Hl2)%IH. exists (l1 ++ l2).
  split; [by rewrite Hs2, Hs1, <- app_assoc|by apply Forall_app].
Qed.

Lemma spawn_loop_world (indices : list nat) (chunks : list (list item))
    (acc : list process) (w w' : world) (r : result (list process)) :
  spawn_loop indices chunks acc w = (w', r) → w' = w.
Proof.
  revert acc; induction indices as [|i rest IH]; intros acc; simpl.
  { unfold ret. by intros [= <- _]. }
  unfold bind, py_index. destruct (chunks !! i) as [c|]; simpl.
  - apply IH.
  - unfold raise. by intros [= <- _].
Qed.

(** What the dispatch, the node processes and the join print and measure. *)
Lemma dispatch_and_join_chatter (items : list item) (N : nat) schedule
    (w w' : world) (r : result (option float)) :
  dispatch_and_join items N schedule w = (w', r) →
  (∃ ls, stdout w' = stdout w ++ ls
         ∧ Forall (λ l, is_report_line l = false) ls)
  ∧ ∀ t, r = Ok (Some t) →
      t = float_sub (clock (ticks w' - 1)) (clock (ticks w)).
Proof.
  assert (Hnil : ∀ u : world, stdout u = stdout w →
            ∃ ls, stdout u = stdout w ++ ls
                  ∧ Forall (λ l, is_report_line l = false) ls).
  { intros u ->. exists []. by rewrite app_nil_r. }
  unfold dispatch_and_join.
  intros [(e & H1 & ->)|(w1 & chunks & H1 & H)]%bind_inv.
  { unfold lift in H1. injection H1 as <- _. split; [by apply Hnil|done]. }
  unfold lift in H1. injection H1 as <- _.
  apply bind_inv in H as [(e & H1 & _)|(w2 & [] & H1 & H)]; [done|].
  injection H1 as <-.
  apply bind_inv in H as [(e & H1 & _)|(w3 & t0 & H1 & H)]; [done|].
  unfold time_time in H1. injection H1 as <- <-.
  apply bind_inv in H as [(e & H1 & ->)|(w4 & ps0 & H1 & H)].
  { apply spawn_loop_world in H1 as ->. split; [by apply Hnil|done]. }
  apply spawn_loop_world in H1 as ->.
  apply bind_inv in H as [(e & H1 & _)|(w5 & ps & H1 & H)].
  { by destruct (run_schedule schedule ps0 _). }
  destruct (run_schedule schedule ps0 _) as [w5' ps'] eqn:Hrun.
  injection H1 as <- <-.
  apply run_schedule_chatter in Hrun as (ls & Hs & Hls). simpl in Hs.
  destruct (all_joined ps').
  - unfold bind, time_time, ret in H. injection H as <- <-. simpl.
    split; [by exists ls|]. intros t [= <-]. by rewrite Nat.sub_0_r.
  - unfold ret in H. injection H as <- <-. split; [by exists ls|done].
Qed.

(** C6: in a run of [main], the efficiency is computed and printed exactly
    once, as the last act of a run that returns, after the node processes
    have been joined, all N results are in the store and the N summary rows
    and the total distributed time have been printed; it is the measured
    sequential time divided by the measured distributed time.  In every
    other outcome no efficiency is printed.  The division is never done on a
    zero divisor without consequence: once a total distributed time has been
    printed, the run ends with [ZeroDivisionError] if that time is zero, and
    returns otherwise. *)
Theorem efficiency_never_divides_by_zero (INPUT_DIR OUTPUT_DIR : path)
    (N : nat) (schedule : list nat) (w w' : world) (r : result (option unit)) :
  main INPUT_DIR OUTPUT_DIR N schedule w = (w', r) →
  (∀ t, PTotalDistributed t ∈ printed w w' →
        r = if float_is_zero t then Raise ZeroDivisionError else Ok (Some tt))
  ∧ match r with
    | Ok (Some _) =>
        ∃ before total_distributed_time,
          printed w w'
          = before
            ++ [PTotalDistributed total_distributed_time;
                PEfficiency
                  (float_div
                     (float_sub (clock (ticks w + 1)) (clock (ticks w)))
                     total_distributed_time)]
          ∧ total_distributed_time
            = float_sub (clock (ticks w' - 1)) (clock (ticks w + 2))
          ∧ float_is_zero total_distributed_time = false
          ∧ efficiencies before = []
          ∧ summary_ids before = seq 1 N
          ∧ (results_dict w').*1 ≡ₚ seq 1 N
    | _ => efficiencies (printed w w') = []
    end.
Proof.
  intros H. rewrite distributed_main_discovers in H.
  destruct (Parallel.get_all_image_paths INPUT_DIR OUTPUT_DIR (fs w))
    as [f1 [all_image_paths|e]].
  2: { injection H as <- <-. unfold printed. simpl. rewrite drop_all.
       split; [|done]. intros t Ht. by apply elem_of_nil in Ht. }
  set (w0 := set_fs f1 w) in H.
  rewrite (bind_Ok _ _ _ _ _ (print_spec _ w0)) in H. set (w1 := set_stdout _ w0) in H.
  rewrite (bind_Ok _ _ _ _ _ (print_spec _ w1)) in H. set (w2 := set_stdout _ w1) in H.
  rewrite (bind_Ok _ _ w2 (set_ticks (S (ticks w2)) w2) (clock (ticks w2))) in H
    by done.
  set (w3 := set_ticks _ w2) in H.
  destruct (transform_loop_total all_image_paths w3)
    as (w4 & Hloop & [_ _ _ Ht4 _ (errs & Hs4 & Herrs)]).
  rewrite (bind_Ok _ _ _ _ _ Hloop) in H.
  rewrite (bind_Ok _ _ w4 (set_ticks (S (ticks w4)) w4) (clock (ticks w4))) in H
    by done.
  set (w5 := set_ticks _ w4) in H.
  rewrite (bind_Ok _ _ _ _ _ (print_spec _ w5)) in H. set (w6 := set_stdout _ w5) in H.
  rewrite (bind_Ok _ _ _ _ _ (print_spec _ w6)) in H. set (w7 := set_stdout _ w6) in H.
  change (ticks w2) with (ticks w) in H.
  assert (ticks w4 = S (ticks w)) as Ht4' by exact Ht4.
  rewrite Ht4' in H.
  assert (ticks w7 = ticks w + 2) as Ht7 by (simpl; rewrite Ht4'; lia).
  (* what has been printed when the nodes are dispatched *)
  assert (∃ pre, stdout w7 = stdout w ++ pre
                 ∧ Forall (λ l, is_report_line l = false) pre)
    as (pre & Hs7 & Hpre).
  { eexists ([_; _] ++ errs ++ [_; _]). split.
    - simpl. rewrite Hs4. simpl. by rewrite <- !app_assoc.
    - apply Forall_app. split; [by repeat constructor|].
      apply Forall_app. split; [|by repeat constructor].
      eapply Forall_impl; [exact Herrs|]. by intros l (q & e & ->). }
  unfold bind at 1 in H.
  destruct (dispatch_and_join all_image_paths N schedule w7)
    as [w8 rj] eqn:Hjoin.
  destruct (dispatch_and_join_chatter _ _ _ _ _ _ Hjoin)
    as ((ls & Hs8 & Hls) & Htime).
  assert (Forall (λ l, is_report_line l = false) (pre ++ ls)) as Hquiet
    by (by apply Forall_app).
  destruct (no_report_lines _ Hquiet) as (Heff & Hids & Hnone).
  assert (stdout w8 = stdout w ++ (pre ++ ls)) as Hs8'
    by (by rewrite Hs8, Hs7, <- app_assoc).
  assert (∀ u : world, stdout u = stdout w8 →
            printed w u = pre ++ ls) as Hprinted.
  { intros u Hu. unfold printed. by rewrite Hu, Hs8', drop_app_length. }
  destruct rj as [[t|]|e].
  2: { unfold ret in H. injection H as <- <-. rewrite (Hprinted w8 eq_refl).
       split; [|done]. intros t Ht. by apply Hnone in Ht. }
  2: { injection H as <- <-. rewrite (Hprinted w8 eq_refl).
       split; [|done]. intros t Ht. by apply Hnone in Ht. }
  specialize (Htime t eq_refl).
  destruct (results_after_join _ _ _ _ _ _ Hjoin) as (_ & _ & Hperm & _).
  set (sequential_time := float_sub (clock (S (ticks w))) (clock (ticks w))) in *.
  destruct (report_spec sequential_time t w8)
    as (w9 & (_ & Ht9 & _ & _ & Hr9) & Hrep).
  set (rows := (λ kv : nat * node_result,
                  PNodeSummary kv.1 (count kv.2) (time kv.2))
                 <$> py_sorted (results_dict w8)) in *.
  assert (summary_ids (pre ++ ls ++ [PBanner "Distributed Processing Summary"]
                         ++ rows) = seq 1 N) as Hsummary.
  { rewrite app_assoc, summary_ids_app, Hids, summary_ids_app. unfold rows.
    rewrite summary_ids_rows. simpl. by apply sorted_keys_unique. }
  assert (efficiencies (pre ++ ls ++ [PBanner "Distributed Processing Summary"]
                          ++ rows) = []) as Hnoeff.
  { rewrite app_assoc, efficiencies_app, Heff, efficiencies_app. unfold rows. simpl.
    clear. induction (py_sorted _) as [|[k x] l IH]; [done|]. cbn. apply IH. }
  assert (∀ t', PTotalDistributed t'
                ∈ pre ++ ls ++ [PBanner "Distributed Processing Summary"] ++ rows
                → False) as Hnototal.
  { intros t'. rewrite app_assoc. intros [Ht'|Ht']%elem_of_app.
    - by apply Hnone in Ht'.
    - apply elem_of_app in Ht' as [Ht'|Ht'].
      + apply list_elem_of_singleton in Ht'. discriminate Ht'.
      + unfold rows in Ht'. apply list_elem_of_fmap in Ht' as (kv & Hkv & _).
        discriminate Hkv. }
  assert (t = float_sub (clock (ticks w9 - 1)) (clock (ticks w + 2))) as Ht.
  { rewrite Ht9, <- Ht7. exact Htime. }
  destruct (float_is_zero t) eqn:Hzero; destruct Hrep as [Hrep Hs9];
    unfold bind in H; rewrite Hrep in H; injection H as <- <-.
  - assert (printed w w9
            = (pre ++ ls ++ [PBanner "Distributed Processing Summary"] ++ rows)
              ++ [PTotalDistributed t]) as Hout.
    { unfold printed. by rewrite Hs9, Hs8', <- !app_assoc, drop_app_length. }
    rewrite Hout. split.
    + intros t' [Ht'|Ht']%elem_of_app; [by apply Hnototal in Ht'|].
      apply list_elem_of_singleton in Ht'. injection Ht' as ->. by rewrite Hzero.
    + by rewrite efficiencies_app, Hnoeff.
  - assert (printed w w9
            = (pre ++ ls ++ [PBanner "Distributed Processing Summary"] ++ rows)
              ++ [PTotalDistributed t; PEfficiency (float_div sequential_time t)])
      as Hout.
    { unfold printed. by rewrite Hs9, Hs8', <- !app_assoc, drop_app_length. }
    rewrite Hout. split.
    + intros t' [Ht'|Ht']%elem_of_app; [by apply Hnototal in Ht'|].
      apply elem_of_cons in Ht' as [Ht'|Ht'].
      * injection Ht' as ->. by rewrite Hzero.
      * apply list_elem_of_singleton in Ht'. discriminate Ht'.
    + eexists _, t. split_and!; [|exact Ht|exact Hzero|exact Hnoeff|exact Hsummary|].
      * unfold sequential_time. by replace (ticks w + 1) with (S (ticks w)) by lia.
      * by rewrite Hr9.
Qed.
End efficiency.

(** A whole run on the sample data set with a ticking clock: the efficiency
    is the last line printed, after the rows of nodes 1 and 2. *)
Lemma efficiency_never_divides_by_zero_witness :
  Distributed.main (env := Fixtures.ticking_env)
    Fixtures.INPUT_DIR Fixtures.OUTPUT_DIR 2 Fixtures.node2_starts
    (Fixtures.world_of Fixtures.fs_data_set)
  = (Fixtures.ran.1, Ok (Some tt))
  ∧ (∀ t, PTotalDistributed t
          ∈ printed (Fixtures.world_of Fixtures.fs_data_set) Fixtures.ran.1 →
          Ok (Some tt)
          = if float_is_zero t then Raise ZeroDivisionError else Ok (Some tt))
  ∧ ∃ before total_distributed_time,
      printed (Fixtures.world_of Fixtures.fs_data_set) Fixtures.ran.1
      = before
        ++ [PTotalDistributed total_distributed_time;
            PEfficiency
              (float_div
                 (float_sub
                    (clock (Env := Fixtures.ticking_env)
                       (ticks (Fixtures.world_of Fixtures.fs_data_set) + 1))
                    (clock (Env := Fixtures.ticking_env)
                       (ticks (Fixtures.world_of Fixtures.fs_data_set))))
                 total_distributed_time)]
      ∧ total_distributed_time
        = float_sub
            (clock (Env := Fixtures.ticking_env) (ticks Fixtures.ran.1 - 1))
            (clock (Env := Fixtures.ticking_env)
               (ticks (Fixtures.world_of Fixtures.fs_data_set) + 2))
      ∧ float_is_zero total_distributed_time = false
      ∧ efficiencies before = []
      ∧ summary_ids before = seq 1 2
      ∧ (results_dict Fixtures.ran.1).*1 ≡ₚ seq 1 2.
Proof.
  assert (Distributed.main (env := Fixtures.ticking_env)
            Fixtures.INPUT_DIR Fixtures.OUTPUT_DIR 2 Fixtures.node2_starts
            (Fixtures.world_of Fixtures.fs_data_set)
          = (Fixtures.ran.1, Ok (Some tt))) as Hrun.
  { assert (Fixtures.ran.2 = Ok (Some tt)) as <- by (vm_compute; reflexivity).
    exact (surjective_pairing Fixtures.ran). }
  split; [exact Hrun|].
  exact (efficiency_never_divides_by_zero (env := Fixtures.ticking_env)
           Fixtures.INPUT_DIR Fixtures.OUTPUT_DIR 2 Fixtures.node2_starts
           (Fixtures.world_of Fixtures.fs_data_set) Fixtures.ran.1
           (Ok (Some tt)) Hrun).
Defined.

(** * Further properties *)

(** ** The sweep and the speedup table, beyond the baseline *)

Section sweep_more.
Context `{env : Env}.
Import Parallel.

(** The loop of the table leaves everything but the console alone, and ends
    normally exactly when no time is zero. *)
Lemma table_loop_outcome (baseline_time : float) (results : list (nat * float)) w :
  ∃ w',
    for_each results (λ res,
      let workers := res.1 in
      let time_taken := res.2 in
      let! speedup := lift (float_truediv baseline_time time_taken) in
      print (PTableRow workers time_taken speedup)) w
    = (w', if forallb (λ res, negb (float_is_zero res.2)) results
           then Ok tt else Raise ZeroDivisionError)
    ∧ same_outside_stdout w w'
    ∧ stdout w'
      = stdout w
        ++ ((λ res, PTableRow res.1 res.2 (float_div baseline_time res.2))
              <$> until_zero_time results).
Proof.
  revert w; induction results as [|[n t] rest IH]; intros w; simpl.
  - exists w. split_and!; [done..|]. by rewrite app_nil_r.
  - unfold bind at 1. unfold bind at 1. unfold lift, float_truediv.
    destruct (float_is_zero t); simpl.
    + exists w. split_and!; [done..|]. by rewrite app_nil_r.
    + destruct (IH (set_stdout (stdout w ++ [PTableRow n t (float_div baseline_time t)]) w))
        as (w' & Hrun & Hsame & Hout).
      exists w'. split_and!; [done|exact Hsame|].
      rewrite Hout. simpl. by rewrite <- app_assoc.
Qed.

Lemma speedup_table_keeps_history (results : list (nat * float)) w :
  ∃ w' r, speedup_table results w = (w', r) ∧ calls w' = calls w.
Proof.
  unfold speedup_table.
  rewrite (bind_Ok _ _ _ _ _ (print_spec _ w)). set (w1 := set_stdout _ w).
  rewrite (bind_Ok _ _ _ _ _ (print_spec _ w1)). set (w2 := set_stdout _ w1).
  rewrite (bind_Ok _ _ _ _ _ (print_spec _ w2)). set (w3 := set_stdout _ w2).
  destruct results as [|first rest].
  - by eexists _, _.
  - rewrite (bind_Ok _ _ w3 w3 first) by done.
    destruct (table_loop_outcome first.2 (first :: rest) w3)
      as (w' & Hrun & (_ & _ & Hcalls & _) & _).
    eexists _, _. split; [exact Hrun|]. by rewrite Hcalls.
Qed.

(** X1: the speedup table is printed row by row until a measured time is
    zero: there the division raises [ZeroDivisionError] and the rows before
    it stay printed; with no zero time the table is complete; with no result
    at all, [results[0]] raises [IndexError]. *)
Theorem speedup_table_stops_at_a_zero_time (results : list (nat * float)) w :
  ∃ w',
    speedup_table results w
    = (w', match results with
           | [] => Raise IndexError
           | _ :: _ =>
               if forallb (λ res, negb (float_is_zero res.2)) results
               then Ok tt else Raise ZeroDivisionError
           end)
    ∧ calls w' = calls w
    ∧ table_rows (printed w w')
      = (λ res, (res.1, res.2, float_div (from_option snd float_one (head results)) res.2))
          <$> until_zero_time results.
Proof.
  unfold speedup_table.
  rewrite (bind_Ok _ _ _ _ _ (print_spec _ w)). set (w1 := set_stdout _ w).
  rewrite (bind_Ok _ _ _ _ _ (print_spec _ w1)). set (w2 := set_stdout _ w1).
  rewrite (bind_Ok _ _ _ _ _ (print_spec _ w2)). set (w3 := set_stdout _ w2).
  destruct results as [|first rest].
  - exists w3. split_and!; [done..|]. unfold printed. simpl.
    rewrite <- !app_assoc, drop_app_length. done.
  - rewrite (bind_Ok _ _ w3 w3 first) by done.
    destruct (table_loop_outcome first.2 (first :: rest) w3)
      as (w' & Hrun & (_ & _ & Hcalls & _) & Hout).
    exists w'. split_and!; [exact Hrun|by rewrite Hcalls|].
    unfold printed. rewrite Hout. simpl stdout.
    rewrite <- !app_assoc, drop_app_length, !table_rows_app, table_rows_of_rows.
    done.
Qed.

Lemma process_image_noted (paths : item) w :
  ∃ w', process_image paths w = (w', Ok tt)
        ∧ calls w' = calls w ++ [paths] ∧ ticks w' = ticks w ∧ fs w' = fs w
        ∧ prints_no_row w w'.
Proof.
  destruct (process_image_total paths w) as (w' & Hrun & Ht & Hp).
  exists w'. split_and!; [done| | done | |done].
  all: revert Hrun; destruct paths as [input_path output_path];
    unfold process_image, bind, try_except, note_call, cv2_imread,
      cv2_resize, cv2_getTextSize, cv2_putText, cv2_imwrite, print, ret;
    set (w0 := set_calls _ w);
    destruct (cv2_imread_outcome w0 input_path) as [[img|]|e]; simpl;
    try (by intros [= <-]);
    destruct (cv2_resize_outcome w0 img IMG_SIZE) as [img'|e]; simpl;
    try (by intros [= <-]);
    destruct (cv2_getTextSize_outcome w0 _) as [sz|e]; simpl;
    try (by intros [= <-]);
    destruct (cv2_putText_outcome w0 img' _ _) as [[]|e]; simpl;
    try (by intros [= <-]);
    destruct (cv2_imwrite_outcome w0 output_path img') as [[|]|e]; simpl;
    by intros [= <-].
Qed.

Lemma executor_map_noted num_workers (all_image_paths : list item) w :
  0 < num_workers →
  ∃ w', executor_map num_workers all_image_paths w = (w', Ok tt)
        ∧ calls w' = calls w ++ all_image_paths ∧ fs w' = fs w
        ∧ prints_no_row w w'.
Proof.
  intros Hn. unfold executor_map. case_decide; [lia|]. clear.
  revert w; induction all_image_paths as [|it l IH]; intros w; simpl.
  - exists w. rewrite app_nil_r. split_and!; [done..|apply prints_no_row_refl].
  - destruct (process_image_noted it w) as (w1 & Hrun & Hc1 & _ & Hf1 & Hp1).
    destruct (IH w1) as (w2 & Hloop & Hc2 & Hf2 & Hp2).
    exists w2. rewrite (bind_Ok _ _ _ _ _ Hrun).
    split_and!; [done| |congruence|by eapply prints_no_row_trans].
    rewrite Hc2, Hc1, <- app_assoc. done.
Qed.

(** The sweep up to a pool size that the executor rejects. *)
Lemma sweep_noted worker_counts (all_image_paths : list item) results w :
  ∃ w' r,
    sweep worker_counts all_image_paths results w = (w', r)
    ∧ prints_no_row w w'
    ∧ if forallb (λ n, bool_decide (0 < n)) worker_counts
      then (∃ results', r = Ok results')
           ∧ calls w'
             = calls w ++ concat (replicate (length worker_counts) all_image_paths)
      else r = Raise ValueError.
Proof.
  revert results w. induction worker_counts as [|n rest IH]; intros results w; simpl.
  - exists w, (Ok results). rewrite app_nil_r.
    split_and!; [done|apply prints_no_row_refl|eauto|done].
  - rewrite (bind_Ok _ _ _ _ _ (print_spec _ w)).
    set (w1 := set_stdout _ w).
    rewrite (bind_Ok _ _ w1 (set_ticks (S (ticks w1)) w1) (clock (ticks w1)))
      by done.
    set (w2 := set_ticks _ w1).
    assert (prints_no_row w w2) as Hp2 by (by exists [PBanner "Testing"]).
    case_bool_decide as Hn; simpl.
    + destruct (executor_map_noted n all_image_paths w2 Hn)
        as (w3 & Hmap & Hc3 & _ & Hp3).
      rewrite (bind_Ok _ _ _ _ _ Hmap).
      rewrite (bind_Ok _ _ w3 (set_ticks (S (ticks w3)) w3) (clock (ticks w3)))
        by done.
      set (w4 := set_ticks _ w3).
      rewrite (bind_Ok _ _ _ _ _ (print_spec _ w4)).
      set (w5 := set_stdout _ w4).
      destruct (IH (results ++ [(n, float_sub (clock (ticks w3)) (clock (ticks w1)))])
                  w5) as (w6 & r & Hsweep & Hp6 & Hres).
      exists w6, r. split_and!; [exact Hsweep| |].
      * eapply prints_no_row_trans; [exact Hp2|].
        eapply prints_no_row_trans; [exact Hp3|].
        eapply prints_no_row_trans; [|exact Hp6]. by eexists [_].
      * destruct (forallb _ rest); [|done].
        destruct Hres as [Hok Hc6]. split; [done|].
        rewrite Hc6. simpl. rewrite Hc3. simpl. by rewrite <- app_assoc.
    + unfold executor_map. rewrite decide_True by lia.
      eexists _, _. split_and!; [reflexivity|exact Hp2|done].
Qed.
End sweep_more.

Section parallel_main.
Context `{env : Env}.
Import Parallel.

(** [main] up to the end of the sweep. *)
Lemma parallel_main_sweeps (INPUT_DIR OUTPUT_DIR : path) worker_counts
    w f1 (all_image_paths : list item) :
  get_all_image_paths INPUT_DIR OUTPUT_DIR (fs w) = (f1, Ok all_image_paths) →
  ∃ w0 w1 r,
    calls w0 = calls w ∧ prints_no_row w w0
    ∧ sweep worker_counts all_image_paths [] w0 = (w1, r)
    ∧ main INPUT_DIR OUTPUT_DIR worker_counts w
      = match r with
        | Ok results => speedup_table results w1
        | Raise e => (w1, Raise e)
        end.
Proof.
  intros Hdisc. unfold main.
  rewrite (bind_Ok _ _ _ _ _ (print_spec _ w)). set (u1 := set_stdout _ w).
  rewrite (bind_Ok _ _ u1 (set_fs f1 u1) all_image_paths)
    by (unfold lift_fs; simpl; by rewrite Hdisc).
  set (u2 := set_fs f1 u1).
  rewrite (bind_Ok _ _ _ _ _ (print_spec _ u2)). set (u3 := set_stdout _ u2).
  destruct (sweep worker_counts all_image_paths [] u3) as [w1 r] eqn:Hsweep.
  exists u3, w1, r. split_and!; [done| |done|].
  - eexists [_; _]. simpl. by rewrite <- app_assoc.
  - unfold bind. rewrite Hsweep. by destruct r.
Qed.

(** X2: every configuration of the sweep submits every discovered pair to
    [process_image] once: with k positive worker counts, [main] has invoked
    the transform on k copies of the discovered list, whether or not the
    speedup table can then be printed. *)
Theorem sweep_transforms_every_item_per_configuration
    (INPUT_DIR OUTPUT_DIR : path) worker_counts w f1 (all_image_paths : list item) :
  get_all_image_paths INPUT_DIR OUTPUT_DIR (fs w) = (f1, Ok all_image_paths) →
  Forall (λ n, 0 < n) worker_counts →
  ∃ w' r,
    main INPUT_DIR OUTPUT_DIR worker_counts w = (w', r)
    ∧ calls w'
      ≡ₚ calls w ++ concat (replicate (length worker_counts) all_image_paths).
Proof.
  intros Hdisc Hpos.
  destruct (parallel_main_sweeps _ _ worker_counts _ _ _ Hdisc)
    as (w0 & w1 & r & Hc0 & _ & Hsweep & ->).
  destruct (sweep_noted worker_counts all_image_paths [] w0)
    as (w1' & r' & Hsweep' & _ & Hres).
  rewrite Hsweep in Hsweep'. injection Hsweep' as <- <-.
  assert (forallb (λ n, bool_decide (0 < n)) worker_counts = true) as Hall.
  { apply forallb_forall. intros n Hn. apply bool_decide_eq_true_2.
    rewrite Forall_forall in Hpos. apply Hpos. by apply list_elem_of_In. }
  rewrite Hall in Hres. destruct Hres as [[results ->] Hcalls].
  destruct (speedup_table_keeps_history results w1) as (w' & r & Hrun & Hc).
  exists w', r. split; [exact Hrun|]. by rewrite Hc, Hcalls, Hc0.
Qed.

(** X3: a worker count of zero anywhere in the swept list makes the executor
    raise [ValueError]; [main] ends there and prints no row of the speedup
    table, not even for the configurations that did run. *)
Theorem zero_pool_size_aborts_the_sweep
    (INPUT_DIR OUTPUT_DIR : path) worker_counts w f1 (all_image_paths : list item) :
  get_all_image_paths INPUT_DIR OUTPUT_DIR (fs w) = (f1, Ok all_image_paths) →
  0 ∈ worker_counts →
  ∃ w',
    main INPUT_DIR OUTPUT_DIR worker_counts w = (w', Raise ValueError)
    ∧ table_rows (printed w w') = [].
Proof.
  intros Hdisc Hzero.
  destruct (parallel_main_sweeps _ _ worker_counts _ _ _ Hdisc)
    as (w0 & w1 & r & _ & (l0 & Hl0 & Hr0) & Hsweep & ->).
  destruct (sweep_noted worker_counts all_image_paths [] w0)
    as (w1' & r' & Hsweep' & (l1 & Hl1 & Hr1) & Hres).
  rewrite Hsweep in Hsweep'. injection Hsweep' as <- <-.
  assert (forallb (λ n, bool_decide (0 < n)) worker_counts = false) as Hall.
  { apply not_true_is_false. rewrite forallb_forall. intros Hall.
    specialize (Hall 0). rewrite <- list_elem_of_In in Hall.
    specialize (Hall Hzero). apply bool_decide_eq_true_1 in Hall. lia. }
  rewrite Hall in Hres. subst r.
  exists w1. split; [done|].
  unfold printed. rewrite Hl1, Hl0, <- app_assoc, drop_app_length.
  by rewrite table_rows_app, Hr0, Hr1.
Qed.
End parallel_main.

(** ** Every item goes through exactly one node *)

Lemma concat_insert_snoc {A} (ds : list (list A)) i d x :
  ds !! i = Some d → concat (<[i := d ++ [x]]> ds) ≡ₚ concat ds ++ [x].
Proof.
  revert i; induction ds as [|d0 ds IH]; intros [|i] Hd; simplify_eq/=.
  - rewrite <- !app_assoc. apply Permutation_app_head.
    apply Permutation_app_comm.
  - rewrite (IH i Hd), app_assoc. done.
Qed.

Lemma concat_replicate_nil {A} n : concat (replicate n (@nil A)) = [].
Proof. induction n; simpl; auto. Qed.

Section history.
Context `{env : Env}.
Import Distributed.

Lemma node_step_history p w :
  is_alive p = true →
  ∃ w' pc',
    node_step p w = (w', Ok pc')
    ∧ match at_pc p with
      | Spawned => calls w' = calls w ∧ ∃ t0, pc' = Looping (image_subset p) t0
      | Looping [] _ => calls w' = calls w ∧ pc' = Finished
      | Looping (it :: todo) t0 =>
          calls w' = calls w ++ [it] ∧ pc' = Looping todo t0
      | _ => True
      end.
Proof.
  unfold is_alive, node_step. destruct (at_pc p) as [|[|it todo] t0| |e]; try done;
    intros _.
  - eexists _, _. split; [reflexivity|]. split; [done|eauto].
  - destruct (publish_spec (node_id p) (image_subset p) t0 w)
      as (w' & t & Hpub & _ & Hc & _).
    exists w', Finished. by rewrite (bind_Ok _ _ _ _ _ Hpub).
  - destruct (process_single_image_total it.1 it.2 w) as (w' & Hrun & Heff).
    exists w', (Looping todo t0). rewrite (bind_Ok _ _ _ _ _ Hrun).
    split; [done|]. split; [|done]. destruct Heff as [Hc _ _ _ _ _].
    by destruct it.
Qed.

Lemma schedule_one_history base i ps ds w w' ps' :
  history_inv base w ps ds →
  schedule_one i ps w = (w', ps') →
  ∃ ds', history_inv base w' ps' ds'.
Proof.
  intros Hinv. unfold schedule_one.
  destruct (ps !! i) as [p|] eqn:Hp; [|intros [= <- <-]; by exists ds].
  destruct (is_alive p) eqn:Halive; [|intros [= <- <-]; by exists ds].
  destruct (node_step_history p w Halive) as (w1 & pc' & -> & Hcase).
  intros [= <- <-].
  destruct Hinv as [Hlen Hcalls Hdone].
  pose proof (lookup_lt_Some _ _ _ Hp) as Hi.
  destruct (lookup_lt_is_Some_2 ds i ltac:(lia)) as [d Hd].
  pose proof (Hdone i p d Hp Hd) as Hpd.
  unfold is_alive in Halive.
  destruct (at_pc p) as [|[|it todo] t0| |e] eqn:Hpc; try done.
  - (* prologue *)
    destruct Hcase as [Hc [t0 ->]]. exists ds. constructor.
    + by rewrite length_insert.
    + by rewrite Hc.
    + intros j q dj Hq Hdj. destruct (decide (i = j)) as [<-|Hne].
      * rewrite list_lookup_insert_eq in Hq by done. simplify_eq/=. done.
      * rewrite list_lookup_insert_ne in Hq by done. by apply (Hdone j q dj).
  - (* epilogue *)
    destruct Hcase as [Hc ->]. exists ds. constructor.
    + by rewrite length_insert.
    + by rewrite Hc.
    + intros j q dj Hq Hdj. destruct (decide (i = j)) as [<-|Hne].
      * rewrite list_lookup_insert_eq in Hq by done. simplify_eq/=.
        by rewrite app_nil_r in Hpd.
      * rewrite list_lookup_insert_ne in Hq by done. by apply (Hdone j q dj).
  - (* one iteration *)
    destruct Hcase as [Hc ->]. exists (<[i := d ++ [it]]> ds). constructor.
    + by rewrite !length_insert.
    + destruct Hcalls as (tail & Htail & Hperm). exists (tail ++ [it]). split.
      * by rewrite Hc, Htail, app_assoc.
      * by rewrite (concat_insert_snoc _ _ _ _ Hd), Hperm.
    + intros j q dj Hq Hdj. destruct (decide (i = j)) as [<-|Hne].
      * rewrite list_lookup_insert_eq in Hq by done.
        rewrite list_lookup_insert_eq in Hdj by lia. simplify_eq/=.
        by rewrite <- app_assoc.
      * rewrite list_lookup_insert_ne in Hq by done.
        rewrite list_lookup_insert_ne in Hdj by done. by apply (Hdone j q dj).
Qed.

Lemma run_schedule_history base schedule ps ds w w' ps' :
  history_inv base w ps ds →
  run_schedule schedule ps w = (w', ps') →
  ∃ ds', history_inv base w' ps' ds'.
Proof.
  revert ps ds w; induction schedule as [|i rest IH]; intros ps ds w Hinv; simpl.
  - intros [= <- <-]. by exists ds.
  - destruct (schedule_one i ps w) as [w1 ps1] eqn:Hone.
    destruct (schedule_one_history _ _ _ _ _ _ _ Hinv Hone) as [ds1 Hinv1].
    by apply IH with ds1.
Qed.

(** The run behind a join: the processes as dispatched, the schedule run,
    every process joined. *)
Lemma dispatch_and_join_run items N schedule w w' t :
  dispatch_and_join items N schedule w = (w', Ok (Some t)) →
  ∃ chunks ps0 w0 w1 ps,
    Numpy.array_split items N = Ok chunks
    ∧ calls w0 = calls w
    ∧ store_inv chunks w0 ps0
    ∧ (∀ j p, ps0 !! j = Some p → at_pc p = Spawned)
    ∧ run_schedule schedule ps0 w0 = (w1, ps)
    ∧ all_joined ps = true
    ∧ calls w' = calls w1.
Proof.
  unfold dispatch_and_join. intros H.
  apply bind_Ok_inv in H as (w0 & chunks & Hsplit & H).
  unfold lift in Hsplit. injection Hsplit as <- Hsplit.
  apply bind_Ok_inv in H as (w1 & [] & Hw1 & H). injection Hw1 as <-.
  apply bind_Ok_inv in H as (w2 & t0 & Hw2 & H).
  unfold time_time in Hw2. injection Hw2 as <- <-.
  assert (N = length chunks) as HN.
  { destruct (decide (0 < N)) as [HN|HN].
    - rewrite (array_split_unfold _ _ HN) in Hsplit. injection Hsplit as <-.
      by rewrite length_fmap, length_seq.
    - unfold Numpy.array_split in Hsplit. by rewrite decide_True in Hsplit by lia. }
  apply bind_Ok_inv in H as (w3 & ps0 & Hspawn & H).
  match type of Hspawn with
  | spawn_loop _ _ _ ?u = _ =>
      destruct (spawn_loop_spec chunks N 0 [] u ltac:(lia))
        as (ps0' & Hspawn' & Hlen0 & Hps0)
  end.
  rewrite Hspawn' in Hspawn. injection Hspawn as <- <-.
  apply bind_Ok_inv in H as (w4 & ps & Hrun & H).
  destruct (run_schedule schedule _ _) as [w4' ps'] eqn:Hsched.
  injection Hrun as <- <-.
  destruct (all_joined ps') eqn:Hall; [|done].
  apply bind_Ok_inv in H as (w5 & t1 & Hw5 & H).
  unfold time_time in Hw5. injection Hw5 as <- <-.
  injection H as <- _.
  exists chunks, ps0', (set_ticks (S (ticks w)) (set_results_dict [] w)), w4', ps'.
  split_and!; [done|reflexivity| | |exact Hsched|done|done].
  - constructor; simpl.
    + lia.
    + intros i p Hp. destruct (Hps0 i p Hp) as (? & ? & Hpc).
      split_and!; [done..|]. intros e. by rewrite Hpc.
    + apply NoDup_nil_2.
    + intros i p Hp Hfin. destruct (Hps0 i p Hp) as (_ & _ & Hpc).
      unfold has_finished in Hfin. by rewrite Hpc in Hfin.
    + done.
  - intros j p Hp. by destruct (Hps0 j p Hp) as (_ & _ & ?).
Qed.

Lemma items_go_through_one_node items N schedule w w' t :
  dispatch_and_join items N schedule w = (w', Ok (Some t)) →
  ∃ by_nodes, calls w' = calls w ++ by_nodes ∧ by_nodes ≡ₚ items.
Proof.
  intros H.
  destruct (dispatch_and_join_run _ _ _ _ _ _ H)
    as (chunks & ps0 & w0 & w1 & ps & Hsplit & Hc0 & Hst0 & Hps0 & Hrun & Hall & Hc').
  assert (0 < N) as HN.
  { destruct (decide (0 < N)); [done|]. unfold Numpy.array_split in Hsplit.
    by rewrite decide_True in Hsplit by lia. }
  destruct (array_split_spec items N HN) as (chunks2 & Hsplit2 & _ & _ & _ & Hconcat).
  rewrite Hsplit in Hsplit2. injection Hsplit2 as <-.
  assert (history_inv (calls w) w0 ps0 (replicate (length ps0) [])) as Hinit.
  { constructor.
    - by rewrite length_replicate.
    - exists []. by rewrite concat_replicate_nil, app_nil_r, Hc0.
    - intros j p d Hp Hd. rewrite (Hps0 j p Hp).
      by apply lookup_replicate in Hd as [-> _]. }
  destruct (run_schedule_history _ _ _ _ _ _ _ Hinit Hrun)
    as (ds & [Hlen (by_nodes & Hcalls & Hperm) Hdone]).
  pose proof (run_schedule_inv _ _ _ _ _ _ Hst0 Hrun) as Hst.
  assert (ds = chunks) as ->.
  { apply list_eq_same_length with (length ps);
      [symmetry; apply (si_length _ _ _ Hst)|done|].
    intros j d c Hj Hd Hc.
    destruct (lookup_lt_is_Some_2 ps j Hj) as [p Hp].
    destruct (si_static _ _ _ Hst j p Hp) as (_ & Hchunk & _).
    pose proof (all_joined_finished _ _ _ _ _ Hst Hall Hp) as Hfin.
    pose proof (Hdone j p d Hp Hd) as Hpd.
    unfold has_finished in Hfin. destruct (at_pc p); try done.
    congruence. }
  exists by_nodes. split; [by rewrite Hc', Hcalls|by rewrite Hperm, Hconcat].
Qed.
End history.

Section distributed_more.
Context `{env : Env}.
Import Distributed.

(** X4: between dispatch and join every item of the list handed to
    [array_split] is passed to Transform exactly once, by one node: the
    history grows by a rearrangement of the list, for every interleaving of
    the node processes. *)
Theorem nodes_transform_every_item_once (items : list item) N schedule w w' t :
  dispatch_and_join items N schedule w = (w', Ok (Some t)) →
  ∃ by_nodes, calls w' = calls w ++ by_nodes ∧ by_nodes ≡ₚ items.
Proof. apply items_go_through_one_node. Qed.

(** X5: a run of [main] that returns has invoked Transform on every
    discovered pair exactly twice: first the baseline pass, in discovery
    order, then the nodes, each pair in exactly one of them. *)
Theorem distributed_main_transforms_every_item_twice
    (INPUT_DIR OUTPUT_DIR : path) N schedule w w' f1 (all_image_paths : list item) :
  Parallel.get_all_image_paths INPUT_DIR OUTPUT_DIR (fs w)
  = (f1, Ok all_image_paths) →
  main INPUT_DIR OUTPUT_DIR N schedule w = (w', Ok (Some tt)) →
  ∃ by_nodes,
    calls w' = calls w ++ all_image_paths ++ by_nodes
    ∧ by_nodes ≡ₚ all_image_paths.
Proof.
  intros Hdisc H. rewrite distributed_main_discovers, Hdisc in H.
  set (w0 := set_fs f1 w) in H.
  rewrite (bind_Ok _ _ _ _ _ (print_spec _ w0)) in H. set (w1 := set_stdout _ w0) in H.
  rewrite (bind_Ok _ _ _ _ _ (print_spec _ w1)) in H. set (w2 := set_stdout _ w1) in H.
  rewrite (bind_Ok _ _ w2 (set_ticks (S (ticks w2)) w2) (clock (ticks w2))) in H
    by done.
  set (w3 := set_ticks _ w2) in H.
  destruct (transform_loop_total all_image_paths w3)
    as (w4 & Hloop & [Hc _ _ _ _ _]).
  rewrite (bind_Ok _ _ _ _ _ Hloop) in H.
  rewrite (bind_Ok _ _ w4 (set_ticks (S (ticks w4)) w4) (clock (ticks w4))) in H
    by done.
  set (w5 := set_ticks _ w4) in H.
  rewrite (bind_Ok _ _ _ _ _ (print_spec _ w5)) in H. set (w6 := set_stdout _ w5) in H.
  rewrite (bind_Ok _ _ _ _ _ (print_spec _ w6)) in H. set (w7 := set_stdout _ w6) in H.
  unfold bind at 1 in H.
  destruct (dispatch_and_join all_image_paths N schedule w7)
    as [w8 [[t|]|e]] eqn:Hjoin; [|done..].
  destruct (items_go_through_one_node _ _ _ _ _ _ Hjoin)
    as (by_nodes & Hc8 & Hperm).
  destruct (report_spec (float_sub (clock (ticks w4)) (clock (ticks w2))) t w8)
    as (w9 & (_ & _ & Hc9 & _) & Hrep).
  destruct (float_is_zero t); destruct Hrep as [Hrep _];
    unfold bind in H; rewrite Hrep in H; [done|].
  injection H as <-.
  change (calls w3) with (calls w) in Hc.
  assert (calls w7 = calls w ++ all_image_paths) as Hc7 by exact Hc.
  exists by_nodes. rewrite Hc9, Hc8, Hc7, <- app_assoc. done.
Qed.
End distributed_more.

Section join_more.
Context `{env : Env}.
Import Distributed.

(** X6: with more nodes than items, [array_split] hands one item to each of
    the first L nodes and an empty chunk to the others; the nodes with an
    empty chunk still publish, with a count of 0. *)
Theorem surplus_nodes_publish_zero (items : list item) N schedule w w' t :
  dispatch_and_join items N schedule w = (w', Ok (Some t)) →
  length items < N →
  ∀ i, i < N →
    ∃ r, dict_get (i + 1) (results_dict w') = Some r
         ∧ count r = if decide (i < length items) then 1 else 0.
Proof.
  intros H Hlt i Hi.
  destruct (results_after_join _ _ _ _ _ _ H) as (chunks & Hsplit & _ & Hget & _).
  destruct (array_split_spec items N ltac:(lia))
    as (chunks' & Hsplit' & Hlen & Hsizes & _).
  rewrite Hsplit in Hsplit'. injection Hsplit' as <-.
  specialize (Hsizes i Hi).
  rewrite Nat.div_small, Nat.mod_small in Hsizes by lia.
  destruct (chunks !! i) as [c|] eqn:Hc; [|done].
  injection Hsizes as Hsize.
  destruct (Hget i c Hc) as (r & Hr & Hcount).
  exists r. split; [done|]. by rewrite Hcount, Hsize.
Qed.

Lemma run_schedule_quanta schedule (ps : list process) w :
  ∃ w' ps',
    run_schedule schedule ps w = (w', ps')
    ∧ ∀ j p', ps' !! j = Some p' →
        ∃ p, ps !! j = Some p ∧ quanta_left p' ≤ quanta_left p.
Proof.
  revert ps w; induction schedule as [|i rest IH]; intros ps w; simpl.
  { exists w, ps. split; [done|]. intros j p' Hp'. by exists p'. }
  destruct (ps !! i) as [p|] eqn:Hp.
  - destruct (schedule_one_progress i ps p w Hp) as (w1 & p1 & -> & Hq1).
    destruct (IH (<[i := p1]> ps) w1) as (w2 & ps2 & -> & Hall).
    exists w2, ps2. split; [done|].
    intros j p' Hp'. destruct (Hall j p' Hp') as (q & Hq & Hle).
    destruct (decide (i = j)) as [<-|Hne].
    + rewrite list_lookup_insert_eq in Hq by (by eapply lookup_lt_Some).
      injection Hq as <-. exists p. split; [done|lia].
    + rewrite list_lookup_insert_ne in Hq by done. by exists q.
  - unfold schedule_one. rewrite Hp. apply IH.
Qed.

(** Whatever interleaving the node processes have run so far, letting each
    of them run on, one after the other, gets [main] past the join. *)
Lemma join_reached_later (items : list item) (N : nat) schedule w :
  0 < N →
  ∃ more w' t,
    dispatch_and_join items N (schedule ++ more) w = (w', Ok (Some t)).
Proof.
  intros HN. exists (seq 0 N ≫= replicate (length items + 2)).
  destruct (array_split_spec items N HN) as (chunks & Hsplit & Hlen & _ & Hsum & _).
  unfold dispatch_and_join. rewrite Hsplit.
  rewrite (bind_Ok _ _ w w chunks) by done.
  set (w1 := set_results_dict [] w).
  rewrite (bind_Ok _ _ w w1 tt) by done.
  rewrite (bind_Ok _ _ w1 (set_ticks (S (ticks w1)) w1) (clock (ticks w1)))
    by done.
  set (w2 := set_ticks _ w1).
  destruct (spawn_loop_spec chunks N 0 [] w2 ltac:(lia)) as (ps & Hspawn & Hlps & Hps).
  rewrite (bind_Ok _ _ _ _ _ Hspawn). simpl app.
  destruct (run_schedule_quanta schedule ps w2) as (w3 & ps1 & Hrun1 & Hall1).
  destruct (run_in_turn (length items + 2) (seq 0 N) ps1 w3)
    as (w4 & ps' & Hrun & Hlen' & Hall).
  rewrite (bind_Ok _ _ w2 w4 ps')
    by (by rewrite run_schedule_app, Hrun1, Hrun).
  assert (all_joined ps' = true) as ->.
  { unfold all_joined. rewrite forallb_forall. intros p' Hin.
    apply list_elem_of_In, list_elem_of_lookup in Hin as [j Hj].
    destruct (Hall j p' Hj) as (p1 & Hp1 & _ & Hdone).
    destruct (Hall1 j p1 Hp1) as (p & Hp & Hle).
    destruct (Hps j p Hp) as (_ & Hchunk & Hpc).
    apply negb_true_iff, quanta_left_alive.
    assert (quanta_left p ≤ length items + 2).
    { unfold quanta_left. rewrite Hpc. simpl in Hchunk.
      assert (length (image_subset p) ≤ sum_list (length <$> chunks)); [|lia].
      apply (sum_list_with_in _ id).
      apply list_elem_of_fmap. eexists. split; [done|].
      by eapply list_elem_of_lookup_2. }
    assert (j ∈ seq 0 N).
    { apply elem_of_seq. apply lookup_lt_Some in Hp. lia. }
    specialize (Hdone ltac:(done)). lia. }
  by eexists _, _.
Qed.

(** X7: no interleaving of the node processes can make one of them die or
    be left behind: whatever schedule the processes have run so far, it can
    be extended so that [main] gets past the join, and then every node id
    1..N has published its result and the nodes have, between them, been
    through every item exactly once. *)
Theorem join_stays_reachable (items : list item) (N : nat) schedule w :
  0 < N →
  ∃ more w' t,
    dispatch_and_join items N (schedule ++ more) w = (w', Ok (Some t))
    ∧ (results_dict w').*1 ≡ₚ seq 1 N
    ∧ ∃ by_nodes, calls w' = calls w ++ by_nodes ∧ by_nodes ≡ₚ items.
Proof.
  intros HN.
  destruct (join_reached_later items N schedule w HN) as (more & w' & t & Hjoin).
  exists more, w', t. split; [exact Hjoin|].
  destruct (results_after_join _ _ _ _ _ _ Hjoin) as (_ & _ & Hperm & _).
  split; [exact Hperm|]. by eapply items_go_through_one_node.
Qed.
End join_more.

(** ** Discovery: what it touches and what it returns *)

Lemma prefix_snoc_cases {A} (q l : list A) (x : A) :
  q `prefix_of` l ++ [x] → q = l ++ [x] ∨ q `prefix_of` l.
Proof.
  intros [k Hk]. destruct k as [|y k _] using rev_ind.
  - left. by rewrite app_nil_r in Hk.
  - right. rewrite app_assoc in Hk. apply app_inj_tail in Hk as [-> _].
    by apply prefix_app_r.
Qed.

Lemma fs_le_kept (f f' : gmap path ftype) : fs_le f f' → fs_kept f f'.
Proof.
  intros H p. specialize (H p).
  destruct (f !! p) as [[|names]|]; [done| |done].
  destruct H as [more H]. exists (names ++ more). split; [done|].
  intros x Hx. apply elem_of_app. by left.
Qed.

Lemma no_file_added_trans (f1 f2 f3 : gmap path ftype) :
  no_file_added f1 f2 → no_file_added f2 f3 → no_file_added f1 f3.
Proof. intros H12 H23 q Hq. by apply H12, H23. Qed.

Lemma os_mkdir_files (head : path) (tail : string) (f f' : gmap path ftype)
    (r : result unit) :
  os_mkdir head tail f = (f', r) → no_file_added f f'.
Proof.
  unfold os_mkdir.
  destruct (f !! path_join head tail) as [x|]; [by intros [= <- _] q|].
  destruct (f !! head) as [[|names]|]; [by intros [= <- _] q| |by intros [= <- _] q].
  intros [= <- _] q.
  destruct (decide (q = path_join head tail)) as [->|Hq1].
  { by rewrite lookup_insert_eq. }
  rewrite lookup_insert_ne by done.
  destruct (decide (q = head)) as [->|Hq2].
  { by rewrite lookup_insert_eq. }
  by rewrite lookup_insert_ne by done.
Qed.

Lemma makedirs_rev_files (rname : list string) (f f' : gmap path ftype)
    (r : result unit) :
  makedirs_rev rname f = (f', r) → no_file_added f f'.
Proof.
  revert f f' r; induction rname as [|tail rhead IH]; intros f f' r.
  { by intros [= <- _] q. }
  rewrite makedirs_rev_cons.
  destruct (bool_decide _); [apply os_mkdir_files|].
  destruct (makedirs_rev rhead f) as [f1 r1] eqn:Hinner.
  apply IH in Hinner.
  assert (os_mkdir (reverse rhead) tail f1 = (f', r) → no_file_added f f')
    as Hthen.
  { intros H%os_mkdir_files. by eapply no_file_added_trans. }
  destruct r1 as [[]|[]]; try exact Hthen; by intros [= <- _].
Qed.

Lemma os_makedirs_files (name : path) (f f' : gmap path ftype)
    (r : result unit) :
  os_makedirs name f = (f', r) → no_file_added f f'.
Proof. apply makedirs_rev_files. Qed.

Lemma class_folder_loop_files (input_dir output_dir : path)
    (folders : list string) (acc : list item) (f f' : gmap path ftype)
    (r : result (list item)) :
  class_folder_loop input_dir output_dir folders acc f = (f', r) →
  no_file_added f f'.
Proof.
  revert acc f; induction folders as [|c rest IH]; intros acc f.
  { by intros [= <- _] q. }
  rewrite class_folder_loop_cons.
  assert (Hlist : ∀ f0, no_file_added f f0 →
    list_class_folder input_dir output_dir c rest acc f0 = (f', r) →
    no_file_added f f').
  { intros f0 H0. rewrite list_class_folder_unfold.
    destruct (f0 !! path_join input_dir c) as [[|names]|].
    - by intros [= <- _].
    - intros H%IH. by eapply no_file_added_trans.
    - by intros [= <- _]. }
  destruct (f !! path_join input_dir c) as [[|names]|]; try apply IH.
  destruct (bool_decide _); [apply Hlist; by intros q|].
  destruct (os_makedirs _ f) as [f1 r1] eqn:Hmk.
  apply os_makedirs_files in Hmk.
  destruct r1 as [[]|e]; [by apply Hlist|by intros [= <- _]].
Qed.

Lemma get_all_image_paths_files (input_dir output_dir : path)
    (f f' : gmap path ftype) (r : result (list item)) :
  Parallel.get_all_image_paths input_dir output_dir f = (f', r) →
  no_file_added f f'.
Proof.
  rewrite get_all_image_paths_unfold. simpl.
  assert (Hk : ∀ f0, no_file_added f f0 →
    match f0 !! input_dir with
    | Some (Dir folders) => class_folder_loop input_dir output_dir folders [] f0
    | Some File => (f0, Raise NotADirectoryError)
    | None => (f0, Raise FileNotFoundError)
    end = (f', r) → no_file_added f f').
  { intros f0 H0. destruct (f0 !! input_dir) as [[|folders]|].
    - by intros [= <- _].
    - intros H%class_folder_loop_files. by eapply no_file_added_trans.
    - by intros [= <- _]. }
  destruct (bool_decide _); [apply Hk; by intros q|].
  destruct (os_makedirs output_dir f) as [f1 r1] eqn:Hmk.
  apply os_makedirs_files in Hmk.
  destruct r1 as [[]|e]; [by apply Hk|by intros [= <- _]].
Qed.

(** X8: Discovery writes only along the output root, and only directories.
    Whatever it returns or raises, it has removed or replaced nothing (a
    regular file is still that file, a directory is still a directory and
    lists at least the names it listed), it has created no regular file, and
    an entry that is neither an ancestor of the output root nor at or below
    it is exactly as it was. *)
Theorem discovery_writes_only_along_the_output_root (input_dir output_dir : path)
    (f f' : gmap path ftype) (r : result (list item)) :
  Parallel.get_all_image_paths input_dir output_dir f = (f', r) →
  fs_kept f f'
  ∧ no_file_added f f'
  ∧ ∀ q, ¬ q `prefix_of` output_dir → ¬ output_dir `prefix_of` q →
         f' !! q = f !! q.
Proof.
  intros Hrun. split; [|split; [by eapply get_all_image_paths_files|]].
  - apply fs_le_kept.
    destruct (get_all_image_paths_run _ _ _ _ _ Hrun)
      as (f0 & Hle0 & _ & [(-> & _)|[_ Hloop]]); [done|].
    destruct (f0 !! input_dir) as [[|folders]|];
      [by destruct Hloop as [-> _]| |by destruct Hloop as [-> _]].
    exact (fs_le_trans _ _ _ Hle0 (class_folder_loop_mono _ _ _ _ _ _ _ Hloop)).
  - intros q Hq1 Hq2.
    destruct (get_all_image_paths_run _ _ _ _ _ Hrun)
      as (f0 & _ & Hframe0 & [(-> & _)|[_ Hloop]]); [by apply Hframe0|].
    destruct (f0 !! input_dir) as [[|folders]|];
      [destruct Hloop as [-> _]; by apply Hframe0|
      |destruct Hloop as [-> _]; by apply Hframe0].
    destruct (class_folder_loop_sound _ _ _ _ _ _ _ Hloop) as [Hframe _].
    rewrite Hframe; [by apply Hframe0|].
    intros c names _ [Hq|Hq]%prefix_snoc_cases; [|done].
    apply Hq2. rewrite Hq. by apply prefix_app_r.
Qed.

Section discovery_more.
Context (input_dir output_dir : path).

Lemma class_folder_loop_mirrors (folders : list string) (acc : list item)
    (f f' : gmap path ftype) (items : list item) :
  class_folder_loop input_dir output_dir folders acc f = (f', Ok items) →
  ∃ new, items = acc ++ new
    ∧ Forall (λ it : item, ∃ c n names,
                f' !! path_join input_dir c = Some (Dir names)
                ∧ n ∈ names
                ∧ is_Some (f' !! path_join output_dir c)
                ∧ it = (path_join (path_join input_dir c) n,
                        path_join (path_join output_dir c) n)) new.
Proof.
  revert acc f; induction folders as [|c rest IH]; intros acc f.
  { intros [= <- <-]. exists []. by rewrite app_nil_r. }
  rewrite class_folder_loop_cons.
  assert (Hlist : ∀ f0, is_Some (f0 !! path_join output_dir c) →
    list_class_folder input_dir output_dir c rest acc f0 = (f', Ok items) →
    ∃ new, items = acc ++ new
      ∧ Forall (λ it : item, ∃ c n names,
                  f' !! path_join input_dir c = Some (Dir names)
                  ∧ n ∈ names
                  ∧ is_Some (f' !! path_join output_dir c)
                  ∧ it = (path_join (path_join input_dir c) n,
                          path_join (path_join output_dir c) n)) new).
  { intros f0 Hout. rewrite list_class_folder_unfold.
    destruct (f0 !! path_join input_dir c) as [[|names]|] eqn:Hc; try done.
    intros Hrest. pose proof (class_folder_loop_mono _ _ _ _ _ _ _ Hrest) as Hle.
    destruct (IH _ _ Hrest) as (new & -> & Hnew).
    eexists. rewrite <- app_assoc. split; [done|].
    apply Forall_app. split; [|done].
    destruct (fs_le_Dir _ _ _ _ Hle Hc) as [more Hc'].
    apply Forall_fmap, Forall_forall. intros n Hn. simpl.
    exists c, n, (names ++ more). split_and!; [done| |by eapply fs_le_is_Some|done].
    apply elem_of_app. by left. }
  destruct (f !! path_join input_dir c) as [[|names]|] eqn:Hc; try apply IH.
  case_bool_decide as Hout; [by apply Hlist|].
  destruct (os_makedirs _ f) as [f1 [[]|e]] eqn:Hmk; [|done].
  apply os_makedirs_spec in Hmk as (_ & _ & Hok & _).
  apply Hlist. by apply Hok.
Qed.

(** X9: every pair Discovery returns is mirrored: it is
    [(input/c/n, output/c/n)] for a class folder [c] that is a directory
    listing [n].  When Discovery returns, the output root and the output
    folder [output/c] exist; each is a directory, unless a regular file of
    that name was already there before Discovery ran (the code tests
    [os.path.exists], which a regular file satisfies too). *)
Theorem discovered_pairs_are_mirrored (f f' : gmap path ftype) (items : list item) :
  Parallel.get_all_image_paths input_dir output_dir f = (f', Ok items) →
  ((∃ names, f' !! output_dir = Some (Dir names))
   ∨ (f' !! output_dir = Some File ∧ f !! output_dir = Some File))
  ∧ Forall (λ it : item, ∃ c n names,
              f' !! path_join input_dir c = Some (Dir names)
              ∧ n ∈ names
              ∧ it = (path_join (path_join input_dir c) n,
                      path_join (path_join output_dir c) n)
              ∧ ((∃ outs, f' !! path_join output_dir c = Some (Dir outs))
                 ∨ (f' !! path_join output_dir c = Some File
                    ∧ f !! path_join output_dir c = Some File))) items.
Proof.
  intros Hrun.
  pose proof (get_all_image_paths_files _ _ _ _ _ Hrun) as Hfiles.
  assert (Hkind : ∀ q : path, is_Some (f' !! q) →
            (∃ names, f' !! q = Some (Dir names))
            ∨ (f' !! q = Some File ∧ f !! q = Some File)).
  { intros q [[|names] Hq]; [right|left; by exists names].
    split; [done|]. by apply Hfiles. }
  destruct (get_all_image_paths_inv _ _ _ _ _ Hrun)
    as (f0 & folders & _ & _ & Hout & _ & Hloop).
  pose proof (class_folder_loop_mono _ _ _ _ _ _ _ Hloop) as Hle.
  split; [apply Hkind; by eapply fs_le_is_Some|].
  destruct (class_folder_loop_mirrors _ _ _ _ _ Hloop) as (new & -> & Hnew).
  simpl. eapply Forall_impl; [exact Hnew|].
  intros it (c & n & names & Hdir & Hn & Hsome & ->).
  exists c, n, names. split_and!; [done..|]. by apply Hkind.
Qed.

Section lists_the_tree.
Context (f f1 : gmap path ftype).
Hypothesis Hunchanged : ∀ q, input_dir `prefix_of` q → f1 !! q = f !! q.

Lemma class_folder_loop_lists_the_tree (folders : list string) (acc : list item)
    (f0 : gmap path ftype) (items : list item) :
  fs_le f f0 →
  class_folder_loop input_dir output_dir folders acc f0 = (f1, Ok items) →
  items = acc ++ pairs_in_tree input_dir output_dir f folders.
Proof.
  revert acc f0; induction folders as [|c rest IH]; intros acc f0 Hle0 Hrun.
  { injection Hrun as _ <-. by rewrite app_nil_r. }
  pose proof (class_folder_loop_mono _ _ _ _ _ _ _ Hrun) as Hle1.
  assert (Hread : ∀ f2, fs_le f f2 → fs_le f2 f1 →
            f2 !! path_join input_dir c = f !! path_join input_dir c).
  { intros f2 H1 H2. rewrite (fs_le_sandwich f f2 f1 _ H1 H2).
    - apply Hunchanged. by apply prefix_app_r.
    - apply Hunchanged. by apply prefix_app_r. }
  rewrite class_folder_loop_cons in Hrun.
  rewrite (Hread f0 Hle0 Hle1) in Hrun.
  change (pairs_in_tree input_dir output_dir f (c :: rest))
    with (match f !! path_join input_dir c with
          | Some (Dir names) => pairs_of input_dir output_dir c names
          | _ => []
          end ++ pairs_in_tree input_dir output_dir f rest).
  assert (Hlist : ∀ f2 names, f !! path_join input_dir c = Some (Dir names) →
            fs_le f0 f2 →
            list_class_folder input_dir output_dir c rest acc f2 = (f1, Ok items) →
            items = acc ++ pairs_of input_dir output_dir c names
                        ++ pairs_in_tree input_dir output_dir f rest).
  { intros f2 names Hc Hle2 Hrest.
    rewrite list_class_folder_unfold in Hrest.
    assert (fs_le f2 f1) as Hle3.
    { destruct (f2 !! path_join input_dir c) as [[|?]|]; try done.
      by eapply class_folder_loop_mono. }
    rewrite (Hread f2 (fs_le_trans _ _ _ Hle0 Hle2) Hle3), Hc in Hrest.
    rewrite (IH _ _ (fs_le_trans _ _ _ Hle0 Hle2) Hrest), <- app_assoc. done. }
  destruct (f !! path_join input_dir c) as [[|names]|] eqn:Hc.
  - by eapply IH.
  - destruct (bool_decide (is_Some (f0 !! path_join output_dir c))).
    + by apply (Hlist f0 names); [|apply fs_le_refl|].
    + destruct (os_makedirs _ f0) as [f2 [[]|e]] eqn:Hmk; [|done].
      apply os_makedirs_spec in Hmk as (Hle2 & _).
      by apply (Hlist f2 names).
  - by eapply IH.
Qed.
End lists_the_tree.

(** X10: the list Discovery returns is a function of the input tree alone:
    when the run leaves that tree as it found it, the list is, for each entry
    of the root that is a directory, in the order [os.listdir] gives them,
    the pairs of its entries in the order [os.listdir] gives those.  No entry
    of a class folder is filtered out, whatever its kind or name. *)
Theorem discovery_lists_the_input_tree (f f1 : gmap path ftype)
    (items : list item) (folders : list string) :
  Parallel.get_all_image_paths input_dir output_dir f = (f1, Ok items) →
  input_tree input_dir f1 = input_tree input_dir f →
  f !! input_dir = Some (Dir folders) →
  items = pairs_in_tree input_dir output_dir f folders.
Proof.
  intros Hrun Htree Hin.
  assert (Hunchanged : ∀ q, input_dir `prefix_of` q → f1 !! q = f !! q).
  { intros q Hq. transitivity (input_tree input_dir f1 !! q).
    - symmetry. by apply input_tree_lookup.
    - rewrite Htree. by apply input_tree_lookup. }
  destruct (get_all_image_paths_inv _ _ _ _ _ Hrun)
    as (f0 & folders0 & Hle0 & _ & _ & Hin0 & Hloop).
  pose proof (class_folder_loop_mono _ _ _ _ _ _ _ Hloop) as Hle1.
  assert (f0 !! input_dir = f !! input_dir) as Hsame.
  { rewrite (fs_le_sandwich f f0 f1 _ Hle0 Hle1); by apply Hunchanged. }
  rewrite Hin0, Hin in Hsame. injection Hsame as ->.
  by apply (class_folder_loop_lists_the_tree f f1 Hunchanged folders [] f0).
Qed.
End discovery_more.

(** ** The sequential script *)

(** "Create the directory unless it exists", on its own. *)
Lemma ensure_dir_spec (p : path) (f f1 : gmap path ftype) (r1 : result unit) :
  (if bool_decide (is_Some (f !! p)) then (f, Ok tt) else os_makedirs p f)
  = (f1, r1) →
  fs_le f f1
  ∧ (∀ q, ¬ q `prefix_of` p → f1 !! q = f !! q)
  ∧ (r1 = Ok tt → is_Some (f1 !! p)).
Proof.
  case_bool_decide as Hp.
  - intros [= <- <-]. split_and!; [apply fs_le_refl|done|done].
  - intros (Hle & Hframe & Hok & _)%os_makedirs_spec. done.
Qed.

Section sequential.
Context `{env : Env}.
Context (INPUT_DIR OUTPUT_DIR : path).

Lemma process_entry_effect (cp op : path) (n : string) (w w' : world)
    (r : result unit) :
  Sequential.process_entry cp op n w = (w', r) →
  calls w' = calls w ++ [(path_join cp n, path_join op n)]
  ∧ fs w' = fs w ∧ ticks w' = ticks w ∧ stdout w' = stdout w.
Proof.
  unfold Sequential.process_entry, bind, note_call, cv2_imread, cv2_resize,
    cv2_getTextSize, cv2_putText, cv2_imwrite, ret.
  set (w0 := set_calls _ w).
  destruct (cv2_imread_outcome w0 _) as [[img|]|e]; simpl;
    [|by intros [= <- _]..].
  destruct (cv2_resize_outcome w0 img IMG_SIZE) as [img'|e]; simpl;
    [|by intros [= <- _]].
  destruct (cv2_getTextSize_outcome w0 _) as [sz|e]; simpl;
    [|by intros [= <- _]].
  destruct (cv2_putText_outcome w0 img' _ _) as [[]|e]; simpl;
    [|by intros [= <- _]].
  destruct (cv2_imwrite_outcome w0 _ img') as [[|]|e]; simpl;
    by intros [= <- _].
Qed.

(** The inner loop goes through the listing in order and stops at the first
    exception. *)
Lemma entries_effect (cp op : path) (names : list string) (w w' : world)
    (r : result unit) :
  for_each names (Sequential.process_entry cp op) w = (w', r) →
  fs w' = fs w ∧ ticks w' = ticks w ∧ stdout w' = stdout w
  ∧ ∃ done, done `prefix_of` names
      ∧ calls w' = calls w ++ ((λ n, (path_join cp n, path_join op n)) <$> done)
      ∧ (∀ u, r = Ok u → done = names).
Proof.
  revert w; induction names as [|n names IH]; intros w; simpl.
  - unfold ret. intros [= <- <-]. split_and!; try done.
    exists []. by rewrite app_nil_r.
  - intros [(e & Hn & ->)|(w1 & [] & Hn & Hrest)]%bind_inv.
    + apply process_entry_effect in Hn as (Hc & Hf & Ht & Hs).
      split_and!; try done. exists [n].
      split_and!; [by apply prefix_cons, prefix_nil|done|done].
    + apply process_entry_effect in Hn as (Hc & Hf & Ht & Hs).
      destruct (IH _ Hrest) as (Hf' & Ht' & Hs' & done & Hpre & Hc' & Hok).
      split_and!; try congruence. exists (n :: done). split_and!.
      * by apply prefix_cons.
      * rewrite Hc', Hc, <- app_assoc. done.
      * intros u Hu. by rewrite (Hok u Hu).
Qed.

Lemma sequential_loop_cons (c : string) (rest : list string) (w : world) :
  Sequential.class_folder_loop INPUT_DIR OUTPUT_DIR (c :: rest) w
  = match (if bool_decide (is_Some (fs w !! path_join OUTPUT_DIR c))
           then (fs w, Ok tt)
           else os_makedirs (path_join OUTPUT_DIR c) (fs w)) with
    | (f1, Ok _) =>
        match f1 !! path_join INPUT_DIR c with
        | Some (Dir names) =>
            match for_each names
                    (Sequential.process_entry (path_join INPUT_DIR c)
                       (path_join OUTPUT_DIR c)) (set_fs f1 w) with
            | (w1, Ok _) =>
                Sequential.class_folder_loop INPUT_DIR OUTPUT_DIR rest w1
            | (w1, Raise e) => (w1, Raise e)
            end
        | Some File => (set_fs f1 w, Raise NotADirectoryError)
        | None => (set_fs f1 w, Raise FileNotFoundError)
        end
    | (f1, Raise e) => (set_fs f1 w, Raise e)
    end.
Proof.
  simpl. unfold bind, lift_fs, os_path_exists, os_listdir, ret.
  destruct (bool_decide (is_Some (fs w !! path_join OUTPUT_DIR c))); simpl.
  - by destruct (fs w !! path_join INPUT_DIR c) as [[|names]|].
  - destruct (os_makedirs _ (fs w)) as [f1 [[]|e]]; simpl; [|done].
    by destruct (f1 !! path_join INPUT_DIR c) as [[|names]|].
Qed.

Lemma sequential_main_unfold (w : world) :
  Sequential.main INPUT_DIR OUTPUT_DIR w
  = match (if bool_decide (is_Some (fs w !! OUTPUT_DIR))
           then (fs w, Ok tt) else os_makedirs OUTPUT_DIR (fs w)) with
    | (f1, Ok _) =>
        match f1 !! INPUT_DIR with
        | Some (Dir folders) =>
            match Sequential.class_folder_loop INPUT_DIR OUTPUT_DIR folders
                    (set_fs f1 (set_ticks (S (ticks w)) w)) with
            | (w1, Ok _) =>
                (set_stdout (stdout w1 ++ [PBanner "Total execution time"])
                   (set_ticks (S (ticks w1)) w1),
                 Ok (float_sub (clock (ticks w1)) (clock (ticks w))))
            | (w1, Raise e) => (w1, Raise e)
            end
        | Some File =>
            (set_fs f1 (set_ticks (S (ticks w)) w), Raise NotADirectoryError)
        | None =>
            (set_fs f1 (set_ticks (S (ticks w)) w), Raise FileNotFoundError)
        end
    | (f1, Raise e) => (set_fs f1 (set_ticks (S (ticks w)) w), Raise e)
    end.
Proof.
  unfold Sequential.main.
  unfold bind, lift_fs, os_path_exists, os_listdir, ret, time_time, print.
  simpl.
  destruct (bool_decide (is_Some (fs w !! OUTPUT_DIR))); simpl.
  - by destruct (fs w !! INPUT_DIR) as [[|folders]|].
  - destruct (os_makedirs _ (fs w)) as [f1 [[]|e]]; simpl; [|done].
    by destruct (f1 !! INPUT_DIR) as [[|folders]|].
Qed.

(** The loop touches neither the clock nor the console, and the file system
    only grows under it. *)
Lemma sequential_loop_quiet (folders : list string) (w w' : world)
    (r : result unit) :
  Sequential.class_folder_loop INPUT_DIR OUTPUT_DIR folders w = (w', r) →
  fs_le (fs w) (fs w') ∧ ticks w' = ticks w ∧ stdout w' = stdout w
  ∧ ∃ done, calls w' = calls w ++ done.
Proof.
  revert w; induction folders as [|c rest IH]; intros w.
  { simpl. unfold ret. intros [= <- <-].
    split_and!; [apply fs_le_refl|done|done|]. exists []. by rewrite app_nil_r. }
  rewrite sequential_loop_cons.
  destruct (if bool_decide _ then _ else _) as [f1 r1] eqn:HE.
  apply ensure_dir_spec in HE as (Hle & _).
  assert (∀ e, (set_fs f1 w, Raise e) = (w', r) →
            fs_le (fs w) (fs w') ∧ ticks w' = ticks w ∧ stdout w' = stdout w
            ∧ ∃ done, calls w' = calls w ++ done) as Hstop.
  { intros e [= <- _]. split_and!; try done. exists []. by rewrite app_nil_r. }
  destruct r1 as [[]|e]; [|by apply Hstop].
  destruct (f1 !! path_join INPUT_DIR c) as [[|names]|]; [by apply Hstop| |by apply Hstop].
  destruct (for_each names _ _) as [w1 r1] eqn:Hent.
  apply entries_effect in Hent as (Hf & Ht & Hs & done & _ & Hc & _).
  simpl in *.
  destruct r1 as [[]|e].
  - intros (Hle' & Ht' & Hs' & done' & Hc')%IH.
    split_and!; try congruence.
    + rewrite Hf in Hle'. exact (fs_le_trans _ _ _ Hle Hle').
    + eexists. by rewrite Hc', Hc, <- app_assoc.
  - intros [= <- _]. rewrite Hf. split_and!; try done. by eexists.
Qed.

(** A regular file among the entries of the root stops the loop. *)
Lemma sequential_loop_stray (folders : list string) (c : string) (w : world) :
  c ∈ folders → fs w !! path_join INPUT_DIR c = Some File →
  ∃ w' e, Sequential.class_folder_loop INPUT_DIR OUTPUT_DIR folders w
          = (w', Raise e).
Proof.
  revert w; induction folders as [|c' rest IH]; intros w Hin Hfile.
  { by apply elem_of_nil in Hin. }
  rewrite sequential_loop_cons.
  destruct (if bool_decide _ then _ else _) as [f1 r1] eqn:HE.
  apply ensure_dir_spec in HE as (Hle & _).
  destruct r1 as [[]|e]; [|by eauto].
  pose proof (fs_le_File _ _ _ Hle Hfile) as Hfile1.
  destruct (f1 !! path_join INPUT_DIR c') as [[|names]|] eqn:Hc'; [by eauto| |by eauto].
  destruct (for_each names _ _) as [w1 r1] eqn:Hent.
  apply entries_effect in Hent as (Hf & _).
  destruct r1 as [[]|e]; [|by eauto].
  apply elem_of_cons in Hin as [->|Hin].
  - unfold path in *. by rewrite Hfile1 in Hc'.
  - apply IH; [done|]. by rewrite Hf.
Qed.

(** X11: the sequential script has no [isdir] guard: a regular file among
    the entries of the input root (a README next to the class folders, which
    Discovery skips) makes it die with an exception. *)
Theorem stray_file_aborts_the_sequential_script (folders : list string)
    (c : string) (w : world) :
  fs w !! INPUT_DIR = Some (Dir folders) →
  c ∈ folders →
  fs w !! path_join INPUT_DIR c = Some File →
  ∃ w' e, Sequential.main INPUT_DIR OUTPUT_DIR w = (w', Raise e).
Proof.
  intros Hroot Hin Hfile. rewrite sequential_main_unfold.
  destruct (if bool_decide _ then _ else _) as [f1 r1] eqn:HE.
  apply ensure_dir_spec in HE as (Hle & _).
  destruct r1 as [[]|e]; [|by eauto].
  destruct (fs_le_Dir _ _ _ _ Hle Hroot) as [more Hroot1].
  unfold path in *. rewrite Hroot1.
  destruct (sequential_loop_stray (folders ++ more) c
              (set_fs f1 (set_ticks (S (ticks w)) w))) as (w1 & e & ->).
  - apply elem_of_app. by left.
  - simpl. by apply (fs_le_File _ _ _ Hle).
  - eauto.
Qed.

(** X12: the sequential script reads the clock twice and prints one line,
    the total time, as its last act: when it dies nothing has been printed,
    and when it completes the time printed is the difference of the two
    readings, the first taken before anything else is done. *)
Theorem sequential_script_prints_the_total_time_last (w w' : world)
    (r : result float) :
  Sequential.main INPUT_DIR OUTPUT_DIR w = (w', r) →
  match r with
  | Ok total_time =>
      stdout w' = stdout w ++ [PBanner "Total execution time"]
      ∧ ticks w' = ticks w + 2
      ∧ total_time = float_sub (clock (ticks w + 1)) (clock (ticks w))
  | Raise _ => stdout w' = stdout w ∧ ticks w' = ticks w + 1
  end.
Proof.
  rewrite sequential_main_unfold.
  destruct (if bool_decide _ then _ else _) as [f1 r1] eqn:HE.
  destruct r1 as [[]|e]; [|intros [= <- <-]; simpl; split; [done|lia]].
  destruct (f1 !! INPUT_DIR) as [[|folders]|];
    [intros [= <- <-]; simpl; split; [done|lia]|
    |intros [= <- <-]; simpl; split; [done|lia]].
  destruct (Sequential.class_folder_loop _ _ _ _) as [w1 r1] eqn:Hloop.
  apply sequential_loop_quiet in Hloop as (_ & Ht & Hs & _). simpl in *.
  destruct r1 as [[]|e]; intros [= <- <-]; simpl.
  - rewrite Hs, Ht. split_and!; [done|lia|]. do 2 f_equal. lia.
  - rewrite Hs, Ht. split; [done|lia].
Qed.

Lemma join_not_prefix (c : string) :
  ¬ INPUT_DIR `prefix_of` OUTPUT_DIR →
  ¬ path_join INPUT_DIR c `prefix_of` path_join OUTPUT_DIR c.
Proof.
  intros Hno [Heq|Hpre]%prefix_snoc_cases; apply Hno.
  - apply app_inj_tail in Heq as [-> _]. done.
  - etrans; [|exact Hpre]. by apply prefix_app_r.
Qed.

Lemma sequential_loop_discovers (folders : list string) (acc : list item)
    (w w' : world) :
  ¬ INPUT_DIR `prefix_of` OUTPUT_DIR →
  Sequential.class_folder_loop INPUT_DIR OUTPUT_DIR folders w = (w', Ok tt) →
  ∃ new, class_folder_loop INPUT_DIR OUTPUT_DIR folders acc (fs w)
         = (fs w', Ok (acc ++ new))
         ∧ calls w' = calls w ++ new.
Proof.
  intros Hno. revert acc w; induction folders as [|c rest IH]; intros acc w.
  { simpl. unfold ret. intros [= <-]. exists []. by rewrite !app_nil_r. }
  rewrite sequential_loop_cons, class_folder_loop_cons.
  destruct (bool_decide (is_Some (fs w !! path_join OUTPUT_DIR c))) eqn:Hout.
  - destruct (fs w !! path_join INPUT_DIR c) as [[|names]|] eqn:Hc; try done.
    destruct (for_each names _ _) as [w1 [[]|e]] eqn:Hent; [|done].
    apply entries_effect in Hent as (Hf & _ & _ & done & _ & Hcalls & Hok).
    rewrite (Hok tt eq_refl) in Hcalls. simpl in Hf, Hcalls.
    intros (new & Hrun & Hnew)%(IH (acc ++ ((λ n, (path_join (path_join INPUT_DIR c) n,
                                  path_join (path_join OUTPUT_DIR c) n)) <$> names))).
    rewrite list_class_folder_unfold. unfold path in *. rewrite Hc.
    rewrite Hf in Hrun. rewrite Hrun.
    eexists. split; [by rewrite <- app_assoc|].
    by rewrite Hnew, Hcalls, <- app_assoc.
  - destruct (os_makedirs _ (fs w)) as [f1 [[]|e]] eqn:Hmk; [|done].
    apply os_makedirs_spec in Hmk as (_ & Hframe & _).
    destruct (f1 !! path_join INPUT_DIR c) as [[|names]|] eqn:Hc; try done.
    assert (Hc0 : fs w !! path_join INPUT_DIR c = Some (Dir names)).
    { transitivity (f1 !! path_join INPUT_DIR c); [|exact Hc].
      symmetry. apply Hframe, join_not_prefix, Hno. }
    destruct (fs w !! path_join INPUT_DIR c) as [[|names0]|]; try done.
    destruct (for_each names _ _) as [w1 [[]|e]] eqn:Hent; [|done].
    apply entries_effect in Hent as (Hf & _ & _ & done & _ & Hcalls & Hok).
    rewrite (Hok tt eq_refl) in Hcalls. simpl in Hf, Hcalls.
    intros (new & Hrun & Hnew)%(IH (acc ++ ((λ n, (path_join (path_join INPUT_DIR c) n,
                                  path_join (path_join OUTPUT_DIR c) n)) <$> names))).
    rewrite list_class_folder_unfold. unfold path in *. rewrite Hc.
    rewrite Hf in Hrun. rewrite Hrun.
    eexists. split; [by rewrite <- app_assoc|].
    by rewrite Hnew, Hcalls, <- app_assoc.
Qed.

(** A completed run in terms of Discovery.  The world's [fs] is the
    directory tree; the images written are recorded in [written]. *)
Lemma sequential_main_discovers (w w' : world) (total_time : float) :
  ¬ INPUT_DIR `prefix_of` OUTPUT_DIR →
  Sequential.main INPUT_DIR OUTPUT_DIR w = (w', Ok total_time) →
  ∃ all_image_paths,
    Parallel.get_all_image_paths INPUT_DIR OUTPUT_DIR (fs w)
    = (fs w', Ok all_image_paths)
    ∧ calls w' = calls w ++ all_image_paths.
Proof.
  intros Hno. rewrite sequential_main_unfold, get_all_image_paths_unfold. simpl.
  destruct (bool_decide (is_Some (fs w !! OUTPUT_DIR))).
  - destruct (fs w !! INPUT_DIR) as [[|folders]|]; try done.
    destruct (Sequential.class_folder_loop _ _ _ _) as [w1 [[]|e]] eqn:Hloop;
      [|done].
    apply (sequential_loop_discovers _ []) in Hloop as (new & Hrun & Hnew);
      [|done].
    intros [= <- _]. simpl in *. eauto.
  - destruct (os_makedirs _ (fs w)) as [f1 [[]|e]]; [|done].
    destruct (f1 !! INPUT_DIR) as [[|folders]|]; try done.
    destruct (Sequential.class_folder_loop _ _ _ _) as [w1 [[]|e]] eqn:Hloop;
      [|done].
    apply (sequential_loop_discovers _ []) in Hloop as (new & Hrun & Hnew);
      [|done].
    intros [= <- _]. simpl in *. eauto.
Qed.

(** The files an iteration, a class folder and the script write: at most
    the output path of each pair gone through, in that order. *)
Lemma process_entry_trace (cp op : path) (n : string) (w w' : world)
    (r : result unit) :
  Sequential.process_entry cp op n w = (w', r) →
  ∃ outs, written w' = written w ++ outs
          ∧ outs `sublist_of` [path_join op n].
Proof.
  unfold Sequential.process_entry, bind, note_call, cv2_imread, cv2_resize,
    cv2_getTextSize, cv2_putText, cv2_imwrite, ret.
  set (w0 := set_calls _ w).
  assert (∀ u : world, written u = written w →
            ∃ outs, written u = written w ++ outs
                    ∧ outs `sublist_of` [path_join op n]) as Hnone.
  { intros u ->. exists []. split; [by rewrite app_nil_r|]. apply sublist_nil_l. }
  destruct (cv2_imread_outcome w0 _) as [[img|]|e]; simpl;
    [|intros [= <- _]; by apply Hnone..].
  destruct (cv2_resize_outcome w0 img IMG_SIZE) as [img'|e]; simpl;
    [|intros [= <- _]; by apply Hnone].
  destruct (cv2_getTextSize_outcome w0 _) as [sz|e]; simpl;
    [|intros [= <- _]; by apply Hnone].
  destruct (cv2_putText_outcome w0 img' _ _) as [[]|e]; simpl;
    [|intros [= <- _]; by apply Hnone].
  destruct (cv2_imwrite_outcome w0 _ img') as [[|]|e]; simpl;
    intros [= <- _]; try (by apply Hnone).
  simpl. by exists [path_join op n].
Qed.

Lemma entries_trace (cp op : path) (names : list string) (w w' : world)
    (r : result unit) :
  for_each names (Sequential.process_entry cp op) w = (w', r) →
  ∃ new outs, calls w' = calls w ++ new
    ∧ written w' = written w ++ outs ∧ outs `sublist_of` new.*2.
Proof.
  revert w; induction names as [|n names IH]; intros w; simpl.
  { unfold ret. intros [= <- _]. exists [], []. by rewrite !app_nil_r. }
  assert (Hone : ∀ w1 r1, Sequential.process_entry cp op n w = (w1, r1) →
            ∃ outs, calls w1 = calls w ++ [(path_join cp n, path_join op n)]
                    ∧ written w1 = written w ++ outs
                    ∧ outs `sublist_of` [path_join op n]).
  { intros w1 r1 H. destruct (process_entry_trace _ _ _ _ _ _ H) as (outs & ? & ?).
    apply process_entry_effect in H as (Hc & _). by exists outs. }
  intros [(e & Hn & _)|(w1 & [] & Hn & Hrest)]%bind_inv.
  - destruct (Hone _ _ Hn) as (outs & Hc & Hw & Hsub). by eexists [_], outs.
  - destruct (Hone _ _ Hn) as (outs & Hc & Hw & Hsub).
    destruct (IH _ Hrest) as (new & outs' & Hc' & Hw' & Hsub').
    exists ((path_join cp n, path_join op n) :: new), (outs ++ outs').
    split_and!.
    + by rewrite Hc', Hc, <- app_assoc.
    + by rewrite Hw', Hw, <- app_assoc.
    + by apply (sublist_app _ [_]).
Qed.

Lemma sequential_loop_trace (folders : list string) (w w' : world)
    (r : result unit) :
  Sequential.class_folder_loop INPUT_DIR OUTPUT_DIR folders w = (w', r) →
  ∃ new outs, calls w' = calls w ++ new
    ∧ written w' = written w ++ outs ∧ outs `sublist_of` new.*2.
Proof.
  revert w; induction folders as [|c rest IH]; intros w.
  { simpl. unfold ret. intros [= <- _]. exists [], []. by rewrite !app_nil_r. }
  rewrite sequential_loop_cons.
  destruct (if bool_decide _ then _ else _) as [f1 r1].
  assert (∀ e, (set_fs f1 w, Raise e) = (w', r) →
            ∃ new outs, calls w' = calls w ++ new
              ∧ written w' = written w ++ outs ∧ outs `sublist_of` new.*2)
    as Hstop.
  { intros e [= <- _]. exists [], []. by rewrite !app_nil_r. }
  destruct r1 as [[]|e]; [|by apply Hstop].
  destruct (f1 !! path_join INPUT_DIR c) as [[|names]|];
    [by apply Hstop| |by apply Hstop].
  destruct (for_each names _ _) as [w1 r1] eqn:Hent.
  apply entries_trace in Hent as (new & outs & Hc & Hw & Hsub). simpl in Hc, Hw.
  destruct r1 as [[]|e].
  - intros (new' & outs' & Hc' & Hw' & Hsub')%IH.
    exists (new ++ new'), (outs ++ outs'). split_and!.
    + by rewrite Hc', Hc, <- app_assoc.
    + by rewrite Hw', Hw, <- app_assoc.
    + rewrite fmap_app. by apply sublist_app.
  - intros [= <- _]. by exists new, outs.
Qed.

(** X13: when the output root does not lie at or below the input root and
    the sequential script completes, it has done the work Discovery lays
    out: Discovery succeeds on the file system the script started from, the
    script has gone through exactly the pairs Discovery returns, in the
    order Discovery returns them, and every file it has written is the
    output path of one of those pairs, written in that order. *)
Theorem sequential_run_is_discovery_then_transform (w w' : world)
    (total_time : float) :
  ¬ INPUT_DIR `prefix_of` OUTPUT_DIR →
  Sequential.main INPUT_DIR OUTPUT_DIR w = (w', Ok total_time) →
  ∃ f' all_image_paths,
    Parallel.get_all_image_paths INPUT_DIR OUTPUT_DIR (fs w)
    = (f', Ok all_image_paths)
    ∧ calls w' = calls w ++ all_image_paths
    ∧ ∃ outs, written w' = written w ++ outs
              ∧ outs `sublist_of` all_image_paths.*2.
Proof.
  intros Hno Hmain.
  destruct (sequential_main_discovers _ _ _ Hno Hmain) as (items & Hdisc & Hcalls).
  exists (fs w'), items. split; [exact Hdisc|]. split; [exact Hcalls|].
  rewrite sequential_main_unfold in Hmain.
  destruct (if bool_decide _ then _ else _) as [f1 [[]|e]]; [|done].
  destruct (f1 !! INPUT_DIR) as [[|folders]|]; try done.
  destruct (Sequential.class_folder_loop _ _ _ _) as [w1 [[]|e]] eqn:Hloop;
    [|done].
  apply sequential_loop_trace in Hloop as (new & outs & Hc & Hw & Hsub).
  injection Hmain as <- _. simpl in *.
  rewrite Hc in Hcalls. apply app_inv_head in Hcalls as ->.
  by exists outs.
Qed.

Lemma sequential_loop_within (folders : list string) (acc : list item)
    (w w' : world) (r : result unit) (f' : gmap path ftype) (items : list item) :
  ¬ INPUT_DIR `prefix_of` OUTPUT_DIR →
  Sequential.class_folder_loop INPUT_DIR OUTPUT_DIR folders w = (w', r) →
  class_folder_loop INPUT_DIR OUTPUT_DIR folders acc (fs w) = (f', Ok items) →
  ∃ done, calls w' = calls w ++ done ∧ acc ++ done `prefix_of` items.
Proof.
  intros Hno. revert acc w; induction folders as [|c rest IH]; intros acc w.
  { simpl. unfold ret. intros [= <- _] [= _ <-].
    exists []. by rewrite !app_nil_r. }
  rewrite sequential_loop_cons, class_folder_loop_cons.
  assert (Hstop : ∀ f1 e, (set_fs f1 w, Raise e) = (w', r) →
            (∃ new, items = acc ++ new) →
            ∃ done, calls w' = calls w ++ done ∧ acc ++ done `prefix_of` items).
  { intros f1 e [= <- _] [new ->]. exists []. rewrite !app_nil_r.
    split; [done|]. by apply prefix_app_r. }
  assert (Hgo : ∀ f1 names,
    f1 !! path_join INPUT_DIR c = Some (Dir names) →
    match for_each names
            (Sequential.process_entry (path_join INPUT_DIR c)
               (path_join OUTPUT_DIR c)) (set_fs f1 w) with
    | (w1, Ok _) => Sequential.class_folder_loop INPUT_DIR OUTPUT_DIR rest w1
    | (w1, Raise e) => (w1, Raise e)
    end = (w', r) →
    list_class_folder INPUT_DIR OUTPUT_DIR c rest acc f1 = (f', Ok items) →
    ∃ done, calls w' = calls w ++ done ∧ acc ++ done `prefix_of` items).
  { intros f1 names Hc Hseq. rewrite list_class_folder_unfold.
    unfold path in *. rewrite Hc. intros Hdisc.
    destruct (class_folder_loop_mirrors _ _ _ _ _ _ _ Hdisc) as (new & Hitems & _).
    destruct (for_each names _ _) as [w1 r1] eqn:Hent.
    apply entries_effect in Hent as (Hf & _ & _ & done & Hprefix & Hcalls & Hok).
    simpl in Hf, Hcalls. destruct r1 as [[]|e].
    - rewrite (Hok tt eq_refl) in Hcalls. rewrite <- Hf in Hdisc.
      destruct (IH _ _ Hseq Hdisc) as (done' & Hc' & Hpre).
      eexists. split; [by rewrite Hc', Hcalls, <- app_assoc|].
      by rewrite <- app_assoc in Hpre.
    - injection Hseq as <- _. destruct Hprefix as [more ->].
      eexists. split; [exact Hcalls|].
      rewrite Hitems, fmap_app, <- !app_assoc.
      by apply prefix_app, prefix_app_r. }
  destruct (fs w !! path_join INPUT_DIR c) as [[|names]|] eqn:Hc.
  - (* a regular file: Discovery skips it, the script stops *)
    intros Hseq Hdisc.
    destruct (class_folder_loop_mirrors _ _ _ _ _ _ _ Hdisc) as (new & Hitems & _).
    destruct (if bool_decide _ then _ else _) as [f1 r1] eqn:HE.
    apply ensure_dir_spec in HE as (_ & Hframe & _).
    destruct r1 as [[]|e]; [|by eapply Hstop; eauto].
    unfold path in *.
    rewrite (Hframe (path_join INPUT_DIR c) (join_not_prefix c Hno)), Hc in Hseq.
    by eapply Hstop; eauto.
  - destruct (bool_decide (is_Some (fs w !! path_join OUTPUT_DIR c))).
    + intros Hseq Hdisc. unfold path in *. rewrite Hc in Hseq.
      by apply (Hgo (fs w) names).
    + destruct (os_makedirs _ (fs w)) as [f1 [[]|e]] eqn:Hmk; [|done].
      apply os_makedirs_spec in Hmk as (_ & Hframe & _).
      intros Hseq Hdisc.
      pose proof (Hframe (path_join INPUT_DIR c) (join_not_prefix c Hno)) as Hsame.
      unfold path in *. rewrite Hc in Hsame. rewrite Hsame in Hseq.
      by apply (Hgo f1 names).
  - intros Hseq Hdisc.
    destruct (class_folder_loop_mirrors _ _ _ _ _ _ _ Hdisc) as (new & Hitems & _).
    destruct (if bool_decide _ then _ else _) as [f1 r1] eqn:HE.
    apply ensure_dir_spec in HE as (_ & Hframe & _).
    destruct r1 as [[]|e]; [|by eapply Hstop; eauto].
    unfold path in *.
    rewrite (Hframe (path_join INPUT_DIR c) (join_not_prefix c Hno)), Hc in Hseq.
    by eapply Hstop; eauto.
Qed.

(** X14: what the sequential script has done when it stops is an initial
    part of the work, whether it completes or dies: whenever Discovery succeeds
    on the file system the script starts from (the output root not lying at
    or below the input root), the pairs the script has gone through, however
    it ends, are an initial segment of the list Discovery returns, in the
    same order. *)
Theorem sequential_run_stays_within_the_discovered_list (w w' : world)
    (r : result float) (f' : gmap path ftype) (all_image_paths : list item) :
  ¬ INPUT_DIR `prefix_of` OUTPUT_DIR →
  Sequential.main INPUT_DIR OUTPUT_DIR w = (w', r) →
  Parallel.get_all_image_paths INPUT_DIR OUTPUT_DIR (fs w)
  = (f', Ok all_image_paths) →
  ∃ done, calls w' = calls w ++ done ∧ done `prefix_of` all_image_paths.
Proof.
  intros Hno. rewrite sequential_main_unfold, get_all_image_paths_unfold. simpl.
  assert (Hk : ∀ f1 folders,
    match Sequential.class_folder_loop INPUT_DIR OUTPUT_DIR folders
            (set_fs f1 (set_ticks (S (ticks w)) w)) with
    | (w1, Ok _) =>
        (set_stdout (stdout w1 ++ [PBanner "Total execution time"])
           (set_ticks (S (ticks w1)) w1),
         Ok (float_sub (clock (ticks w1)) (clock (ticks w))))
    | (w1, Raise e) => (w1, Raise e)
    end = (w', r) →
    class_folder_loop INPUT_DIR OUTPUT_DIR folders [] f1 = (f', Ok all_image_paths) →
    ∃ done, calls w' = calls w ++ done ∧ done `prefix_of` all_image_paths).
  { intros f1 folders Hseq Hdisc.
    destruct (Sequential.class_folder_loop _ _ _ _) as [w1 r1] eqn:Hloop.
    destruct (sequential_loop_within _ [] _ _ _ _ _ Hno Hloop Hdisc)
      as (done & Hcalls & Hpre).
    exists done. split; [|done].
    destruct r1 as [[]|e]; injection Hseq as <- _; done. }
  destruct (bool_decide (is_Some (fs w !! OUTPUT_DIR))).
  - destruct (fs w !! INPUT_DIR) as [[|folders]|]; try done. apply Hk.
  - destruct (os_makedirs _ (fs w)) as [f1 [[]|e]]; [|done].
    destruct (f1 !! INPUT_DIR) as [[|folders]|]; try done. apply Hk.
Qed.
End sequential.

(** ** The pool worker, and a node process left alone *)

Section pool_worker.
Context `{env : Env}.

(** X15: the pool worker never lets an exception out, whatever OpenCV does.
    It touches neither the file tree, the clock nor the result store; it
    either writes its own output file and prints nothing, or writes nothing
    and prints at most one line, the warning or the error for its own input
    path. *)
Theorem pool_worker_never_raises (paths : item) (w : world) :
  ∃ w', Parallel.process_image paths w = (w', Ok tt)
    ∧ calls w' = calls w ++ [paths]
    ∧ fs w' = fs w ∧ ticks w' = ticks w ∧ results_dict w' = results_dict w
    ∧ ((written w' = written w ++ [paths.2] ∧ stdout w' = stdout w)
       ∨ (written w' = written w
          ∧ (stdout w' = stdout w
             ∨ stdout w' = stdout w ++ [PWarning paths.1]
             ∨ ∃ e, stdout w' = stdout w ++ [PError paths.1 e]))).
Proof.
  destruct paths as [input_path output_path].
  unfold Parallel.process_image, bind, try_except, note_call, cv2_imread,
    cv2_resize, cv2_getTextSize, cv2_putText, cv2_imwrite, print, ret.
  set (w0 := set_calls _ w).
  destruct (cv2_imread_outcome w0 input_path) as [[img|]|e]; simpl.
  2,3: eexists; split; [done|]; simpl; split_and!; try done; eauto 10.
  destruct (cv2_resize_outcome w0 img IMG_SIZE) as [img'|e]; simpl.
  2: eexists; split; [done|]; simpl; split_and!; try done; eauto 10.
  destruct (cv2_getTextSize_outcome w0 _) as [sz|e]; simpl.
  2: eexists; split; [done|]; simpl; split_and!; try done; eauto 10.
  destruct (cv2_putText_outcome w0 img' _ _) as [[]|e]; simpl.
  2: eexists; split; [done|]; simpl; split_and!; try done; eauto 10.
  destruct (cv2_imwrite_outcome w0 output_path img') as [[|]|e]; simpl.
  all: eexists; split; [done|]; simpl; split_and!; try done; eauto 10.
Qed.
End pool_worker.

Section node_alone.
Context `{env : Env}.
Import Distributed.

Lemma looping_alone (node_id0 : nat) (subset todo : list item) (t0 : float)
    (w : world) :
  ∃ w2 w', for_each todo (λ it, process_single_image it.1 it.2) w = (w2, Ok tt)
    ∧ publish node_id0 subset t0 w2 = (w', Ok tt)
    ∧ run_schedule (replicate (length todo + 1) 0)
        [{| node_id := node_id0; image_subset := subset;
            at_pc := Looping todo t0 |}] w
      = (w', [{| node_id := node_id0; image_subset := subset;
                 at_pc := Finished |}]).
Proof.
  revert w; induction todo as [|it todo IH]; intros w.
  - destruct (publish_spec node_id0 subset t0 w) as (w' & t & Hpub & _).
    exists w, w'. split; [done|]. split; [done|].
    cbn [length Nat.add replicate run_schedule].
    unfold schedule_one. cbn [lookup list_lookup is_alive at_pc node_step
      node_id image_subset].
    by rewrite (bind_Ok _ _ _ _ _ Hpub).
  - destruct (process_single_image_total it.1 it.2 w) as (w1 & Hrun & _).
    destruct (IH w1) as (w2 & w' & Hloop & Hpub & Hsched).
    exists w2, w'. split.
    { cbn [for_each]. by rewrite (bind_Ok _ _ _ _ _ Hrun). }
    split; [done|].
    cbn [length Nat.add replicate run_schedule].
    unfold schedule_one at 1. cbn [lookup list_lookup is_alive at_pc node_step
      node_id image_subset].
    rewrite (bind_Ok _ _ _ _ _ Hrun). exact Hsched.
Qed.

(** X16: the scheduling quanta of a node process compose to [node_task]: a
    process left to run alone for as many quanta as its chunk has items,
    plus two, has returned, in the very world in which a call of
    [node_task] with its id and chunk returns. *)
Theorem node_quanta_compose_to_node_task (node_id0 : nat) (subset : list item)
    (w : world) :
  ∃ w', node_task node_id0 subset w = (w', Ok tt)
    ∧ run_schedule (replicate (length subset + 2) 0)
        [{| node_id := node_id0; image_subset := subset; at_pc := Spawned |}] w
      = (w', [{| node_id := node_id0; image_subset := subset;
                 at_pc := Finished |}]).
Proof.
  set (w1 := set_stdout (stdout w ++ [PNodeStart node_id0]) w).
  set (w2 := set_ticks (S (ticks w1)) w1).
  destruct (looping_alone node_id0 subset subset (clock (ticks w1)) w2)
    as (w3 & w' & Hloop & Hpub & Hsched).
  exists w'. split.
  - unfold node_task.
    rewrite (bind_Ok _ _ w w1 tt) by done.
    rewrite (bind_Ok _ _ w1 w2 (clock (ticks w1))) by done.
    by rewrite (bind_Ok _ _ _ _ _ Hloop).
  - replace (length subset + 2) with (S (length subset + 1)) by lia.
    cbn [replicate run_schedule].
    unfold schedule_one at 1. cbn [lookup list_lookup is_alive at_pc node_step
      node_id image_subset].
    rewrite (bind_Ok _ _ w w1 tt) by done.
    rewrite (bind_Ok _ _ w1 w2 (clock (ticks w1))) by done.
    exact Hsched.
Qed.
End node_alone.

(** ** Concrete runs for the further properties *)

Lemma sample_discovery :
  Parallel.get_all_image_paths Fixtures.INPUT_DIR Fixtures.OUTPUT_DIR
    Fixtures.fs_data_set
  = (Fixtures.discovered.1, Ok Fixtures.found).
Proof.
  assert (Fixtures.discovered.2 = Ok Fixtures.found) as <-
    by (vm_compute; reflexivity).
  exact (surjective_pairing Fixtures.discovered).
Defined.

Lemma sample_roots_apart :
  ¬ Fixtures.INPUT_DIR `prefix_of` Fixtures.OUTPUT_DIR.
Proof. intros [k Hk]. vm_compute in Hk. discriminate. Defined.

(** The sweep over pool sizes 1 and 2 on the sample data set: ten Transform
    invocations, two per discovered pair. *)
Lemma sweep_transforms_every_item_per_configuration_witness :
  Forall (λ n, 0 < n) [1; 2]
  ∧ ∃ w' r,
      Parallel.main (env := Fixtures.ticking_env)
        Fixtures.INPUT_DIR Fixtures.OUTPUT_DIR [1; 2]
        (Fixtures.world_of Fixtures.fs_data_set) = (w', r)
      ∧ calls w'
        ≡ₚ calls (Fixtures.world_of Fixtures.fs_data_set)
           ++ concat (replicate (length [1; 2]) Fixtures.found).
Proof.
  assert (Forall (λ n, 0 < n) [1; 2]) as Hpos by (repeat constructor).
  split; [exact Hpos|].
  exact (sweep_transforms_every_item_per_configuration
           (env := Fixtures.ticking_env)
           Fixtures.INPUT_DIR Fixtures.OUTPUT_DIR [1; 2]
           (Fixtures.world_of Fixtures.fs_data_set)
           Fixtures.discovered.1 Fixtures.found sample_discovery Hpos).
Defined.

(** A zero between two valid pool sizes. *)
Lemma zero_pool_size_aborts_the_sweep_witness :
  0 ∈ [1; 0; 2]
  ∧ ∃ w',
      Parallel.main (env := Fixtures.ticking_env)
        Fixtures.INPUT_DIR Fixtures.OUTPUT_DIR [1; 0; 2]
        (Fixtures.world_of Fixtures.fs_data_set) = (w', Raise ValueError)
      ∧ table_rows (printed (Fixtures.world_of Fixtures.fs_data_set) w') = [].
Proof.
  assert (0 ∈ [1; 0; 2]) as Hzero
    by (apply (bool_decide_unpack _); vm_compute; exact I).
  split; [exact Hzero|].
  exact (zero_pool_size_aborts_the_sweep (env := Fixtures.ticking_env)
           Fixtures.INPUT_DIR Fixtures.OUTPUT_DIR [1; 0; 2]
           (Fixtures.world_of Fixtures.fs_data_set)
           Fixtures.discovered.1 Fixtures.found sample_discovery Hzero).
Defined.

Lemma sample_join :
  Distributed.dispatch_and_join (env := Fixtures.ticking_env)
    Fixtures.items3 2 Fixtures.turns (Fixtures.world_of ∅)
  = (Fixtures.joined.1, Ok (Some (Fixtures.float_of_Z 5))).
Proof. vm_compute; reflexivity. Defined.

(** Three items, two nodes taking turns: the three items, interleaved. *)
Lemma nodes_transform_every_item_once_witness :
  ∃ by_nodes,
    calls Fixtures.joined.1 = calls (Fixtures.world_of ∅) ++ by_nodes
    ∧ by_nodes ≡ₚ Fixtures.items3.
Proof.
  exact (nodes_transform_every_item_once (env := Fixtures.ticking_env)
           Fixtures.items3 2 Fixtures.turns (Fixtures.world_of ∅)
           Fixtures.joined.1 (Fixtures.float_of_Z 5) sample_join).
Defined.

(** A whole run on the sample data set: ten invocations for five pairs. *)
Lemma distributed_main_transforms_every_item_twice_witness :
  Distributed.main (env := Fixtures.ticking_env)
    Fixtures.INPUT_DIR Fixtures.OUTPUT_DIR 2 Fixtures.node2_starts
    (Fixtures.world_of Fixtures.fs_data_set)
  = (Fixtures.ran.1, Ok (Some tt))
  ∧ ∃ by_nodes,
      calls Fixtures.ran.1
      = calls (Fixtures.world_of Fixtures.fs_data_set)
        ++ Fixtures.found ++ by_nodes
      ∧ by_nodes ≡ₚ Fixtures.found.
Proof.
  assert (Distributed.main (env := Fixtures.ticking_env)
            Fixtures.INPUT_DIR Fixtures.OUTPUT_DIR 2 Fixtures.node2_starts
            (Fixtures.world_of Fixtures.fs_data_set)
          = (Fixtures.ran.1, Ok (Some tt))) as Hrun.
  { assert (Fixtures.ran.2 = Ok (Some tt)) as <- by (vm_compute; reflexivity).
    exact (surjective_pairing Fixtures.ran). }
  split; [exact Hrun|].
  exact (distributed_main_transforms_every_item_twice
           (env := Fixtures.ticking_env)
           Fixtures.INPUT_DIR Fixtures.OUTPUT_DIR 2 Fixtures.node2_starts
           (Fixtures.world_of Fixtures.fs_data_set) Fixtures.ran.1
           Fixtures.discovered.1 Fixtures.found sample_discovery Hrun).
Defined.

(** Three items for five nodes: nodes 4 and 5 publish a count of 0. *)
Lemma surplus_nodes_publish_zero_witness :
  Distributed.dispatch_and_join (env := Fixtures.ticking_env)
    Fixtures.items3 5 Fixtures.one_by_one (Fixtures.world_of ∅)
  = (Fixtures.joined5.1, Ok (Some (Fixtures.float_of_Z 11)))
  ∧ length Fixtures.items3 < 5
  ∧ ∀ i, i < 5 →
      ∃ r, dict_get (i + 1) (results_dict Fixtures.joined5.1) = Some r
           ∧ count r = if decide (i < length Fixtures.items3) then 1 else 0.
Proof.
  assert (Distributed.dispatch_and_join (env := Fixtures.ticking_env)
            Fixtures.items3 5 Fixtures.one_by_one (Fixtures.world_of ∅)
          = (Fixtures.joined5.1, Ok (Some (Fixtures.float_of_Z 11)))) as Hrun
    by (vm_compute; reflexivity).
  assert (length Fixtures.items3 < 5) as Hlt by (vm_compute; lia).
  split; [exact Hrun|]. split; [exact Hlt|].
  exact (surplus_nodes_publish_zero (env := Fixtures.ticking_env)
           Fixtures.items3 5 Fixtures.one_by_one (Fixtures.world_of ∅)
           Fixtures.joined5.1 (Fixtures.float_of_Z 11) Hrun Hlt).
Defined.

(** Two nodes cut off after the first quantum of node 1 can run on to the
    join. *)
Lemma join_stays_reachable_witness :
  0 < 2
  ∧ ∃ more w' t,
      Distributed.dispatch_and_join (env := Fixtures.ticking_env)
        Fixtures.items3 2 (Fixtures.cut_short ++ more) (Fixtures.world_of ∅)
      = (w', Ok (Some t))
      ∧ (results_dict w').*1 ≡ₚ seq 1 2
      ∧ ∃ by_nodes, calls w' = calls (Fixtures.world_of ∅) ++ by_nodes
                    ∧ by_nodes ≡ₚ Fixtures.items3.
Proof.
  assert (0 < 2) as Hpos by lia.
  split; [exact Hpos|].
  exact (join_stays_reachable (env := Fixtures.ticking_env)
           Fixtures.items3 2 Fixtures.cut_short (Fixtures.world_of ∅) Hpos).
Defined.

(** Discovery on the sample data set: the stray file and everything outside
    the output root are as before. *)
Lemma discovery_writes_only_along_the_output_root_witness :
  fs_kept Fixtures.fs_data_set Fixtures.discovered.1
  ∧ no_file_added Fixtures.fs_data_set Fixtures.discovered.1
  ∧ ∀ q, ¬ q `prefix_of` Fixtures.OUTPUT_DIR →
         ¬ Fixtures.OUTPUT_DIR `prefix_of` q →
         Fixtures.discovered.1 !! q = Fixtures.fs_data_set !! q.
Proof.
  exact (discovery_writes_only_along_the_output_root
           Fixtures.INPUT_DIR Fixtures.OUTPUT_DIR Fixtures.fs_data_set
           Fixtures.discovered.1 (Ok Fixtures.found) sample_discovery).
Defined.

(** The five pairs of the sample data set are mirrored. *)
Lemma discovered_pairs_are_mirrored_witness :
  ((∃ names, Fixtures.discovered.1 !! Fixtures.OUTPUT_DIR = Some (Dir names))
   ∨ (Fixtures.discovered.1 !! Fixtures.OUTPUT_DIR = Some File
      ∧ Fixtures.fs_data_set !! Fixtures.OUTPUT_DIR = Some File))
  ∧ Forall (λ it : item, ∃ c n names,
              Fixtures.discovered.1 !! path_join Fixtures.INPUT_DIR c
              = Some (Dir names)
              ∧ n ∈ names
              ∧ it = (path_join (path_join Fixtures.INPUT_DIR c) n,
                      path_join (path_join Fixtures.OUTPUT_DIR c) n)
              ∧ ((∃ outs, Fixtures.discovered.1
                          !! path_join Fixtures.OUTPUT_DIR c = Some (Dir outs))
                 ∨ (Fixtures.discovered.1 !! path_join Fixtures.OUTPUT_DIR c
                    = Some File
                    ∧ Fixtures.fs_data_set !! path_join Fixtures.OUTPUT_DIR c
                      = Some File)))
      Fixtures.found.
Proof.
  exact (discovered_pairs_are_mirrored
           Fixtures.INPUT_DIR Fixtures.OUTPUT_DIR Fixtures.fs_data_set
           Fixtures.discovered.1 Fixtures.found sample_discovery).
Defined.

(** The five pairs are those of the two class folders, in listing order. *)
Lemma discovery_lists_the_input_tree_witness :
  input_tree Fixtures.INPUT_DIR Fixtures.discovered.1
  = input_tree Fixtures.INPUT_DIR Fixtures.fs_data_set
  ∧ Fixtures.fs_data_set !! Fixtures.INPUT_DIR
    = Some (Dir ["cats"; "README.txt"; "dogs"])
  ∧ Fixtures.found
    = pairs_in_tree Fixtures.INPUT_DIR Fixtures.OUTPUT_DIR Fixtures.fs_data_set
        ["cats"; "README.txt"; "dogs"].
Proof.
  assert (input_tree Fixtures.INPUT_DIR Fixtures.discovered.1
          = input_tree Fixtures.INPUT_DIR Fixtures.fs_data_set) as Htree
    by (apply (bool_decide_unpack _); vm_compute; exact I).
  assert (Fixtures.fs_data_set !! Fixtures.INPUT_DIR
          = Some (Dir ["cats"; "README.txt"; "dogs"])) as Hroot
    by (vm_compute; reflexivity).
  split; [exact Htree|]. split; [exact Hroot|].
  exact (discovery_lists_the_input_tree
           Fixtures.INPUT_DIR Fixtures.OUTPUT_DIR Fixtures.fs_data_set
           Fixtures.discovered.1 Fixtures.found
           ["cats"; "README.txt"; "dogs"] sample_discovery Htree Hroot).
Defined.

(** The sample data set has a README next to its class folders. *)
Lemma stray_file_aborts_the_sequential_script_witness :
  fs (Fixtures.world_of Fixtures.fs_data_set) !! Fixtures.INPUT_DIR
  = Some (Dir ["cats"; "README.txt"; "dogs"])
  ∧ "README.txt" ∈ ["cats"; "README.txt"; "dogs"]
  ∧ fs (Fixtures.world_of Fixtures.fs_data_set)
    !! path_join Fixtures.INPUT_DIR "README.txt" = Some File
  ∧ ∃ w' e,
      Sequential.main (env := Fixtures.ticking_env)
        Fixtures.INPUT_DIR Fixtures.OUTPUT_DIR
        (Fixtures.world_of Fixtures.fs_data_set) = (w', Raise e).
Proof.
  assert (fs (Fixtures.world_of Fixtures.fs_data_set) !! Fixtures.INPUT_DIR
          = Some (Dir ["cats"; "README.txt"; "dogs"])) as Hroot
    by (vm_compute; reflexivity).
  assert ("README.txt" ∈ ["cats"; "README.txt"; "dogs"]) as Hin
    by (apply (bool_decide_unpack _); vm_compute; exact I).
  assert (fs (Fixtures.world_of Fixtures.fs_data_set)
          !! path_join Fixtures.INPUT_DIR "README.txt" = Some File) as Hfile
    by (vm_compute; reflexivity).
  split; [exact Hroot|]. split; [exact Hin|]. split; [exact Hfile|].
  exact (stray_file_aborts_the_sequential_script (env := Fixtures.ticking_env)
           Fixtures.INPUT_DIR Fixtures.OUTPUT_DIR
           ["cats"; "README.txt"; "dogs"] "README.txt"
           (Fixtures.world_of Fixtures.fs_data_set) Hroot Hin Hfile).
Defined.

Lemma sample_sequential_run :
  Sequential.main (env := Fixtures.ticking_env)
    Fixtures.INPUT_DIR Fixtures.OUTPUT_DIR
    (Fixtures.world_of Fixtures.fs_class_folders)
  = (Fixtures.sequential_run.1, Ok (Fixtures.float_of_Z 1)).
Proof.
  assert (Fixtures.sequential_run.2 = Ok (Fixtures.float_of_Z 1)) as <-
    by (vm_compute; reflexivity).
  exact (surjective_pairing Fixtures.sequential_run).
Defined.

(** A complete run: one line, two clock readings one second apart. *)
Lemma sequential_script_prints_the_total_time_last_witness :
  stdout Fixtures.sequential_run.1
  = stdout (Fixtures.world_of Fixtures.fs_class_folders)
    ++ [PBanner "Total execution time"]
  ∧ ticks Fixtures.sequential_run.1
    = ticks (Fixtures.world_of Fixtures.fs_class_folders) + 2
  ∧ Fixtures.float_of_Z 1
    = float_sub
        (clock (Env := Fixtures.ticking_env)
           (ticks (Fixtures.world_of Fixtures.fs_class_folders) + 1))
        (clock (Env := Fixtures.ticking_env)
           (ticks (Fixtures.world_of Fixtures.fs_class_folders))).
Proof.
  exact (sequential_script_prints_the_total_time_last
           (env := Fixtures.ticking_env)
           Fixtures.INPUT_DIR Fixtures.OUTPUT_DIR
           (Fixtures.world_of Fixtures.fs_class_folders)
           Fixtures.sequential_run.1 (Ok (Fixtures.float_of_Z 1))
           sample_sequential_run).
Defined.

(** A complete run on class folders only: the three pairs Discovery finds,
    in its order. *)
Lemma sequential_run_is_discovery_then_transform_witness :
  ∃ f' all_image_paths,
    Parallel.get_all_image_paths Fixtures.INPUT_DIR Fixtures.OUTPUT_DIR
      (fs (Fixtures.world_of Fixtures.fs_class_folders))
    = (f', Ok all_image_paths)
    ∧ calls Fixtures.sequential_run.1
      = calls (Fixtures.world_of Fixtures.fs_class_folders) ++ all_image_paths
    ∧ ∃ outs, written Fixtures.sequential_run.1
              = written (Fixtures.world_of Fixtures.fs_class_folders) ++ outs
              ∧ outs `sublist_of` all_image_paths.*2.
Proof.
  exact (sequential_run_is_discovery_then_transform
           (env := Fixtures.ticking_env)
           Fixtures.INPUT_DIR Fixtures.OUTPUT_DIR
           (Fixtures.world_of Fixtures.fs_class_folders)
           Fixtures.sequential_run.1 (Fixtures.float_of_Z 1)
           sample_roots_apart sample_sequential_run).
Defined.

(** The run stopped by the README has been through the first class folder
    only. *)
Lemma sequential_run_stays_within_the_discovered_list_witness :
  ∃ done,
    calls Fixtures.sequential_stopped.1
    = calls (Fixtures.world_of Fixtures.fs_data_set) ++ done
    ∧ done `prefix_of` Fixtures.found.
Proof.
  exact (sequential_run_stays_within_the_discovered_list
           (env := Fixtures.ticking_env)
           Fixtures.INPUT_DIR Fixtures.OUTPUT_DIR
           (Fixtures.world_of Fixtures.fs_data_set)
           Fixtures.sequential_stopped.1 Fixtures.sequential_stopped.2
           Fixtures.discovered.1 Fixtures.found
           sample_roots_apart (surjective_pairing Fixtures.sequential_stopped)
           sample_discovery).
Defined.
